(** * Air-quality dashboard front end: embedding and verified properties

    The development follows the three JavaScript sources of the front end:
    the API client ([apiFetch] and the per-resource operations), the
    application controller ([AppState], the event handlers registered by
    [setupFilters] and [setupPagination], [loadRecords], the renderers) and
    the charts module ([analyzeTrend]).

    Conventions of the embedding.
    - A JavaScript string is the [string] of its UTF-8 bytes.
    - A JavaScript number that is an identifier, a page, a year, a count or
      an HTTP status is an integer of [Z]; a pollutant reading is a finite
      rational of [Q] (every finite double is one, and comparisons between
      doubles are comparisons between these rationals).
    - An [async] function is split at each [await]: the part that runs up to
      the await, and the part that resumes on the reply.  The event loop is
      the function [App.step]; a network completion is an event like a click.
    - DOM and console effects are recorded, in order, in a trace. *)

From Stdlib Require Import ZArith QArith Qround Qabs Bool List String Ascii Lia.
From Stdlib Require Import DecimalString Lqa Sorted.
Import ListNotations.

Set Warnings "-register-all".

Open Scope string_scope.
Open Scope Z_scope.

(* ================================================================== *)
(** * JavaScript values *)
(* ================================================================== *)

Module JS.

(** The values that reach the API client: primitives, arrays and objects
    (an object is the list of its own properties, first binding wins). *)
Inductive value : Type :=
| VUndefined : value
| VNull : value
| VBool : bool -> value
| VNum : Z -> value
| VStr : string -> value
| VArr : list value -> value
| VObj : list (string * value) -> value.

Definition obj : Type := list (string * value).

(** Exceptions, by constructor. *)
Inductive exn : Type :=
| Error (message : string)
| TypeError (message : string)
| SyntaxError (message : string).

(** ToBoolean. *)
Definition truthy (v : value) : bool :=
  match v with
  | VUndefined | VNull => false
  | VBool b => b
  | VNum n => negb (n =? 0)
  | VStr s => negb (s =? "")%string
  | VArr _ | VObj _ => true
  end.

(** Number::toString on an integer (positional notation, as for every
    integer below 10^21 in magnitude). *)
Definition string_of_Z (n : Z) : string :=
  NilZero.string_of_int (Z.to_int n).

Fixpoint join (sep : string) (l : list string) : string :=
  match l with
  | [] => ""
  | [s] => s
  | s :: rest => s ++ sep ++ join sep rest
  end.

(** ToString.  Array.prototype.toString joins the elements with a comma,
    [null] and [undefined] elements giving the empty string. *)
Fixpoint ToString (v : value) : string :=
  match v with
  | VUndefined => "undefined"
  | VNull => "null"
  | VBool true => "true"
  | VBool false => "false"
  | VNum n => string_of_Z n
  | VStr s => s
  | VArr l =>
      join ","
        (map (fun x => match x with
                       | VUndefined | VNull => ""
                       | _ => ToString x
                       end) l)
  | VObj _ => "[object Object]"
  end.

(** Own-property lookup in an object literal or a parsed JSON object. *)
Fixpoint lookup (o : obj) (key : string) : value :=
  match o with
  | [] => VUndefined
  | (k, v) :: rest => if (k =? key)%string then v else lookup rest key
  end.

(** [v.key] for a key that no prototype defines: a TypeError on [null] and
    [undefined], the own property of an object, [undefined] otherwise. *)
Definition get_prop (v : value) (key : string) : exn + value :=
  match v with
  | VUndefined | VNull =>
      inl (TypeError ("Cannot read properties of " ++ ToString v
                      ++ " (reading '" ++ key ++ "')"))
  | VObj o => inr (lookup o key)
  | _ => inr VUndefined
  end.

(** [a || b]. *)
Definition or_else (a b : value) : value := if truthy a then a else b.

End JS.

(* ================================================================== *)
(** * Percent-encoding *)
(* ================================================================== *)

Module Url.

Definition is_alnum (c : ascii) : bool :=
  let n := N_of_ascii c in
  (((48 <=? n) && (n <=? 57)) || ((65 <=? n) && (n <=? 90))
   || ((97 <=? n) && (n <=? 122)))%N.

Definition mem_char (c : ascii) (set : string) : bool :=
  existsb (Ascii.eqb c) (list_ascii_of_string set).

Definition hex_digit (n : N) : ascii :=
  match String.get (N.to_nat n) "0123456789ABCDEF" with
  | Some c => c
  | None => "0"%char
  end.

(** [%XX], upper-case hexadecimal. *)
Definition percent (c : ascii) : string :=
  let n := N_of_ascii c in
  String "%" (String (hex_digit (n / 16)) (String (hex_digit (n mod 16)) "")).

(** encodeURIComponent leaves the unreserved marks and alphanumerics and
    escapes every other byte of the UTF-8 encoding. *)
Definition uri_unreserved (c : ascii) : bool :=
  is_alnum c || mem_char c "-_.!~*'()".

Fixpoint encode_bytes (s : string) : string :=
  match s with
  | EmptyString => ""
  | String c rest =>
      (if uri_unreserved c then String c "" else percent c) ++ encode_bytes rest
  end.

Definition encodeURIComponent (v : JS.value) : string :=
  encode_bytes (JS.ToString v).

(** The application/x-www-form-urlencoded serializer of URLSearchParams. *)
Definition form_byte (c : ascii) : string :=
  if is_alnum c || mem_char c "*-._" then String c ""
  else if Ascii.eqb c " " then "+"
  else percent c.

Fixpoint form_encode (s : string) : string :=
  match s with
  | EmptyString => ""
  | String c rest => form_byte c ++ form_encode rest
  end.

(** A URLSearchParams object: the list of its name/value pairs. *)
Definition URLSearchParams : Type := list (string * string).

Definition append (q : URLSearchParams) (name : string) (v : JS.value)
  : URLSearchParams :=
  (q ++ [(name, JS.ToString v)])%list.

Definition toString (q : URLSearchParams) : string :=
  JS.join "&" (map (fun p => form_encode (fst p) ++ "=" ++ form_encode (snd p)) q).

End Url.

(* ================================================================== *)
(** * The API client *)
(* ================================================================== *)

Module Api.
Import JS.

Definition API_BASE_URL (hostname : string) : string :=
  if (hostname =? "localhost")%string then "http://localhost:8000/api/v1"
  else "/api/v1".

(** What the client reads of a Response: the status, and what
    [response.json()] settles to. *)
Record Response : Type := mkResponse {
  status : Z;
  json : exn + value
}.

(** [response.ok] is the getter of the Fetch standard. *)
Definition ok (r : Response) : bool := (200 <=? status r) && (status r <=? 299).

(** [fetch] either rejects (no response reached) or resolves. *)
Inductive fetch_outcome : Type :=
| Rejected (e : exn)
| Resolved (r : Response).

(** The options object of a request; [None] is an absent property. *)
Record Options : Type := mkOptions {
  method : option string;
  body : option string;
  headers : option (list (string * string))
}.

Definition no_options : Options := mkOptions None None None.

Definition defaultOptions : Options :=
  mkOptions None None (Some [("Content-Type", "application/json")]).

Definition or_default {A : Type} (given default : option A) : option A :=
  match given with
  | Some a => Some a
  | None => default
  end.

(** [{ ...defaultOptions, ...options }]: a property of [options] replaces
    the default one. *)
Definition finalOptions (options : Options) : Options :=
  mkOptions (or_default (method options) (method defaultOptions))
            (or_default (body options) (body defaultOptions))
            (or_default (headers options) (headers defaultOptions)).

(** [checkApiHealth]: healthy when a response arrives and is a success;
    a failure of the network is caught and gives [false]. *)
Definition checkApiHealth (out : fetch_outcome) : bool :=
  match out with
  | Resolved response => ok response
  | Rejected _ => false
  end.

(** One line of [console.error]: the label and the logged failure. *)
Record LogEntry : Type := mkLog {
  log_label : string;
  log_error : exn
}.

(** The body of the [try] block of [apiFetch]. *)
Definition apiFetch_try (out : fetch_outcome) : exn + value :=
  match out with
  | Rejected e => inl e
  | Resolved response =>
      if negb (ok response) then
        let errorData :=
          match json response with
          | inl _ => VObj []
          | inr v => v
          end in
        match get_prop errorData "detail" with
        | inl e => inl e
        | inr detail =>
            inl (Error (ToString
                   (or_else detail
                      (VStr ("HTTP error! status: "
                             ++ ToString (VNum (status response)))))))
        end
      else if status response =? 204 then inr VNull
      else json response
  end.

(** [apiFetch]: the console lines written and the settled result.  The
    network is the function [fetch] from URL and options to outcome. *)
Section ApiFetch.
Variable hostname : string.
Variable fetch : string -> Options -> fetch_outcome.

Definition apiFetch (endpoint : string) (options : Options)
  : list LogEntry * (exn + value) :=
  let url := API_BASE_URL hostname ++ endpoint in
  match apiFetch_try (fetch url (finalOptions options)) with
  | inl error => ([mkLog ("API Error [" ++ endpoint ++ "]:") error], inl error)
  | inr v => ([], inr v)
  end.
End ApiFetch.

(** A network that answers every request with the response [r]. *)
Definition respond_with (r : Response) : string -> Options -> fetch_outcome :=
  fun _ _ => Resolved r.

(** ** Endpoints built by the operations *)

Definition getRecords_queryParams (params : obj) : Url.URLSearchParams :=
  let q := [] in
  let q := if truthy (lookup params "commune")
           then Url.append q "commune" (lookup params "commune") else q in
  let q := if truthy (lookup params "region")
           then Url.append q "region" (lookup params "region") else q in
  let q := if truthy (lookup params "annee")
           then Url.append q "annee" (lookup params "annee") else q in
  let q := if truthy (lookup params "page")
           then Url.append q "page" (lookup params "page") else q in
  let q := if truthy (lookup params "page_size")
           then Url.append q "page_size" (lookup params "page_size") else q in
  q.

(** The fields of [params] that [getRecords] reads. *)
Definition getRecords_fields : list string :=
  ["commune"; "region"; "annee"; "page"; "page_size"].

Definition with_query (path queryString : string) : string :=
  path ++ (if truthy (VStr queryString) then "?" ++ queryString else "").

Definition getRecords_endpoint (params : obj) : string :=
  with_query "/records" (Url.toString (getRecords_queryParams params)).

Definition getRecordById_endpoint (id : value) : string :=
  "/records/" ++ ToString id.

Definition updateRecord_endpoint (id : value) : string :=
  "/records/" ++ ToString id.

Definition deleteRecord_endpoint (id : value) : string :=
  "/records/" ++ ToString id.

Definition getCommunes_endpoint (region : value) : string :=
  "/communes"
  ++ (if truthy region then "?region=" ++ Url.encodeURIComponent region else "").

Definition getRegionStats_endpoint (region annee : value) : string :=
  let queryString := if truthy annee then "?annee=" ++ ToString annee else "" in
  "/stats/region/" ++ Url.encodeURIComponent region ++ queryString.

Definition getCommuneStats_endpoint (commune : value) : string :=
  "/stats/commune/" ++ Url.encodeURIComponent commune.

Definition getPollutantTrend_queryParams (params : obj) : Url.URLSearchParams :=
  let q := [] in
  let q := if truthy (lookup params "region")
           then Url.append q "region" (lookup params "region") else q in
  let q := if truthy (lookup params "commune")
           then Url.append q "commune" (lookup params "commune") else q in
  q.

Definition getPollutantTrend_endpoint (pollutant : value) (params : obj) : string :=
  with_query ("/trends/" ++ ToString pollutant)
             (Url.toString (getPollutantTrend_queryParams params)).

Section Operations.
Variable hostname : string.
Variable fetch : string -> Options -> fetch_outcome.

Definition getRecords (params : obj) :=
  apiFetch hostname fetch (getRecords_endpoint params) no_options.

Definition getRecordById (id : value) :=
  apiFetch hostname fetch (getRecordById_endpoint id) no_options.

Definition updateRecord (id : value) (updateData : string) :=
  apiFetch hostname fetch (updateRecord_endpoint id)
           (mkOptions (Some "PUT") (Some updateData) None).

Definition deleteRecord (id : value) :=
  apiFetch hostname fetch (deleteRecord_endpoint id)
           (mkOptions (Some "DELETE") None None).

Definition getRegionStats (region annee : value) :=
  apiFetch hostname fetch (getRegionStats_endpoint region annee) no_options.

Definition getCommuneStats (commune : value) :=
  apiFetch hostname fetch (getCommuneStats_endpoint commune) no_options.

Definition getPollutantTrend (pollutant : value) (params : obj) :=
  apiFetch hostname fetch (getPollutantTrend_endpoint pollutant params) no_options.
End Operations.

End Api.

(* ================================================================== *)
(** * Numbers with a fraction: readings, averages, [toFixed(1)] *)
(* ================================================================== *)

Module Num.

(** A double: a finite rational, an infinity or NaN.  Arithmetic on finite
    values is exact, so a result stands for the double nearest to it. *)
Inductive number : Type :=
| Finite (q : Q)
| Infinity
| NegInfinity
| NaN.

Definition Qlt_bool (a b : Q) : bool := negb (Qle_bool b a).

Definition sub (a b : Q) : number := Finite (a - b)%Q.

(** [a / b] for finite operands. *)
Definition div (a : number) (b : Q) : number :=
  match a with
  | Finite x =>
      if Qeq_bool b 0 then
        (if Qlt_bool 0 x then Infinity
         else if Qlt_bool x 0 then NegInfinity else NaN)
      else Finite (x / b)%Q
  | Infinity => if Qlt_bool b 0 then NegInfinity else Infinity
  | NegInfinity => if Qlt_bool b 0 then Infinity else NegInfinity
  | NaN => NaN
  end.

(** [a * k] for a positive constant [k]. *)
Definition scale (a : number) (k : Q) : number :=
  match a with
  | Finite x => Finite (x * k)%Q
  | other => other
  end.

(** The relational operators; every comparison with NaN is false. *)
Definition lt (a b : number) : bool :=
  match a, b with
  | NaN, _ | _, NaN => false
  | Finite x, Finite y => Qlt_bool x y
  | NegInfinity, NegInfinity => false
  | NegInfinity, _ => true
  | _, Infinity => match a with Infinity => false | _ => true end
  | _, _ => false
  end.

Definition gt (a b : number) : bool := lt b a.

(** [a <= b]: false when an operand is NaN, and otherwise the negation of
    [b < a]. *)
Definition le (a b : number) : bool :=
  match a, b with
  | NaN, _ | _, NaN => false
  | _, _ => negb (lt b a)
  end.

(** The result of [toFixed(1)]: a sign and a count of tenths, or the name of
    a non-finite value. *)
Inductive fixed : Type :=
| Digits (negative : bool) (tenths : Z)
| Name (n : number).

(** Number.prototype.toFixed with one fraction digit: the sign is set aside,
    then the nearest count of tenths is taken, the larger one on a tie. *)
Definition toFixed1 (x : number) : fixed :=
  match x with
  | Finite q =>
      let negative := Qlt_bool q 0 in
      let a := if negative then (- q)%Q else q in
      Digits negative (Qfloor (a * 10 + (1 # 2))%Q)
  | other => Name other
  end.

(** The string a [fixed] prints as. *)
Definition fixed_string (f : fixed) : string :=
  match f with
  | Digits negative n =>
      (if negative then "-" else "")
      ++ JS.string_of_Z (n / 10) ++ "." ++ JS.string_of_Z (n mod 10)
  | Name Infinity => "Infinity"
  | Name NegInfinity => "-Infinity"
  | Name _ => "NaN"
  end.

(** ToNumber of that string, as the relational operators apply it to a
    string operand. *)
Definition fixed_number (f : fixed) : number :=
  match f with
  | Digits negative n =>
      Finite (if negative then (- (n # 10))%Q else (n # 10)%Q)
  | Name n => n
  end.

Fixpoint sum (values : list Q) : Q :=
  match values with
  | [] => 0%Q
  | v :: rest => (v + sum rest)%Q
  end.

Definition Qmax (a b : Q) : Q := if Qle_bool a b then b else a.
Definition Qmin (a b : Q) : Q := if Qle_bool a b then a else b.

(** [Math.max(...values)] and [Math.min(...values)] on a non-empty list. *)
Definition maximum (first : Q) (rest : list Q) : Q := fold_left Qmax rest first.
Definition minimum (first : Q) (rest : list Q) : Q := fold_left Qmin rest first.

Definition average (values : list Q) : number :=
  div (Finite (sum values)) (inject_Z (Z.of_nat (List.length values))).

(** ** Rounding to a double *)

(** [2^e] for an integer [e]. *)
Definition pow2 (e : Z) : Q :=
  if 0 <=? e then inject_Z (2 ^ e) else 1 # Z.to_pos (2 ^ (- e)).

(** The integer [e] with [2^e <= n/d < 2^(e+1)]. *)
Definition log2_floor (n d : positive) : Z :=
  let e := Z.log2 (Zpos n) - Z.log2 (Zpos d) in
  if Qle_bool (pow2 e) (Zpos n # d) then e else e - 1.

(** The integer nearest to [x >= 0], the even one on a tie. *)
Definition round_half_even (x : Q) : Z :=
  let f := Qfloor x in
  match ((x - inject_Z f) ?= (1 # 2))%Q with
  | Lt => f
  | Gt => f + 1
  | Eq => if Z.even f then f else f + 1
  end.

(** The binary64 value nearest to a rational (round to nearest, ties to
    even): 53 significant bits, the least exponent of a bit -1074, and an
    infinity from [2^1024] on. *)
Definition round_double (q : Q) : number :=
  if Qeq_bool q 0 then Finite 0
  else
    let a := Qabs q in
    let e := log2_floor (Z.to_pos (Qnum a)) (Qden a) in
    let u := Z.max (e - 52) (-1074) in
    let r := (inject_Z (round_half_even (a / pow2 u)) * pow2 u)%Q in
    if Qle_bool (pow2 1024) r
    then (if Qlt_bool q 0 then NegInfinity else Infinity)
    else Finite (Qred (if Qlt_bool q 0 then - r else r)).

(** ** ToNumber of a string *)

(** The rest of [s] after a leading StrWhiteSpaceChar (white space or line
    terminator, in UTF-8), if [s] starts with one. *)
Definition space_prefix (s : string) : option string :=
  match s with
  | EmptyString => None
  | String c1 rest1 =>
      let n1 := N_of_ascii c1 in
      if (((9 <=? n1) && (n1 <=? 13)) || (n1 =? 32))%N then Some rest1
      else
        match rest1 with
        | EmptyString => None
        | String c2 rest2 =>
            let n2 := N_of_ascii c2 in
            if ((n1 =? 194) && (n2 =? 160))%N then Some rest2
            else
              match rest2 with
              | EmptyString => None
              | String c3 rest3 =>
                  let n3 := N_of_ascii c3 in
                  if ((n1 =? 225) && (n2 =? 154) && (n3 =? 128))%N
                  then Some rest3
                  else if ((n1 =? 226) && (n2 =? 128)
                           && (((128 <=? n3) && (n3 <=? 138)) || (n3 =? 168)
                               || (n3 =? 169) || (n3 =? 175)))%N
                  then Some rest3
                  else if ((n1 =? 226) && (n2 =? 129) && (n3 =? 159))%N
                  then Some rest3
                  else if ((n1 =? 227) && (n2 =? 128) && (n3 =? 128))%N
                  then Some rest3
                  else if ((n1 =? 239) && (n2 =? 187) && (n3 =? 191))%N
                  then Some rest3
                  else None
              end
        end
  end.

Fixpoint skip_spaces (fuel : nat) (s : string) : string :=
  match fuel with
  | O => s
  | S fuel' =>
      match space_prefix s with
      | Some rest => skip_spaces fuel' rest
      | None => s
      end
  end.

Definition trim_start (s : string) : string := skip_spaces (String.length s) s.

Fixpoint trim_end (s : string) : string :=
  match s with
  | EmptyString => ""
  | String c rest =>
      if (trim_start s =? "")%string then "" else String c (trim_end rest)
  end.

(** The value of [c] as a digit of the radix, if it is one. *)
Definition digit_in (radix : Z) (c : ascii) : option Z :=
  let n := Z.of_N (N_of_ascii c) in
  let d := if (48 <=? n) && (n <=? 57) then n - 48
           else if (97 <=? n) && (n <=? 102) then n - 87
           else if (65 <=? n) && (n <=? 70) then n - 55
           else radix in
  if d <? radix then Some d else None.

(** The leading digits of [s]: their value after [acc], their count after
    [count], and the rest of [s]. *)
Fixpoint digits_of (radix : Z) (s : string) (acc : Z) (count : Z)
  : Z * Z * string :=
  match s with
  | EmptyString => (acc, count, s)
  | String c rest =>
      match digit_in radix c with
      | Some d => digits_of radix rest (acc * radix + d) (count + 1)
      | None => (acc, count, s)
      end
  end.

(** [mantissa * 10^exponent], rounded; [digits] bounds the length of the
    mantissa. *)
Definition decimal_value (negative : bool) (mantissa digits exponent : Z)
  : number :=
  if mantissa =? 0 then Finite 0
  else if 400 <? exponent then (if negative then NegInfinity else Infinity)
  else if exponent + digits <? -400 then Finite 0
  else
    let magnitude :=
      if 0 <=? exponent then inject_Z (mantissa * 10 ^ exponent)
      else (mantissa # Z.to_pos (10 ^ (- exponent))) in
    round_double (if negative then (- magnitude)%Q else magnitude).

(** An ExponentPart, or nothing, up to the end of the string. *)
Definition exponent_part (s : string) : option Z :=
  match s with
  | EmptyString => Some 0
  | String c rest =>
      if Ascii.eqb c "e" || Ascii.eqb c "E" then
        let '(negative, rest') :=
          match rest with
          | String "-" r => (true, r)
          | String "+" r => (false, r)
          | _ => (false, rest)
          end in
        match digits_of 10 rest' 0 0 with
        | (e, count, EmptyString) =>
            if 0 <? count then Some (if negative then - e else e) else None
        | _ => None
        end
      else None
  end.

(** A StrUnsignedDecimalLiteral other than [Infinity]. *)
Definition unsigned_decimal (negative : bool) (s : string) : number :=
  let '(int, int_count, rest) := digits_of 10 s 0 0 in
  let '(mantissa, frac_count, rest') :=
    match rest with
    | String "." r => digits_of 10 r int 0
    | _ => (int, 0, rest)
    end in
  if int_count + frac_count <? 1 then NaN
  else
    match exponent_part rest' with
    | Some e =>
        decimal_value negative mantissa (int_count + frac_count) (e - frac_count)
    | None => NaN
    end.

Definition non_decimal (radix : Z) (digits : string) : number :=
  match digits_of radix digits 0 0 with
  | (n, count, EmptyString) =>
      if 0 <? count then round_double (inject_Z n) else NaN
  | _ => NaN
  end.

(** StringToNumber: the string is trimmed, then read as a
    StrNumericLiteral; what is not one is NaN. *)
Definition StringToNumber (s : string) : number :=
  let t := trim_end (trim_start s) in
  match t with
  | EmptyString => Finite 0
  | String "0" (String "x" d) | String "0" (String "X" d) => non_decimal 16 d
  | String "0" (String "o" d) | String "0" (String "O" d) => non_decimal 8 d
  | String "0" (String "b" d) | String "0" (String "B" d) => non_decimal 2 d
  | String "-" rest =>
      if (rest =? "Infinity")%string then NegInfinity
      else unsigned_decimal true rest
  | String "+" rest =>
      if (rest =? "Infinity")%string then Infinity
      else unsigned_decimal false rest
  | _ =>
      if (t =? "Infinity")%string then Infinity else unsigned_decimal false t
  end.

End Num.

(* ================================================================== *)
(** * The charts module: [analyzeTrend] *)
(* ================================================================== *)

Module Charts.
Import Num.

(** One point of a trend series, [{annee, value}]; [value] may be null. *)
Record TrendPoint : Type := mkPoint {
  tp_annee : Z;
  tp_value : option Q
}.

Definition insufficient : string := "Données insuffisantes pour l'analyse.".

(** [trendData.filter(d => d.value != null).map(d => d.value)]. *)
Fixpoint non_null_values (trendData : list TrendPoint) : list Q :=
  match trendData with
  | [] => []
  | d :: rest =>
      match tp_value d with
      | Some v => v :: non_null_values rest
      | None => non_null_values rest
      end
  end.

(** The display name; [pollutant] itself when the table has no entry. *)
Definition pollutantName (pollutant : string) : string :=
  if (pollutant =? "no2")%string then "Dioxyde d'azote (NO₂)"
  else if (pollutant =? "pm10")%string then "Particules PM10"
  else if (pollutant =? "pm25")%string then "Particules fines PM2.5"
  else if (pollutant =? "o3")%string then "Ozone (O₃)"
  else pollutant.

(** [((lastValue - firstValue) / firstValue * 100).toFixed(1)]. *)
Definition percent_change (firstValue lastValue : Q) : fixed :=
  toFixed1 (scale (div (sub lastValue firstValue) firstValue) 100).

(** The branch of the [if] chain that [change] selects. *)
Inductive TrendClass : Type :=
| SignificantDown
| SlightDown
| ConcerningUp
| SlightUp
| Stable.

Definition ten : number := Finite 10.
Definition minus_ten : number := Finite (-10).
Definition zero : number := Finite 0.

Definition classify (change : fixed) : TrendClass :=
  let c := fixed_number change in
  if lt c minus_ten then SignificantDown
  else if lt c zero then SlightDown
  else if gt c ten then ConcerningUp
  else if gt c zero then SlightUp
  else Stable.

Definition trend_text (class : TrendClass) (change : fixed) : string :=
  match class with
  | SignificantDown =>
      "📉 Tendance à la baisse significative (" ++ fixed_string change ++ "%)"
  | SlightDown =>
      "📉 Légère tendance à la baisse (" ++ fixed_string change ++ "%)"
  | ConcerningUp =>
      "📈 Tendance à la hausse préoccupante (+" ++ fixed_string change ++ "%)"
  | SlightUp =>
      "📈 Légère tendance à la hausse (+" ++ fixed_string change ++ "%)"
  | Stable => "➡️ Concentration stable"
  end.

Definition nl : string := String (ascii_of_nat 10) "".

Definition last_of (first : Q) (rest : list Q) : Q := List.last rest first.

Definition analyzeTrend (trendData : list TrendPoint) (pollutant : string) : string :=
  if (Z.of_nat (List.length trendData) <? 2) then insufficient
  else
    match non_null_values trendData with
    | firstValue :: (_ :: _) as rest =>
        let values := firstValue :: rest in
        let lastValue := last_of firstValue rest in
        let change := percent_change firstValue lastValue in
        let avg := toFixed1 (average values) in
        let max := toFixed1 (Finite (maximum firstValue rest)) in
        let min := toFixed1 (Finite (minimum firstValue rest)) in
        let trend := trend_text (classify change) change in
        "**" ++ pollutantName pollutant ++ "**" ++ nl
        ++ nl
        ++ trend ++ nl
        ++ nl
        ++ "• Moyenne sur la période : " ++ fixed_string avg ++ " µg/m³" ++ nl
        ++ "• Valeur maximale : " ++ fixed_string max ++ " µg/m³  " ++ nl
        ++ "• Valeur minimale : " ++ fixed_string min ++ " µg/m³" ++ nl
        ++ "• Évolution : de " ++ fixed_string (toFixed1 (Finite firstValue))
        ++ " à " ++ fixed_string (toFixed1 (Finite lastValue)) ++ " µg/m³"
    | _ => insufficient
    end.

End Charts.

(* ================================================================== *)
(** * The application controller *)
(* ================================================================== *)

Module App.
Import JS.

(** ** Application state *)

(** A record of the backend, with the columns of its table: one commune and
    year, its readings (null when not measured) and its optional
    coordinates. *)
Record AirRecord : Type := mkRecord {
  rec_id : Z;
  rec_commune : string;
  rec_region : string;
  rec_annee : Z;
  rec_no2 : option Q;
  rec_pm10 : option Q;
  rec_pm25 : option Q;
  rec_o3 : option Q;
  rec_somo35 : option Q;
  rec_aot40 : option Q;
  rec_latitude : option Q;
  rec_longitude : option Q
}.

Record Pagination : Type := mkPagination {
  page : Z;
  pageSize : Z;
  total : Z
}.

Record Filters : Type := mkFilters {
  region : string;
  year : string;
  commune : string
}.

Record Summary : Type := mkSummary {
  total_records : Z;
  total_communes : Z;
  total_regions : Z
}.

(** A circle marker put on the map: where, in which colour, for which
    record and pollutant (the content of its popup). *)
Record Marker : Type := mkMarker {
  marker_latitude : Q;
  marker_longitude : Q;
  fillColor : string;
  marker_record : AirRecord;
  marker_pollutant : string
}.

(** [AppState]; [leaflet_map] tells whether [AppState.map] is set. *)
Record AppState : Type := mkAppState {
  currentPage : string;
  data : list AirRecord;
  regions : list string;
  years : list Z;
  summary : option Summary;
  pagination : Pagination;
  filters : Filters;
  leaflet_map : bool;
  mapMarkers : list Marker
}.

Definition initial_state : AppState :=
  mkAppState "dashboard" [] [] [] None
             (mkPagination 1 20 0) (mkFilters "" "" "") false [].

(** Assignments to single fields. *)
Definition set_currentPage (p : string) (s : AppState) : AppState :=
  mkAppState p (data s) (regions s) (years s) (summary s)
             (pagination s) (filters s) (leaflet_map s) (mapMarkers s).

Definition set_data (d : list AirRecord) (s : AppState) : AppState :=
  mkAppState (currentPage s) d (regions s) (years s) (summary s)
             (pagination s) (filters s) (leaflet_map s) (mapMarkers s).

Definition set_reference (r : list string) (y : list Z) (sm : Summary)
                         (s : AppState) : AppState :=
  mkAppState (currentPage s) (data s) r y (Some sm)
             (pagination s) (filters s) (leaflet_map s) (mapMarkers s).

Definition set_pagination (p : Pagination) (s : AppState) : AppState :=
  mkAppState (currentPage s) (data s) (regions s) (years s) (summary s)
             p (filters s) (leaflet_map s) (mapMarkers s).

Definition set_page (n : Z) (s : AppState) : AppState :=
  set_pagination
    (mkPagination n (pageSize (pagination s)) (total (pagination s))) s.

Definition set_total (n : Z) (s : AppState) : AppState :=
  set_pagination
    (mkPagination (page (pagination s)) (pageSize (pagination s)) n) s.

Definition set_filters (f : Filters) (s : AppState) : AppState :=
  mkAppState (currentPage s) (data s) (regions s) (years s) (summary s)
             (pagination s) f (leaflet_map s) (mapMarkers s).

Definition set_filter_region (v : string) (s : AppState) : AppState :=
  set_filters (mkFilters v (year (filters s)) (commune (filters s))) s.

Definition set_filter_year (v : string) (s : AppState) : AppState :=
  set_filters (mkFilters (region (filters s)) v (commune (filters s))) s.

Definition set_filter_commune (v : string) (s : AppState) : AppState :=
  set_filters (mkFilters (region (filters s)) (year (filters s)) v) s.

Definition set_map (s : AppState) : AppState :=
  mkAppState (currentPage s) (data s) (regions s) (years s) (summary s)
             (pagination s) (filters s) true (mapMarkers s).

Definition set_mapMarkers (m : list Marker) (s : AppState) : AppState :=
  mkAppState (currentPage s) (data s) (regions s) (years s) (summary s)
             (pagination s) (filters s) (leaflet_map s) m.

(** ** Requests in flight and effects *)

(** What runs after [await loadRecords()] in the caller. *)
Inductive Cont : Type :=
| KNone              (* nothing: refresh, pagination, data page *)
| KDashboardFilter   (* the dashboard filter handlers *)
| KInitialData       (* loadInitialData *)
| KDelete.           (* handleDeleteRecord *)

(** A suspended [await]: which call is pending and on which endpoint. *)
Inductive Pending : Type :=
| PHealth
| PMetadata
| PRecords (endpoint : string) (k : Cont)
| PDelete (endpoint : string)
| PTrend (endpoint : string) (pollutant : string).

(** The body of a successful reply of [GET /records]. *)
Record RecordsResult : Type := mkResult {
  result_data : list AirRecord;
  result_total : Z
}.

(** What the awaited call settles to.  The three metadata calls joined by
    [Promise.all] are delivered together. *)
Inductive Reply : Type :=
| HealthReply (healthy : bool)
| MetadataReply (regionsData : exn + list string) (yearsData : exn + list Z)
                (summaryData : exn + Summary)
| RecordsReply (r : exn + RecordsResult)
| DeleteReply (r : exn + unit)
| TrendReply (r : exn + list Charts.TrendPoint).

Inductive TableRow : Type :=
| NoDataRow
| DataRow (record : AirRecord).

(** Observable effects, in the order they happen. *)
Inductive Effect : Type :=
| Fetch (endpoint : string) (options : Api.Options)
| ConsoleLog (text : string)
| ConsoleError (label : string) (error : exn)
| Toast (message : string) (type : string)
| ApiStatus (className : string) (text : string)
| DataTable (rows : list TableRow)
| PaginationInfo (text : string) (prev_disabled next_disabled : bool)
| DashboardStats (no2 pm10 pm25 o3 : string) (summary : option Summary)
| EvolutionChart (canvas : string) (data : list AirRecord)
| RegionsChart (canvas : string) (data : list AirRecord)
| TrendChart (canvas : string) (data : list Charts.TrendPoint) (pollutant : string)
| TrendAnalysis (analysis : string)
| MapCreated
| MapMarkers (markers : list Marker)
| FilterOptions (regions : list string) (years : list Z).

Record World : Type := mkWorld {
  app : AppState;
  inflight : list Pending;
  trace : list Effect
}.

(** ** A state monad over the world *)

Definition M (A : Type) : Type := World -> A * World.

Definition ret {A : Type} (a : A) : M A := fun w => (a, w).

Definition bind {A B : Type} (m : M A) (f : A -> M B) : M B :=
  fun w => let (a, w') := m w in f a w'.

Notation "x <- m ;; k" := (bind m (fun x => k))
  (at level 61, m at next level, right associativity).
Notation "m ;; k" := (bind m (fun _ => k))
  (at level 61, right associativity).

Definition get : M AppState := fun w => (app w, w).

Definition modify (f : AppState -> AppState) : M unit :=
  fun w => (tt, mkWorld (f (app w)) (inflight w) (trace w)).

Definition emit (e : Effect) : M unit :=
  fun w => (tt, mkWorld (app w) (inflight w) (trace w ++ [e])%list).

(** Suspend on a request: it joins the requests in flight, last. *)
Definition await (p : Pending) : M unit :=
  fun w => (tt, mkWorld (app w) (inflight w ++ [p])%list (trace w)).

Definition exec {A : Type} (m : M A) (w : World) : World := snd (m w).

(** How an [async] function completes. *)
Inductive completion : Type :=
| Normal
| Throw (e : exn).

(** ** Utilities and renderers *)

(** [showToast] adds the toast; the timers that fade and remove it three
    seconds later touch nothing else and are left out. *)
Definition showToast (message type : string) : M unit :=
  emit (Toast message type).

Definition showLoading (show : bool) : M unit :=
  emit (ConsoleLog (if show then "Loading..." else "Done loading")).

(** [values.length ? (sum / values.length).toFixed(1) : '--'] over the
    non-null readings [d[key]]. *)
Definition calcAvg (arr : list AirRecord) (key : AirRecord -> option Q) : string :=
  let values :=
    flat_map (fun d => match key d with Some v => [v] | None => [] end) arr in
  match values with
  | [] => "--"
  | _ :: _ => Num.fixed_string (Num.toFixed1 (Num.average values))
  end.

(** What [updateDashboardStats] writes in the stat cards. *)
Definition dashboard_stats (s : AppState) : Effect :=
  DashboardStats (calcAvg (data s) rec_no2) (calcAvg (data s) rec_pm10)
                 (calcAvg (data s) rec_pm25) (calcAvg (data s) rec_o3)
                 (summary s).

Definition updateDashboardStats : M unit :=
  s <- get ;;
  emit (dashboard_stats s).

Definition createDashboardCharts : M unit :=
  s <- get ;;
  match data s with
  | [] => ret tt
  | _ :: _ =>
      emit (EvolutionChart "chart-evolution" (data s)) ;;
      emit (RegionsChart "chart-regions" (data s))
  end.

Definition table_rows (d : list AirRecord) : list TableRow :=
  match d with
  | [] => [NoDataRow]
  | _ :: _ => List.map DataRow d
  end.

Definition updateDataTable : M unit :=
  s <- get ;;
  emit (DataTable (table_rows (data s))).

(** [Math.ceil(a / b)] for a positive [b]. *)
Definition ceil_div (a b : Z) : Z := - ((- a) / b).

(** [Math.ceil(AppState.pagination.total / AppState.pagination.pageSize)]. *)
Definition maxPage (s : AppState) : Z :=
  ceil_div (total (pagination s)) (pageSize (pagination s)).

(** What [updatePaginationInfo] writes: the text, and whether the two
    buttons are disabled.  [maxPage] is [Math.ceil(...) || 1]. *)
Definition pagination_info (s : AppState) : Effect :=
  let maxPage := if maxPage s =? 0 then 1 else maxPage s in
  let p := page (pagination s) in
  PaginationInfo
    ("Page " ++ string_of_Z p ++ " / " ++ string_of_Z maxPage
     ++ " (" ++ string_of_Z (total (pagination s)) ++ " résultats)")
    (p <=? 1) (maxPage <=? p).

Definition updatePaginationInfo : M unit :=
  s <- get ;;
  emit (pagination_info s).

Definition populateFilters : M unit :=
  s <- get ;;
  emit (FilterOptions (regions s) (years s)).

(** ** The map *)

Definition green : string := "#22c55e".
Definition yellow : string := "#f59e0b".
Definition red : string := "#ef4444".

Record Thresholds : Type := mkThresholds {
  low : Z;
  high : Z
}.

(** The own properties of the [thresholds] literal. *)
Definition thresholds (pollutant : string) : option Thresholds :=
  if (pollutant =? "no2")%string then Some (mkThresholds 20 40)
  else if (pollutant =? "pm10")%string then Some (mkThresholds 15 45)
  else if (pollutant =? "pm25")%string then Some (mkThresholds 10 25)
  else if (pollutant =? "o3")%string then Some (mkThresholds 60 100)
  else None.

(** Names that every object literal inherits from [Object.prototype]: for
    them [thresholds[pollutant]] is a truthy value without [low] or [high]. *)
Definition object_prototype_keys : list string :=
  [ "constructor"; "toString"; "toLocaleString"; "valueOf"; "hasOwnProperty";
    "isPrototypeOf"; "propertyIsEnumerable"; "__proto__"; "__defineGetter__";
    "__defineSetter__"; "__lookupGetter__"; "__lookupSetter__" ].

Definition inherited (key : string) : bool :=
  existsb (String.eqb key) object_prototype_keys.

Definition color_for (value : Q) (t : Thresholds) : string :=
  if Qle_bool value (inject_Z (low t)) then green
  else if Qle_bool value (inject_Z (high t)) then yellow
  else red.

Definition getColorForValue (value : Q) (pollutant : string) : string :=
  match thresholds pollutant with
  | Some t => color_for value t
  | None =>
      if inherited pollutant then red      (* both comparisons with undefined fail *)
      else color_for value (mkThresholds 20 40)
  end.

(** The values read from the select elements of the map page: the pollutant
    name, and the year, [None] for the first, empty option. *)
Record MapSelects : Type := mkMapSelects {
  map_pollutant : string;
  map_year : option Z
}.

Record TrendSelects : Type := mkTrendSelects {
  trend_pollutant : string;
  trend_region : string
}.

(** What [record[key]] evaluates to: a number, a string, [null] for a
    reading or coordinate that is missing, [undefined] for a name that is
    no column, and for a name of [Object.prototype] the inherited member (a
    function or an object). *)
Inductive Field : Type :=
| FNumber (q : Q)
| FString (s : string)
| FNull
| FUndefined
| FMember.

Definition of_column (x : option Q) : Field :=
  match x with
  | Some q => FNumber q
  | None => FNull
  end.

Definition record_get (record : AirRecord) (key : string) : Field :=
  if (key =? "id")%string then FNumber (inject_Z (rec_id record))
  else if (key =? "commune")%string then FString (rec_commune record)
  else if (key =? "region")%string then FString (rec_region record)
  else if (key =? "annee")%string then FNumber (inject_Z (rec_annee record))
  else if (key =? "no2")%string then of_column (rec_no2 record)
  else if (key =? "pm10")%string then of_column (rec_pm10 record)
  else if (key =? "pm25")%string then of_column (rec_pm25 record)
  else if (key =? "o3")%string then of_column (rec_o3 record)
  else if (key =? "somo35")%string then of_column (rec_somo35 record)
  else if (key =? "aot40")%string then of_column (rec_aot40 record)
  else if (key =? "latitude")%string then of_column (rec_latitude record)
  else if (key =? "longitude")%string then of_column (rec_longitude record)
  else if inherited key then FMember
  else FUndefined.

Definition nonzero (q : Q) : bool := negb (Qeq_bool q 0).

(** ToBoolean. *)
Definition field_truthy (value : Field) : bool :=
  match value with
  | FNumber q => nonzero q
  | FString s => negb (s =? "")%string
  | FMember => true
  | FNull | FUndefined => false
  end.

(** [value <= limit]: the value is converted to a number; [null] is 0, and
    [undefined], a function and an object are NaN. *)
Definition at_most (value : Field) (limit : Z) : bool :=
  match value with
  | FNumber q => Qle_bool q (inject_Z limit)
  | FString s => Num.le (Num.StringToNumber s) (Num.Finite (inject_Z limit))
  | FNull => 0 <=? limit
  | FUndefined | FMember => false
  end.

(** [getColorForValue] on whatever [record[pollutant]] holds. *)
Definition getColorForField (value : Field) (pollutant : string) : string :=
  let color (t : Thresholds) :=
    if at_most value (low t) then green
    else if at_most value (high t) then yellow
    else red in
  match thresholds pollutant with
  | Some t => color t
  | None =>
      if inherited pollutant then red
      else color (mkThresholds 20 40)
  end.

Definition marker_for (pollutant : string) (record : AirRecord) : list Marker :=
  match rec_latitude record, rec_longitude record with
  | Some lat, Some lng =>
      let value := record_get record pollutant in
      if nonzero lat && nonzero lng && field_truthy value
      then [mkMarker lat lng (getColorForField value pollutant) record pollutant]
      else []
  | _, _ => []
  end.

Definition updateMapMarkers (sel : MapSelects) : M unit :=
  s <- get ;;
  if negb (leaflet_map s) then ret tt
  else
    modify (set_mapMarkers []) ;;
    let pollutant :=
      if (map_pollutant sel =? "")%string then "no2" else map_pollutant sel in
    let filteredData :=
      match map_year sel with
      | Some yearFilter => List.filter (fun d => rec_annee d =? yearFilter) (data s)
      | None => data s
      end in
    let markers := flat_map (marker_for pollutant) filteredData in
    modify (set_mapMarkers markers) ;;
    emit (MapMarkers markers).

Definition initializeMap (sel : MapSelects) : M unit :=
  s <- get ;;
  if leaflet_map s then ret tt
  else
    modify set_map ;;
    emit MapCreated ;;
    updateMapMarkers sel.

(** ** Loading records *)

(** The argument object that [loadRecords] passes to [getRecords]. *)
Definition records_params (s : AppState) : obj :=
  [ ("region", VStr (region (filters s)));
    ("annee", VStr (year (filters s)));
    ("commune", VStr (commune (filters s)));
    ("page", VNum (page (pagination s)));
    ("page_size", VNum (pageSize (pagination s))) ].

(** [loadRecords] up to its [await]: the request is built from the state as
    it is now and goes in flight; [k] is what the caller does afterwards. *)
Definition loadRecords (k : Cont) : M unit :=
  s <- get ;;
  let endpoint := Api.getRecords_endpoint (records_params s) in
  emit (Fetch endpoint Api.no_options) ;;
  await (PRecords endpoint k).

(** The rest of the [try] block, once the awaited call has settled. *)
Definition loadRecords_try (reply : exn + RecordsResult) : M (exn + unit) :=
  match reply with
  | inl error => ret (inl error)
  | inr result =>
      modify (set_data (result_data result)) ;;
      modify (set_total (result_total result)) ;;
      updateDataTable ;;
      updatePaginationInfo ;;
      ret (inr tt)
  end.

(** [loadRecords] from its [await] on, with the [catch] clause. *)
Definition loadRecords_resumed (reply : exn + RecordsResult) : M completion :=
  r <- loadRecords_try reply ;;
  match r with
  | inr _ => ret Normal
  | inl error =>
      emit (ConsoleError "Error loading records:" error) ;;
      showToast "Erreur lors du chargement des enregistrements" "error" ;;
      ret Normal
  end.

(** The caller of [loadRecords], after its own [await]. *)
Definition after_loadRecords (k : Cont) (c : completion) : M unit :=
  match c, k with
  | Normal, KNone => ret tt
  | Normal, KDashboardFilter => updateDashboardStats ;; createDashboardCharts
  | Normal, KInitialData =>
      updateDashboardStats ;;
      createDashboardCharts ;;
      showLoading false ;;
      emit (ConsoleLog "✅ Dashboard initialized")
  | Throw error, KInitialData =>
      emit (ConsoleError "Error loading initial data:" error) ;;
      showToast "Erreur lors du chargement des données" "error" ;;
      showLoading false ;;
      emit (ConsoleLog "✅ Dashboard initialized")
  | Normal, KDelete => ret tt
  | Throw error, KDelete =>
      emit (ConsoleError "Error deleting record:" error) ;;
      showToast "Erreur lors de la suppression" "error"
  | Throw _, _ => ret tt
  end.

(** The line [apiFetch] logs before it rethrows. *)
Definition apiFetch_log {A : Type} (endpoint : string) (r : exn + A) : M unit :=
  match r with
  | inl error => emit (ConsoleError ("API Error [" ++ endpoint ++ "]:") error)
  | inr _ => ret tt
  end.

(** ** Event handlers *)

(** The four listeners that [setupFilters] registers on the filter fields.
    The commune listener is the debounced function: the event is its call,
    once the quiet period has passed. *)
Definition on_filter_region_change (value : string) : M unit :=
  modify (set_filter_region value) ;;
  modify (set_page 1) ;;
  loadRecords KDashboardFilter.

Definition on_filter_year_change (value : string) : M unit :=
  modify (set_filter_year value) ;;
  modify (set_page 1) ;;
  loadRecords KDashboardFilter.

Definition on_data_region_change (value : string) : M unit :=
  modify (set_filter_region value) ;;
  modify (set_page 1) ;;
  loadRecords KNone.

Definition on_search_commune_input (value : string) : M unit :=
  modify (set_filter_commune value) ;;
  modify (set_page 1) ;;
  loadRecords KNone.

(** The listeners of [setupPagination]. *)
Definition on_btn_prev_click : M unit :=
  s <- get ;;
  if 1 <? page (pagination s) then
    modify (set_page (page (pagination s) - 1)) ;;
    loadRecords KNone
  else ret tt.

Definition on_btn_next_click : M unit :=
  s <- get ;;
  let maxPage := maxPage s in
  if page (pagination s) <? maxPage then
    modify (set_page (page (pagination s) + 1)) ;;
    loadRecords KNone
  else ret tt.

(** [loadTrendData] up to its [await]. *)
Definition loadTrendData (sel : TrendSelects) : M unit :=
  let pollutant :=
    if (trend_pollutant sel =? "")%string then "no2" else trend_pollutant sel in
  let region := trend_region sel in
  let endpoint :=
    Api.getPollutantTrend_endpoint (VStr pollutant) [("region", VStr region)] in
  emit (Fetch endpoint Api.no_options) ;;
  await (PTrend endpoint pollutant).

Definition loadTrendData_resumed (pollutant : string)
    (reply : exn + list Charts.TrendPoint) : M unit :=
  match reply with
  | inr result_data =>
      emit (TrendChart "chart-trend" result_data pollutant) ;;
      emit (TrendAnalysis (Charts.analyzeTrend result_data pollutant))
  | inl error =>
      emit (ConsoleError "Error loading trend data:" error) ;;
      showToast "Erreur lors du chargement des tendances" "error"
  end.

Definition navigateTo (page : string) (m : MapSelects) (t : TrendSelects) : M unit :=
  modify (set_currentPage page) ;;
  if (page =? "map")%string then initializeMap m
  else if (page =? "trends")%string then loadTrendData t
  else ret tt.

(** [handleDeleteRecord] up to its [await]; [confirmed] is the answer to
    the confirmation dialog. *)
Definition handleDeleteRecord (id : Z) (confirmed : bool) : M unit :=
  if negb confirmed then ret tt
  else
    let endpoint := Api.deleteRecord_endpoint (VNum id) in
    emit (Fetch endpoint (Api.mkOptions (Some "DELETE") None None)) ;;
    await (PDelete endpoint).

Definition handleDeleteRecord_resumed (reply : exn + unit) : M unit :=
  match reply with
  | inr _ =>
      showToast "Enregistrement supprimé" "success" ;;
      loadRecords KDelete
  | inl error =>
      emit (ConsoleError "Error deleting record:" error) ;;
      showToast "Erreur lors de la suppression" "error"
  end.

(** ** Start-up *)

Definition checkApiStatus_resumed (isHealthy : bool) : M unit :=
  if isHealthy then emit (ApiStatus "status-dot connected" "API connectée")
  else
    emit (ApiStatus "status-dot error" "API déconnectée") ;;
    showToast "Impossible de se connecter à l'API" "error".

(** [loadInitialData] up to the [await] of [Promise.all]. *)
Definition loadInitialData : M unit :=
  showLoading true ;;
  emit (Fetch "/regions" Api.no_options) ;;
  emit (Fetch "/years" Api.no_options) ;;
  emit (Fetch "/summary" Api.no_options) ;;
  await PMetadata.

Definition loadInitialData_failed (error : exn) : M unit :=
  emit (ConsoleError "Error loading initial data:" error) ;;
  showToast "Erreur lors du chargement des données" "error" ;;
  showLoading false ;;
  emit (ConsoleLog "✅ Dashboard initialized").

Definition loadInitialData_resumed (regionsData : exn + list string)
    (yearsData : exn + list Z) (summaryData : exn + Summary) : M unit :=
  apiFetch_log "/regions" regionsData ;;
  apiFetch_log "/years" yearsData ;;
  apiFetch_log "/summary" summaryData ;;
  match regionsData, yearsData, summaryData with
  | inr r, inr y, inr sm =>
      modify (set_reference r y sm) ;;
      populateFilters ;;
      loadRecords KInitialData
  | inl error, _, _ => loadInitialData_failed error
  | _, inl error, _ => loadInitialData_failed error
  | _, _, inl error => loadInitialData_failed error
  end.

(** The world once the [DOMContentLoaded] listener has registered the
    handlers and waits for the health check. *)
Definition initial_world : World :=
  mkWorld initial_state [PHealth]
          [ConsoleLog "🌬️ Air Quality Dashboard initializing..."].

(** ** The event loop *)

Inductive FilterField : Type :=
| FilterRegion    (* #filter-region, dashboard *)
| FilterYear      (* #filter-year, dashboard *)
| DataRegion      (* #data-region, data page *)
| SearchCommune.  (* #search-commune, data page *)

Inductive Event : Type :=
| FilterChange (field : FilterField) (value : string)
| BtnRefresh
| BtnPrev
| BtnNext
| Navigate (page : string) (m : MapSelects) (t : TrendSelects)
| MapFilterChange (m : MapSelects)
| TrendFilterChange (t : TrendSelects)
| DeleteClick (id : Z) (confirmed : bool)
| Resolve (k : nat) (reply : Reply).

Definition filter_handler (field : FilterField) (value : string) : M unit :=
  match field with
  | FilterRegion => on_filter_region_change value
  | FilterYear => on_filter_year_change value
  | DataRegion => on_data_region_change value
  | SearchCommune => on_search_commune_input value
  end.

(** What resumes when the pending call [p] settles to [reply]; [None] when
    the reply is not one of that call. *)
Definition resume (p : Pending) (reply : Reply) : option (M unit) :=
  match p, reply with
  | PHealth, HealthReply isHealthy =>
      Some (checkApiStatus_resumed isHealthy ;; loadInitialData)
  | PMetadata, MetadataReply r y sm => Some (loadInitialData_resumed r y sm)
  | PRecords endpoint k, RecordsReply r =>
      Some (apiFetch_log endpoint r ;;
            c <- loadRecords_resumed r ;;
            after_loadRecords k c)
  | PDelete endpoint, DeleteReply r =>
      Some (apiFetch_log endpoint r ;; handleDeleteRecord_resumed r)
  | PTrend endpoint pollutant, TrendReply r =>
      Some (apiFetch_log endpoint r ;; loadTrendData_resumed pollutant r)
  | _, _ => None
  end.

Definition remove_nth {A : Type} (k : nat) (l : list A) : list A :=
  (firstn k l ++ skipn (S k) l)%list.

(** One turn of the event loop; [None] when the event cannot happen (no
    such request in flight). *)
Definition step (w : World) (e : Event) : option World :=
  match e with
  | FilterChange field value => Some (exec (filter_handler field value) w)
  | BtnRefresh => Some (exec (loadRecords KNone) w)
  | BtnPrev => Some (exec on_btn_prev_click w)
  | BtnNext => Some (exec on_btn_next_click w)
  | Navigate page m t => Some (exec (navigateTo page m t) w)
  | MapFilterChange m => Some (exec (updateMapMarkers m) w)
  | TrendFilterChange t => Some (exec (loadTrendData t) w)
  | DeleteClick id confirmed => Some (exec (handleDeleteRecord id confirmed) w)
  | Resolve k reply =>
      match nth_error (inflight w) k with
      | None => None
      | Some p =>
          match resume p reply with
          | None => None
          | Some m =>
              Some (exec m (mkWorld (app w) (remove_nth k (inflight w)) (trace w)))
          end
      end
  end.

Fixpoint run (w : World) (events : list Event) : option World :=
  match events with
  | [] => Some w
  | e :: rest =>
      match step w e with
      | None => None
      | Some w' => run w' rest
      end
  end.

(** The worlds the application can be in. *)
Inductive reachable : World -> Prop :=
| reachable_initial : reachable initial_world
| reachable_step : forall w e w',
    reachable w -> step w e = Some w' -> reachable w'.

(** The effects of a turn: what [w'] has recorded beyond [w]. *)
Definition new_effects (w w' : World) : list Effect :=
  skipn (List.length (trace w)) (trace w').

(** The rows last put in the data table, if any. *)
Fixpoint last_table (t : list Effect) : option (list TableRow) :=
  match t with
  | [] => None
  | e :: rest =>
      match last_table rest, e with
      | Some rows, _ => Some rows
      | None, DataTable rows => Some rows
      | None, _ => None
      end
  end.

(** The rendered Record Page of a run, if the run can happen. *)
Definition rendered_page (w : option World) : option (list TableRow) :=
  match w with
  | Some w' => last_table (trace w')
  | None => None
  end.

(** Which renderer an effect comes from. *)
Definition is_table (e : Effect) : bool :=
  match e with DataTable _ => true | _ => false end.

Definition is_pagination_info (e : Effect) : bool :=
  match e with PaginationInfo _ _ _ => true | _ => false end.

Definition is_stats (e : Effect) : bool :=
  match e with DashboardStats _ _ _ _ _ => true | _ => false end.

Definition is_chart (e : Effect) : bool :=
  match e with EvolutionChart _ _ | RegionsChart _ _ => true | _ => false end.

Definition is_markers (e : Effect) : bool :=
  match e with MapMarkers _ => true | _ => false end.

Definition is_filter_options (e : Effect) : bool :=
  match e with FilterOptions _ _ => true | _ => false end.

(** The two assignments that open the listener of [field], and what the
    listener does after [await loadRecords()]. *)
Definition filter_assignments (field : FilterField) (value : string)
    (s : AppState) : AppState :=
  set_page 1
    (match field with
     | FilterRegion | DataRegion => set_filter_region value s
     | FilterYear => set_filter_year value s
     | SearchCommune => set_filter_commune value s
     end).

Definition filter_cont (field : FilterField) : Cont :=
  match field with
  | FilterRegion | FilterYear => KDashboardFilter
  | DataRegion | SearchCommune => KNone
  end.

Definition is_dashboard_filter (field : FilterField) : bool :=
  match field with
  | FilterRegion | FilterYear => true
  | DataRegion | SearchCommune => false
  end.

(** The charts that [createDashboardCharts] draws in state [s]. *)
Definition dashboard_charts (s : AppState) : list Effect :=
  match data s with
  | [] => []
  | _ :: _ => [EvolutionChart "chart-evolution" (data s);
               RegionsChart "chart-regions" (data s)]
  end.

(** What the caller of [loadRecords] emits after it, in state [s], when
    [loadRecords] has completed normally. *)
Definition after_effects (k : Cont) (s : AppState) : list Effect :=
  match k with
  | KNone | KDelete => []
  | KDashboardFilter => dashboard_stats s :: dashboard_charts s
  | KInitialData =>
      (dashboard_stats s :: dashboard_charts s
       ++ [ConsoleLog "Done loading"; ConsoleLog "✅ Dashboard initialized"])%list
  end.

(** The state once a reply of [loadRecords] has been stored. *)
Definition store_result (r : RecordsResult) (s : AppState) : AppState :=
  set_total (result_total r) (set_data (result_data r) s).

(** What holds of the pagination cursor in every reachable world. *)
Definition cursor_ok (s : AppState) : Prop :=
  1 <= page (pagination s) /\ pageSize (pagination s) = 20.

(** A computation that keeps the cursor well formed. *)
Definition preserves {A : Type} (m : M A) : Prop :=
  forall w, cursor_ok (app w) -> cursor_ok (app (snd (m w))).

(** ** Data for the examples *)

Definition paris : AirRecord :=
  mkRecord 1 "Paris" "Île-de-France" 2021
           (Some 30%Q) (Some 22%Q) (Some 12%Q) (Some 48%Q) None None
           (Some (4886 # 100)) (Some (235 # 100)).

Definition rennes : AirRecord :=
  mkRecord 2 "Rennes" "Bretagne" 2021
           (Some 15%Q) (Some 14%Q) (Some 8%Q) (Some 55%Q) None None
           (Some (4811 # 100)) (Some (-168 # 100)).

Definition reply_idf : RecordsResult := mkResult [paris] 1.
Definition reply_bretagne : RecordsResult := mkResult [rennes] 1.

(** Start-up: the health check, the metadata and the first page arrive. *)
Definition startup : list Event :=
  [ Resolve 0 (HealthReply true);
    Resolve 0 (MetadataReply (inr ["Bretagne"; "Île-de-France"]) (inr [2021])
                             (inr (mkSummary 2 2 2)));
    Resolve 0 (RecordsReply (inr (mkResult [paris; rennes] 2))) ].

(** Two changes of the dashboard region filter whose replies arrive in the
    opposite order. *)
Definition race : list Event :=
  [ FilterChange FilterRegion "Île-de-France";
    FilterChange FilterRegion "Bretagne";
    Resolve 1 (RecordsReply (inr reply_bretagne));
    Resolve 0 (RecordsReply (inr reply_idf)) ].

Definition open_map : list Event :=
  [ Navigate "map" (mkMapSelects "no2" None) (mkTrendSelects "no2" "") ].

Definition search_rennes : list Event :=
  [ FilterChange SearchCommune "Ren";
    Resolve 0 (RecordsReply (inr reply_bretagne)) ].

Definition select_bretagne : list Event :=
  [ FilterChange FilterRegion "Bretagne";
    Resolve 0 (RecordsReply (inr reply_bretagne)) ].

(** The effects of the events [more] when they follow the events [before]
    from the initial world. *)
Definition effects_of (before more : list Event) : option (list Effect) :=
  match run initial_world before, run initial_world (before ++ more) with
  | Some w, Some w' => Some (new_effects w w')
  | _, _ => None
  end.

End App.

(* ================================================================== *)
(** * The receiving side of a request *)
(* ================================================================== *)

Module Server.

(** What a server does with what the client sends: it percent-decodes a
    path segment, and parses a query string as
    application/x-www-form-urlencoded (split at [&], skip empty pieces,
    split each piece at its first [=], turn [+] into a space, decode). *)

Definition hex_value (c : ascii) : N :=
  let n := N_of_ascii c in
  (if (48 <=? n) && (n <=? 57) then n - 48
   else if (65 <=? n) && (n <=? 70) then n - 55
   else if (97 <=? n) && (n <=? 102) then n - 87
   else 0)%N.

Definition is_hex (c : ascii) : bool :=
  let n := N_of_ascii c in
  (((48 <=? n) && (n <=? 57)) || ((65 <=? n) && (n <=? 70))
   || ((97 <=? n) && (n <=? 102)))%N.

Definition unhex (h l : ascii) : ascii :=
  ascii_of_N (16 * hex_value h + hex_value l).

(** A percent sign that two hexadecimal digits do not follow stands for
    itself. *)
Fixpoint percent_decode (s : string) : string :=
  match s with
  | EmptyString => ""
  | String c rest =>
      if Ascii.eqb c "%" then
        match rest with
        | String h (String l rest') =>
            if is_hex h && is_hex l
            then String (unhex h l) (percent_decode rest')
            else String c (percent_decode rest)
        | _ => String c (percent_decode rest)
        end
      else String c (percent_decode rest)
  end.

Fixpoint form_decode (s : string) : string :=
  match s with
  | EmptyString => ""
  | String c rest =>
      if Ascii.eqb c "%" then
        match rest with
        | String h (String l rest') =>
            if is_hex h && is_hex l
            then String (unhex h l) (form_decode rest')
            else String c (form_decode rest)
        | _ => String c (form_decode rest)
        end
      else if Ascii.eqb c "+" then String " " (form_decode rest)
      else String c (form_decode rest)
  end.

(** Does the character occur in the string? *)
Fixpoint occurs (c : ascii) (s : string) : bool :=
  match s with
  | EmptyString => false
  | String c' rest => Ascii.eqb c' c || occurs c rest
  end.

(** The pieces of [s] between the occurrences of [sep]. *)
Fixpoint split_on (sep : ascii) (s : string) : list string :=
  match s with
  | EmptyString => [""]
  | String c rest =>
      if Ascii.eqb c sep then "" :: split_on sep rest
      else
        match split_on sep rest with
        | piece :: pieces => String c piece :: pieces
        | [] => [String c ""]
        end
  end.

(** The parts of [s] before and after its first [sep]. *)
Fixpoint cut_at (sep : ascii) (s : string) : string * string :=
  match s with
  | EmptyString => ("", "")
  | String c rest =>
      if Ascii.eqb c sep then ("", rest)
      else let (before, after) := cut_at sep rest in (String c before, after)
  end.

(** The characters that separate the parts of a URL. *)
Definition delimiters : list ascii :=
  ["/"; "?"; "#"; "&"; "="; "+"; " "; ","; ":"; "@"]%char.

(** None of the delimiters occurs in [s]. *)
Definition delimiter_free (s : string) : bool :=
  forallb (fun d => negb (occurs d s)) delimiters.

(** The pairs that [getRecords] is to send: for each field in turn, its
    name and the string of its value, when the value is truthy. *)
Definition truthy_fields (params : JS.obj) (fields : list string)
  : list (string * string) :=
  flat_map (fun name =>
              if JS.truthy (JS.lookup params name)
              then [(name, JS.ToString (JS.lookup params name))]
              else [])
           fields.

Definition parse_pair (piece : string) : string * string :=
  let (name, value) := cut_at "=" piece in
  (form_decode name, form_decode value).

Definition parse_query (s : string) : list (string * string) :=
  List.map parse_pair
    (List.filter (fun piece => negb (piece =? "")%string) (split_on "&" s)).

End Server.

(* ================================================================== *)
(** * The other operations of the API client *)
(* ================================================================== *)

Module AirQualityAPI.
Import JS.

(** [Array.isArray(regions) ? regions.join(',') : regions]. *)
Definition regionsParam (regions : value) : value :=
  match regions with
  | VArr _ => VStr (ToString regions)
  | other => other
  end.

Definition compareRegions_endpoint (regions annee : value) : string :=
  let queryString :=
    if truthy annee
    then "?regions=" ++ Url.encodeURIComponent (regionsParam regions)
         ++ "&annee=" ++ ToString annee
    else "?regions=" ++ Url.encodeURIComponent (regionsParam regions) in
  "/compare" ++ queryString.

Section Operations.
Variable hostname : string.
Variable fetch : string -> Api.Options -> Api.fetch_outcome.

Definition getRegions := Api.apiFetch hostname fetch "/regions" Api.no_options.

Definition getYears := Api.apiFetch hostname fetch "/years" Api.no_options.

Definition getSummary := Api.apiFetch hostname fetch "/summary" Api.no_options.

Definition getCommunes (region : value) :=
  Api.apiFetch hostname fetch (Api.getCommunes_endpoint region) Api.no_options.

Definition compareRegions (regions annee : value) :=
  Api.apiFetch hostname fetch (compareRegions_endpoint regions annee)
               Api.no_options.
End Operations.

End AirQualityAPI.

(* ================================================================== *)
(** * Well-formed worlds *)
(* ================================================================== *)

Module Inv.
Import App.

(** A records request in flight was built by [loadRecords] from a state
    whose cursor was well formed. *)
Definition request_ok (p : Pending) : Prop :=
  match p with
  | PRecords endpoint _ =>
      exists s : AppState,
        cursor_ok s /\ endpoint = Api.getRecords_endpoint (records_params s)
  | _ => True
  end.

Definition world_ok (w : World) : Prop :=
  cursor_ok (app w) /\ Forall request_ok (inflight w).

(** A computation that keeps the world well formed. *)
Definition keeps {A : Type} (m : M A) : Prop :=
  forall w, world_ok w -> world_ok (snd (m w)).

End Inv.

(* ================================================================== *)
(** * [debounce] *)
(* ================================================================== *)

Module Debounce.

Section Debounced.
Variable Args : Type.

(** The state of one debounced function: the timers that [setTimeout] has
    registered and that have neither elapsed nor been cleared, each with its
    id and the arguments its callback [later] closes over; the variable
    [timeout] of the closure; the id that [setTimeout] returns next; and the
    calls of [func] made so far. *)
Record State : Type := mkState {
  timers : list (nat * Args);
  timeout : option nat;
  next_id : nat;
  calls : list Args
}.

Definition initial : State := mkState [] None 1 [].

Definition remove_timer (id : nat) (ts : list (nat * Args)) : list (nat * Args) :=
  List.filter (fun t => negb (Nat.eqb (fst t) id)) ts.

(** [clearTimeout(timeout)]; clearing [undefined] does nothing. *)
Definition clearTimeout (id : option nat) (ts : list (nat * Args))
  : list (nat * Args) :=
  match id with
  | Some i => remove_timer i ts
  | None => ts
  end.

(** A call of the debounced function. *)
Definition executedFunction (args : Args) (st : State) : State :=
  let ts := clearTimeout (timeout st) (timers st) in
  let id := next_id st in
  mkState (ts ++ [(id, args)])%list (Some id) (S id) (calls st).

(** [later], run by the timer that carries [args]. *)
Definition later (args : Args) (st : State) : State :=
  mkState (clearTimeout (timeout st) (timers st)) (timeout st) (next_id st)
          (calls st ++ [args])%list.

(** The timer [id] elapses, if it is still registered: the browser drops
    it and runs its callback. *)
Definition elapse (id : nat) (st : State) : option State :=
  match List.find (fun t => Nat.eqb (fst t) id) (timers st) with
  | Some (_, args) =>
      Some (later args (mkState (remove_timer id (timers st)) (timeout st)
                                (next_id st) (calls st)))
  | None => None
  end.

Inductive Event : Type :=
| Call (args : Args)
| Elapse (id : nat).

Definition step (st : State) (e : Event) : option State :=
  match e with
  | Call args => Some (executedFunction args st)
  | Elapse id => elapse id st
  end.

Inductive reachable : State -> Prop :=
| reachable_initial : reachable initial
| reachable_step : forall st e st',
    reachable st -> step st e = Some st' -> reachable st'.

(** A burst of calls with no timer elapsing in between. *)
Definition burst (st : State) (argss : list Args) : State :=
  List.fold_left (fun s args => executedFunction args s) argss st.

(** At most one timer is registered, and it is the one [timeout] names. *)
Definition single_timer (st : State) : Prop :=
  timers st = []
  \/ exists id args, timers st = [(id, args)] /\ timeout st = Some id.

End Debounced.

Arguments mkState {Args}.
Arguments timers {Args}.
Arguments timeout {Args}.
Arguments next_id {Args}.
Arguments calls {Args}.
Arguments initial {Args}.
Arguments executedFunction {Args}.
Arguments later {Args}.
Arguments elapse {Args}.
Arguments step {Args}.
Arguments reachable {Args}.
Arguments burst {Args}.
Arguments single_timer {Args}.
Arguments Call {Args}.
Arguments Elapse {Args}.

(** The events that the debounced commune listener hands to the
    application: one input event per call of the wrapped function. *)
Definition commune_events (st : State string) : list App.Event :=
  List.map (App.FilterChange App.SearchCommune) (calls st).

End Debounce.

(* ================================================================== *)
(** * The data of the dashboard charts *)
(* ================================================================== *)

Module ChartData.
Import App.

(** The readings gathered for one year: [{ no2: [], pm10: [], pm25: [],
    o3: [] }]. *)
Record Group : Type := mkGroup {
  g_no2 : list Q;
  g_pm10 : list Q;
  g_pm25 : list Q;
  g_o3 : list Q
}.

Definition empty_group : Group := mkGroup [] [] [] [].

(** [if (reading) arr.push(reading)]: a reading that is null or 0 is not
    kept. *)
Definition push (reading : option Q) (arr : list Q) : list Q :=
  match reading with
  | Some v => if nonzero v then (arr ++ [v])%list else arr
  | None => arr
  end.

Definition push_record (record : AirRecord) (g : Group) : Group :=
  mkGroup (push (rec_no2 record) (g_no2 g))
          (push (rec_pm10 record) (g_pm10 g))
          (push (rec_pm25 record) (g_pm25 g))
          (push (rec_o3 record) (g_o3 g)).

(** The object [yearData]: its properties, in the order of their creation. *)
Definition YearData : Type := list (string * Group).

Definition keys (m : YearData) : list string := List.map fst m.

Definition has_key (key : string) (m : YearData) : bool :=
  existsb (fun p => (fst p =? key)%string) m.

(** [yearData[key]] for reading; an absent key has no readings. *)
Fixpoint get (key : string) (m : YearData) : Group :=
  match m with
  | [] => empty_group
  | (k, g) :: rest => if (k =? key)%string then g else get key rest
  end.

(** The group of [key] is replaced by [f] of it. *)
Fixpoint update (key : string) (f : Group -> Group) (m : YearData) : YearData :=
  match m with
  | [] => []
  | (k, g) :: rest =>
      if (k =? key)%string then (k, f g) :: rest
      else (k, g) :: update key f rest
  end.

(** The key under which a record is filed: [record.annee] as a property
    name. *)
Definition year_key (record : AirRecord) : string :=
  JS.string_of_Z (rec_annee record).

(** One turn of [data.forEach]: the group of the year is created if it is
    not there, then the readings of the record are pushed. *)
Definition add_record (m : YearData) (record : AirRecord) : YearData :=
  let key := year_key record in
  let m1 := if has_key key m then m else (m ++ [(key, empty_group)])%list in
  update key (push_record record) m1.

Definition group_by_year (data : list AirRecord) : YearData :=
  List.fold_left add_record data [].

(** [Array.prototype.sort] without a comparator orders strings by their
    code units; the keys are distinct, so the result does not depend on the
    algorithm. *)
Fixpoint insert (x : string) (l : list string) : list string :=
  match l with
  | [] => [x]
  | y :: rest => if String.leb x y then x :: l else y :: insert x rest
  end.

Fixpoint sort (l : list string) : list string :=
  match l with
  | [] => []
  | x :: rest => insert x (sort rest)
  end.

(** [arr.length ? (sum / arr.length).toFixed(1) : null]. *)
Definition calcAvg (arr : list Q) : option string :=
  match arr with
  | [] => None
  | _ :: _ => Some (Num.fixed_string (Num.toFixed1 (Num.average arr)))
  end.

(** What [createEvolutionChart] hands to the chart: the labels and the four
    series. *)
Record EvolutionData : Type := mkEvolution {
  labels : list string;
  series_no2 : list (option string);
  series_pm10 : list (option string);
  series_pm25 : list (option string);
  series_o3 : list (option string)
}.

Definition createEvolutionChart_data (data : list AirRecord) : EvolutionData :=
  let yearData := group_by_year data in
  let years := sort (keys yearData) in
  mkEvolution years
    (List.map (fun y => calcAvg (g_no2 (get y yearData))) years)
    (List.map (fun y => calcAvg (g_pm10 (get y yearData))) years)
    (List.map (fun y => calcAvg (g_pm25 (get y yearData))) years)
    (List.map (fun y => calcAvg (g_o3 (get y yearData))) years).

(** The readings of one pollutant, by [field], that the records of the year
    [year] carry and that are neither null nor 0, in the order of the
    page. *)
Definition readings_of (field : AirRecord -> option Q) (year : string)
    (data : list AirRecord) : list Q :=
  flat_map (fun record =>
              if (year_key record =? year)%string
              then push (field record) []
              else [])
           data.

(** Each label is at most the next one. *)
Definition ascending (l : list string) : Prop :=
  Sorted (fun a b => String.leb a b = true) l.

End ChartData.

(* ================================================================== *)
(** * The chart instances *)
(* ================================================================== *)

Module ChartInstances.

(** The charts module keeps the chart drawn on each canvas in the object
    [chartInstances].  A chart is named by the number of its construction.
    [constructed] and [destroyed] record the calls of [new Chart] and of
    [destroy]. *)
Record State : Type := mkState {
  chartInstances : list (string * nat);
  constructed : list nat;
  destroyed : list nat
}.

Definition initial : State := mkState [] [] [].

(** The own properties of [chartInstances]. *)
Fixpoint own (chartId : string) (m : list (string * nat)) : option nat :=
  match m with
  | [] => None
  | (k, c) :: rest => if (k =? chartId)%string then Some c else own chartId rest
  end.

(** What [chartInstances[chartId]] evaluates to.  [chartInstances] is an
    object literal, so a name that it does not own is looked up in
    [Object.prototype]. *)
Inductive Slot : Type :=
| Held (chart : nat)   (* the chart stored under the name *)
| Member               (* a member of Object.prototype: truthy, and no chart *)
| Nothing.             (* undefined *)

Definition lookup (chartId : string) (m : list (string * nat)) : Slot :=
  match own chartId m with
  | Some chart => Held chart
  | None => if App.inherited chartId then Member else Nothing
  end.

(** [delete chartInstances[chartId]]. *)
Definition delete (chartId : string) (m : list (string * nat))
  : list (string * nat) :=
  List.filter (fun p => negb (fst p =? chartId)%string) m.

(** [destroyChart]: a truthy [chartInstances[chartId]] is destroyed and
    deleted.  A member of [Object.prototype] is truthy and has no [destroy]:
    the call throws. *)
Definition destroyChart (chartId : string) (st : State) : JS.exn + State :=
  match lookup chartId (chartInstances st) with
  | Held chart =>
      inr (mkState (delete chartId (chartInstances st)) (constructed st)
                   (destroyed st ++ [chart])%list)
  | Member =>
      inl (JS.TypeError "chartInstances[chartId].destroy is not a function")
  | Nothing => inr st
  end.

(** [chartInstances[canvasId] = chart]. *)
Definition assign (canvasId : string) (chart : nat) (m : list (string * nat))
  : list (string * nat) :=
  (delete canvasId m ++ [(canvasId, chart)])%list.

(** The common frame of [createEvolutionChart], [createRegionsChart] and
    [createTrendChart]: the chart of the canvas is destroyed; if the canvas
    element is missing the function returns null; otherwise a chart is
    constructed, stored and returned.  What [destroyChart] throws
    propagates. *)
Definition createChart (canvasId : string) (canvas_found : bool) (st : State)
  : State * (JS.exn + option nat) :=
  match destroyChart canvasId st with
  | inl error => (st, inl error)
  | inr st1 =>
      if negb canvas_found then (st1, inr None)
      else
        let chart := List.length (constructed st1) in
        (mkState (assign canvasId chart (chartInstances st1))
                 (constructed st1 ++ [chart])%list (destroyed st1),
         inr (Some chart))
  end.

Inductive reachable : State -> Prop :=
| reachable_initial : reachable initial
| reachable_create : forall st canvasId canvas_found,
    reachable st -> reachable (fst (createChart canvasId canvas_found st))
| reachable_destroy : forall st chartId st',
    reachable st -> destroyChart chartId st = inr st' -> reachable st'.

(** The charts that are drawn: constructed and not destroyed. *)
Definition live (st : State) : list nat :=
  List.filter (fun c => negb (existsb (Nat.eqb c) (destroyed st)))
              (constructed st).

Definition canvases (st : State) : list string :=
  List.map fst (chartInstances st).

Definition registered (st : State) : list nat :=
  List.map snd (chartInstances st).

(** The bookkeeping is sound: no canvas and no chart is registered twice,
    the registered charts are the constructed ones that are not destroyed,
    charts are numbered in the order of their construction, and no chart is
    stored under a name of [Object.prototype]. *)
Definition well_kept (st : State) : Prop :=
  NoDup (canvases st)
  /\ NoDup (registered st)
  /\ (forall c, In c (registered st)
                <-> (c < List.length (constructed st))%nat
                    /\ ~ In c (destroyed st))
  /\ (forall c, In c (destroyed st) -> (c < List.length (constructed st))%nat)
  /\ constructed st = List.seq 0 (List.length (constructed st))
  /\ (forall k, In k (canvases st) -> App.inherited k = false).

End ChartInstances.

(* ================================================================== *)
(** * Properties of the API client *)
(* ================================================================== *)

Import JS.

Ltac split_fields H :=
  simpl in H;
  repeat match type of H with
         | _ \/ _ => destruct H as [H | H]
         | False => contradiction
         end.

Lemma truthy_falsy_values :
  truthy VUndefined = false /\ truthy (VStr "") = false /\ truthy (VNum 0) = false.
Proof. repeat split. Qed.

Lemma getRecords_calls_apiFetch :
  forall hostname fetch params,
    Api.getRecords hostname fetch params
    = Api.apiFetch hostname fetch (Api.getRecords_endpoint params) Api.no_options.
Proof. reflexivity. Qed.

Lemma apiFetch_try_not_ok :
  forall r, Api.ok r = false ->
    Api.apiFetch_try (Api.Resolved r)
    = match get_prop (match Api.json r with inl _ => VObj [] | inr v => v end)
                     "detail" with
      | inl e => inl e
      | inr detail =>
          inl (Error (ToString
                 (or_else detail
                    (VStr ("HTTP error! status: " ++ string_of_Z (Api.status r))))))
      end.
Proof. intros r Hok. unfold Api.apiFetch_try. rewrite Hok. reflexivity. Qed.

Lemma ok_204 : forall r, Api.status r = 204 -> Api.ok r = true.
Proof. intros r H. unfold Api.ok. rewrite H. reflexivity. Qed.

(** C6, as the code has it.  On a non-success response whose body is
    anything but JSON [null], [apiFetch] throws an [Error].  Its message is
    the string of the body's [detail] when the body is a JSON object and
    that value is truthy; it is the generic message with the status in
    every other case: the object has no [detail] or a falsy one, the body
    is a JSON string, number, boolean or array, or the body is not JSON.
    A 204 response gives [null].  Every failure, of the server or of the
    network, is logged once with the endpoint and is the failure the caller
    receives; a success logs nothing. *)
Theorem apiFetch_failure_semantics :
  forall hostname fetch endpoint options,
    let out := fetch (Api.API_BASE_URL hostname ++ endpoint)
                     (Api.finalOptions options) in
    let result := Api.apiFetch hostname fetch endpoint options in
    let generic r := "HTTP error! status: " ++ string_of_Z (Api.status r) in
    (forall r, out = Api.Resolved r -> Api.ok r = false ->
       (forall body, Api.json r = inr body ->
          body <> VNull -> body <> VUndefined ->
          exists message,
            snd result = inl (Error message)
            /\ message
               = match body with
                 | VObj o => if truthy (lookup o "detail")
                             then ToString (lookup o "detail") else generic r
                 | _ => generic r
                 end)
       /\ (forall o d, Api.json r = inr (VObj o) ->
             lookup o "detail" = VStr d -> d <> "" ->
             snd result = inl (Error d))
       /\ (forall o, Api.json r = inr (VObj o) ->
             truthy (lookup o "detail") = false ->
             snd result = inl (Error (generic r)))
       /\ (forall s, Api.json r = inr (VStr s) ->
             snd result = inl (Error (generic r)))
       /\ (forall n, Api.json r = inr (VNum n) ->
             snd result = inl (Error (generic r)))
       /\ (forall b, Api.json r = inr (VBool b) ->
             snd result = inl (Error (generic r)))
       /\ (forall l, Api.json r = inr (VArr l) ->
             snd result = inl (Error (generic r)))
       /\ (forall e, Api.json r = inl e -> snd result = inl (Error (generic r))))
    /\ (forall r, out = Api.Resolved r -> Api.status r = 204 ->
          result = ([], inr VNull))
    /\ (forall e, out = Api.Rejected e -> snd result = inl e)
    /\ (forall e, Api.apiFetch_try out = inl e -> snd result = inl e)
    /\ (forall e, snd result = inl e ->
          fst result = [Api.mkLog ("API Error [" ++ endpoint ++ "]:") e])
    /\ (forall v, snd result = inr v -> fst result = []).
Proof.
  intros hostname fetch endpoint options out result generic.
  assert (Hres : result
                 = match Api.apiFetch_try out with
                   | inl error =>
                       ([Api.mkLog ("API Error [" ++ endpoint ++ "]:") error],
                        inl error)
                   | inr v => ([], inr v)
                   end) by reflexivity.
  assert (Hbody : forall r body, out = Api.Resolved r -> Api.ok r = false ->
            Api.json r = inr body ->
            body <> VNull -> body <> VUndefined ->
            snd result
            = inl (Error match body with
                         | VObj o => if truthy (lookup o "detail")
                                     then ToString (lookup o "detail")
                                     else generic r
                         | _ => generic r
                         end)).
  { intros r body Hout Hok Hjson Hnull Hundef.
    rewrite Hres, Hout, (apiFetch_try_not_ok r Hok), Hjson.
    destruct body as [| |b|n|s|l|o]; try contradiction; cbn;
      try reflexivity.
    unfold or_else. destruct (truthy (lookup o "detail")); reflexivity. }
  split.
  { intros r Hout Hok.
    split.
    { intros body Hjson Hnull Hundef. eexists. split; [|reflexivity].
      apply (Hbody r body Hout Hok Hjson Hnull Hundef). }
    split.
    { intros o d Hjson Hd Hne.
      rewrite (Hbody r (VObj o) Hout Hok Hjson) by discriminate.
      rewrite Hd. cbn.
      destruct (String.eqb_spec d ""); [contradiction | reflexivity]. }
    split.
    { intros o Hjson Hd.
      rewrite (Hbody r (VObj o) Hout Hok Hjson) by discriminate.
      rewrite Hd. reflexivity. }
    split.
    { intros s Hjson. apply (Hbody r (VStr s) Hout Hok Hjson); discriminate. }
    split.
    { intros n Hjson. apply (Hbody r (VNum n) Hout Hok Hjson); discriminate. }
    split.
    { intros b Hjson. apply (Hbody r (VBool b) Hout Hok Hjson); discriminate. }
    split.
    { intros l Hjson. apply (Hbody r (VArr l) Hout Hok Hjson); discriminate. }
    intros e Hjson. rewrite Hres, Hout, (apiFetch_try_not_ok r Hok), Hjson.
    reflexivity. }
  split.
  { intros r Hout H204. rewrite Hres, Hout. unfold Api.apiFetch_try.
    rewrite (ok_204 r H204), H204. reflexivity. }
  split.
  { intros e Hout. rewrite Hres, Hout. reflexivity. }
  split.
  { intros e Htry. rewrite Hres, Htry. reflexivity. }
  split.
  { intros e. rewrite Hres. destruct (Api.apiFetch_try out); cbn; congruence. }
  intros v. rewrite Hres. destruct (Api.apiFetch_try out); cbn; congruence.
Qed.

Lemma apiFetch_failure_semantics_witness :
  let r := Api.mkResponse 404 (inr (VObj [("detail", VStr "Record not found")])) in
  let plain := Api.mkResponse 502 (inr (VStr "Bad Gateway")) in
  let gone := Api.mkResponse 204 (inl (SyntaxError "Unexpected end of JSON input")) in
  snd (Api.apiFetch "localhost" (Api.respond_with r) "/records/7" Api.no_options)
  = inl (Error "Record not found")
  /\ snd (Api.apiFetch "localhost" (Api.respond_with plain) "/records/7"
                       Api.no_options)
     = inl (Error "HTTP error! status: 502")
  /\ Api.apiFetch "localhost" (Api.respond_with gone) "/records/7"
                 (Api.mkOptions (Some "DELETE") None None)
     = ([], inr VNull)
  /\ fst (Api.apiFetch "localhost" (Api.respond_with r) "/records/7" Api.no_options)
     = [Api.mkLog "API Error [/records/7]:" (Error "Record not found")].
Proof.
  intros r plain gone.
  split; [|split; [|split]].
  - destruct (apiFetch_failure_semantics "localhost" (Api.respond_with r)
                "/records/7" Api.no_options) as (Hbad & _).
    destruct (Hbad r eq_refl eq_refl) as (_ & Hdetail & _).
    apply (Hdetail [("detail", VStr "Record not found")] "Record not found");
      [reflexivity | reflexivity | discriminate].
  - destruct (apiFetch_failure_semantics "localhost" (Api.respond_with plain)
                "/records/7" Api.no_options) as (Hbad & _).
    destruct (Hbad plain eq_refl eq_refl) as (_ & _ & _ & Hstring & _).
    apply (Hstring "Bad Gateway"). reflexivity.
  - destruct (apiFetch_failure_semantics "localhost" (Api.respond_with gone)
                "/records/7" (Api.mkOptions (Some "DELETE") None None))
      as (_ & H204 & _).
    apply (H204 gone); reflexivity.
  - destruct (apiFetch_failure_semantics "localhost" (Api.respond_with r)
                "/records/7" Api.no_options) as (_ & _ & _ & _ & Hlog & _).
    apply (Hlog (Error "Record not found")). reflexivity.
Defined.

(** C6 does not hold as stated: a [detail] that is present but empty is
    replaced by the generic message, since [||] tests truthiness.  Besides,
    a [null] error body yields a TypeError that carries neither the detail
    nor the status: the fallback [catch(() => ({}))] guards the read of
    [errorData.detail] against a body that is not JSON, not against
    [null]. *)
Lemma apiFetch_detail_counterexample :
  let empty_detail := Api.mkResponse 500 (inr (VObj [("detail", VStr "")])) in
  let null_body := Api.mkResponse 500 (inr VNull) in
  Api.ok empty_detail = false
  /\ lookup [("detail", VStr "")] "detail" = VStr ""
  /\ snd (Api.apiFetch "localhost" (Api.respond_with empty_detail) "/records"
                       Api.no_options)
     = inl (Error "HTTP error! status: 500")
  /\ snd (Api.apiFetch "localhost" (Api.respond_with empty_detail) "/records"
                       Api.no_options)
     <> inl (Error "")
  /\ Api.ok null_body = false
  /\ snd (Api.apiFetch "localhost" (Api.respond_with null_body) "/records"
                       Api.no_options)
     = inl (TypeError "Cannot read properties of null (reading 'detail')")
  /\ snd (Api.apiFetch "localhost" (Api.respond_with null_body) "/records"
                       Api.no_options)
     <> inl (Error "HTTP error! status: 500").
Proof. cbv zeta. repeat split; discriminate. Qed.

(** The operations that do encode the identifier they put in the path. *)
Lemma stats_endpoints_encode :
  forall region annee commune,
    Api.getRegionStats_endpoint region annee
    = "/stats/region/" ++ Url.encodeURIComponent region
      ++ (if truthy annee then "?annee=" ++ ToString annee else "")
    /\ Api.getCommuneStats_endpoint commune
       = "/stats/commune/" ++ Url.encodeURIComponent commune.
Proof. intros. split; reflexivity. Qed.

(** C9 at its failing inputs.  [getPollutantTrend], [getRecordById],
    [updateRecord] and [deleteRecord] put the identifier in the path as it
    is, where [getRegionStats] and [getCommuneStats] encode it: a slash in
    the identifier adds a path segment. *)
Theorem path_identifiers_not_all_encoded :
  Api.getPollutantTrend_endpoint (VStr "pm10/pm25") [] = "/trends/pm10/pm25"
  /\ "/trends/" ++ Url.encodeURIComponent (VStr "pm10/pm25") = "/trends/pm10%2Fpm25"
  /\ Api.getRecordById_endpoint (VStr "7/../../summary") = "/records/7/../../summary"
  /\ Api.updateRecord_endpoint (VStr "7?x=1") = "/records/7?x=1"
  /\ Api.deleteRecord_endpoint (VStr "7/../8") = "/records/7/../8"
  /\ "/records/" ++ Url.encodeURIComponent (VStr "7/../../summary")
     = "/records/7%2F..%2F..%2Fsummary"
  /\ Api.getRegionStats_endpoint (VStr "Grand Est/x") VNull
     = "/stats/region/Grand%20Est%2Fx"
  /\ Api.getCommuneStats_endpoint (VStr "L'Haÿ-les-Roses") 
     = "/stats/commune/L'Ha%C3%BF-les-Roses".
Proof. repeat split. Qed.

(* ================================================================== *)
(** * Properties of the colour scale and of the trend analysis *)
(* ================================================================== *)

Lemma thresholds_ordered :
  forall p t, App.thresholds p = Some t -> App.low t < App.high t.
Proof.
  intros p t. unfold App.thresholds.
  repeat match goal with
         | |- context [String.eqb ?a ?b] => destruct (String.eqb a b)
         end;
    intros H; inversion H; subst; cbn; lia.
Qed.

Lemma color_for_cases :
  forall v t, App.low t < App.high t ->
    (App.color_for v t = App.green <-> (v <= inject_Z (App.low t))%Q)
    /\ (App.color_for v t = App.yellow <->
        (inject_Z (App.low t) < v)%Q /\ (v <= inject_Z (App.high t))%Q)
    /\ (App.color_for v t = App.red <-> (inject_Z (App.high t) < v)%Q).
Proof.
  intros v t Hlt.
  assert (HltQ : (inject_Z (App.low t) < inject_Z (App.high t))%Q)
    by (rewrite <- Zlt_Qlt; exact Hlt).
  unfold App.color_for.
  destruct (Qle_bool v (inject_Z (App.low t))) eqn:Hlow.
  - apply Qle_bool_iff in Hlow.
    repeat split; try intros H; try discriminate; try assumption.
    + destruct H as [H _]. exfalso. apply (Qlt_not_le _ _ H). exact Hlow.
    + exfalso. apply (Qlt_not_le _ _ H).
      apply Qle_trans with (inject_Z (App.low t)); [exact Hlow|].
      apply Qlt_le_weak. exact HltQ.
  - assert (Hlow' : (inject_Z (App.low t) < v)%Q).
    { apply Qnot_le_lt. intros Hle. apply Qle_bool_iff in Hle. congruence. }
    destruct (Qle_bool v (inject_Z (App.high t))) eqn:Hhigh.
    + apply Qle_bool_iff in Hhigh.
      repeat split; try intros H; try discriminate; try assumption.
      * exfalso. apply (Qlt_not_le _ _ Hlow'). exact H.
      * exfalso. apply (Qlt_not_le _ _ H). exact Hhigh.
    + assert (Hhigh' : (inject_Z (App.high t) < v)%Q).
      { apply Qnot_le_lt. intros Hle. apply Qle_bool_iff in Hle. congruence. }
      repeat split; try intros H; try discriminate; try assumption.
      * exfalso. apply (Qlt_not_le _ _ Hlow'). exact H.
      * destruct H as [_ H]. exfalso. apply (Qlt_not_le _ _ Hhigh'). exact H.
Qed.

(** C7. For a pollutant [p] of the thresholds table, with entry
    [{low, high}], [getColorForValue v p] is green exactly when [v <= low],
    yellow exactly when [low < v <= high] and red exactly when [v > high];
    for no2 the readings 15, 30 and 50 are green, yellow and red. *)
Theorem getColorForValue_by_thresholds :
  forall (v : Q) (p : string) (t : App.Thresholds),
    App.thresholds p = Some t ->
    (App.getColorForValue v p = App.green <-> (v <= inject_Z (App.low t))%Q)
    /\ (App.getColorForValue v p = App.yellow <->
        (inject_Z (App.low t) < v)%Q /\ (v <= inject_Z (App.high t))%Q)
    /\ (App.getColorForValue v p = App.red <-> (inject_Z (App.high t) < v)%Q)
    /\ App.thresholds "no2" = Some (App.mkThresholds 20 40)
    /\ App.getColorForValue 15 "no2" = App.green
    /\ App.getColorForValue 30 "no2" = App.yellow
    /\ App.getColorForValue 50 "no2" = App.red.
Proof.
  intros v p t Ht.
  pose proof (color_for_cases v t (thresholds_ordered p t Ht)) as (Hg & Hy & Hr).
  unfold App.getColorForValue. rewrite Ht.
  split; [exact Hg | split; [exact Hy | split; [exact Hr | repeat split]]].
Qed.

Lemma getColorForValue_by_thresholds_witness :
  (App.getColorForValue (45 # 2) "pm25" = App.yellow <->
   (inject_Z 10 < 45 # 2)%Q /\ (45 # 2 <= inject_Z 25)%Q)
  /\ App.getColorForValue 15 "no2" = App.green.
Proof.
  destruct (getColorForValue_by_thresholds (45 # 2) "pm25"
              (App.mkThresholds 10 25) eq_refl) as (_ & Hy & _ & _ & Hno2 & _).
  split; [exact Hy | exact Hno2].
Defined.

(** The three colours tell the bands apart. *)
Lemma colors_distinct :
  App.green <> App.yellow /\ App.yellow <> App.red /\ App.green <> App.red.
Proof. repeat split; discriminate. Qed.

(** [toFixed(1)] prints 11.7 for every value from 11.65 up to, but not
    including, 11.75: the rounding of the double operations, far smaller
    than that margin around 35/3, does not change the digits. *)
Lemma toFixed1_stable_around_change :
  forall q : Q, (1165 # 100 <= q)%Q -> (q < 1175 # 100)%Q ->
    Num.toFixed1 (Num.Finite q) = Num.Digits false 117.
Proof.
  intros q Hlo Hhi. unfold Num.toFixed1.
  assert (Hpos : Num.Qlt_bool q 0 = false).
  { unfold Num.Qlt_bool. apply negb_false_iff. apply Qle_bool_iff.
    apply Qle_trans with (1165 # 100)%Q; [discriminate | exact Hlo]. }
  rewrite Hpos. f_equal.
  assert (H1 : (117 <= Qfloor (q * 10 + (1 # 2)))%Z).
  { change 117%Z with (Qfloor (inject_Z 117)). apply Qfloor_resp_le.
    unfold Qle in *. cbn in *. lia. }
  assert (H2 : (Qfloor (q * 10 + (1 # 2)) < 118)%Z).
  { rewrite Zlt_Qlt.
    apply Qle_lt_trans with (q * 10 + (1 # 2))%Q; [apply Qfloor_le|].
    unfold Qlt in *. cbn in *. lia. }
  lia.
Qed.

(** C8. On the two-year series 30.0, 33.5 [analyzeTrend] computes the
    change 11.7 and takes the branch of the changes above 10, the upward
    trend reported as a concern. *)
Theorem analyzeTrend_two_year_example :
  forall (y1 y2 : Z) (pollutant : string),
    let series := [Charts.mkPoint y1 (Some 30%Q); Charts.mkPoint y2 (Some (335 # 10))] in
    let change := Charts.percent_change 30 (335 # 10) in
    Num.fixed_string change = "11.7"
    /\ Num.gt (Num.fixed_number change) Charts.ten = true
    /\ Charts.classify change = Charts.ConcerningUp
    /\ Charts.trend_text (Charts.classify change) change
       = "📈 Tendance à la hausse préoccupante (+11.7%)"
    /\ Charts.analyzeTrend series pollutant
       = "**" ++ Charts.pollutantName pollutant ++ "**" ++ Charts.nl
         ++ Charts.nl
         ++ "📈 Tendance à la hausse préoccupante (+11.7%)" ++ Charts.nl
         ++ Charts.nl
         ++ "• Moyenne sur la période : 31.8 µg/m³" ++ Charts.nl
         ++ "• Valeur maximale : 33.5 µg/m³  " ++ Charts.nl
         ++ "• Valeur minimale : 30.0 µg/m³" ++ Charts.nl
         ++ "• Évolution : de 30.0 à 33.5 µg/m³".
Proof.
  intros y1 y2 pollutant series change.
  split; [reflexivity|].
  split; [reflexivity|].
  split; [reflexivity|].
  split; reflexivity.
Qed.

(* ================================================================== *)
(** * Properties of the application controller *)
(* ================================================================== *)

Import App.

Section ListFacts.
Context {A : Type}.

Lemma nth_error_snoc : forall (l : list A) (p : A),
  nth_error (l ++ [p]) (List.length l) = Some p.
Proof.
  intros l p. rewrite nth_error_app2 by apply Nat.le_refl.
  rewrite Nat.sub_diag. reflexivity.
Qed.

Lemma remove_nth_snoc : forall (l : list A) (p : A),
  remove_nth (List.length l) (l ++ [p]) = l.
Proof.
  intros l p. unfold remove_nth.
  rewrite firstn_app, Nat.sub_diag, firstn_all. cbn [firstn].
  rewrite skipn_all2 by (rewrite length_app; cbn; lia).
  rewrite !app_nil_r. reflexivity.
Qed.

Lemma nth_error_before_last : forall (l : list A) (p q : A),
  nth_error ((l ++ [p]) ++ [q]) (List.length l) = Some p.
Proof.
  intros l p q. rewrite nth_error_app1 by (rewrite length_app; cbn; lia).
  apply nth_error_snoc.
Qed.

Lemma remove_nth_before_last : forall (l : list A) (p q : A),
  remove_nth (List.length l) ((l ++ [p]) ++ [q]) = (l ++ [q])%list.
Proof.
  intros l p q. unfold remove_nth. rewrite <- app_assoc.
  rewrite firstn_app, Nat.sub_diag, firstn_all. cbn [firstn].
  rewrite app_nil_r, skipn_app.
  rewrite skipn_all2 by lia.
  replace (S (List.length l) - List.length l)%nat with 1%nat by lia.
  reflexivity.
Qed.

Lemma skipn_length_app : forall (l x : list A),
  skipn (List.length l) (l ++ x) = x.
Proof.
  intros l x. rewrite skipn_app, Nat.sub_diag, skipn_all. reflexivity.
Qed.
End ListFacts.

Lemma last_table_app : forall t1 t2,
  last_table (t1 ++ t2)
  = match last_table t2 with
    | Some rows => Some rows
    | None => last_table t1
    end.
Proof.
  induction t1 as [|e t1 IH]; intros t2; cbn.
  - destruct (last_table t2); reflexivity.
  - rewrite IH. destruct (last_table t2); reflexivity.
Qed.

(** A listener of a filter field is its two assignments followed by
    [loadRecords]. *)
Lemma filter_handler_unfold : forall field value s l t,
  filter_handler field value (mkWorld s l t)
  = loadRecords (filter_cont field)
                (mkWorld (filter_assignments field value s) l t).
Proof. intros [] value s l t; reflexivity. Qed.

Lemma loadRecords_exec : forall k s l t,
  exec (loadRecords k) (mkWorld s l t)
  = mkWorld s
            (l ++ [PRecords (Api.getRecords_endpoint (records_params s)) k])
            (t ++ [Fetch (Api.getRecords_endpoint (records_params s))
                         Api.no_options]).
Proof. reflexivity. Qed.

Lemma filter_handler_exec : forall field value s l t,
  let s1 := filter_assignments field value s in
  let endpoint := Api.getRecords_endpoint (records_params s1) in
  exec (filter_handler field value) (mkWorld s l t)
  = mkWorld s1 (l ++ [PRecords endpoint (filter_cont field)])
               (t ++ [Fetch endpoint Api.no_options]).
Proof.
  intros field value s l t. unfold exec. rewrite filter_handler_unfold.
  reflexivity.
Qed.

Lemma page_param_after_assignments : forall field value s,
  In ("page", "1")
     (Api.getRecords_queryParams
        (records_params (filter_assignments field value s))).
Proof.
  intros field value s.
  unfold Api.getRecords_queryParams, Url.append.
  destruct field; cbn;
    repeat match goal with
           | |- context [if ?b then _ else _] => destruct b
           end;
    cbn; auto 10.
Qed.

(** C2. Each listener of a filter field has set the page to 1 when its two
    assignments are done, before anything is sent: the world is then [w1],
    with nothing new in flight and nothing new in the trace; the request
    that [loadRecords] sends from there carries [page=1]; and the page is
    still 1 when the listener suspends. *)
Theorem filter_change_resets_page :
  forall (w : World) (field : FilterField) (value : string),
    exists w1 w2 : World,
      page (pagination (app w1)) = 1
      /\ app w1 = filter_assignments field value (app w)
      /\ inflight w1 = inflight w
      /\ trace w1 = trace w
      /\ filter_handler field value w = loadRecords (filter_cont field) w1
      /\ step w (FilterChange field value) = Some w2
      /\ w2 = exec (loadRecords (filter_cont field)) w1
      /\ page (pagination (app w2)) = 1
      /\ inflight w2
         = (inflight w
            ++ [PRecords (Api.getRecords_endpoint (records_params (app w1)))
                         (filter_cont field)])%list
      /\ In ("page", "1") (Api.getRecords_queryParams (records_params (app w1))).
Proof.
  intros [s l t] field value.
  exists (mkWorld (filter_assignments field value s) l t).
  exists (exec (filter_handler field value) (mkWorld s l t)).
  repeat split.
  - apply filter_handler_unfold.
  - unfold exec. rewrite filter_handler_unfold. reflexivity.
  - rewrite filter_handler_exec. reflexivity.
  - rewrite filter_handler_exec. reflexivity.
  - apply page_param_after_assignments.
Qed.

Ltac flatten_trace :=
  repeat rewrite <- app_assoc; cbn [List.app].

(** Run a computation of [M] on an explicit world. *)
Ltac run_monad :=
  cbv beta iota zeta
      delta [exec bind ret get modify emit await fst snd
             App.app inflight trace
             apiFetch_log loadRecords loadRecords_resumed loadRecords_try
             after_loadRecords after_effects
             updateDataTable updatePaginationInfo updateDashboardStats
             createDashboardCharts showToast showLoading].

Lemma createDashboardCharts_exec : forall s l t,
  exec createDashboardCharts (mkWorld s l t)
  = mkWorld s l (t ++ dashboard_charts s).
Proof.
  intros s l t. unfold exec, createDashboardCharts, dashboard_charts, bind, get.
  cbn. destruct (data s); cbn.
  - rewrite app_nil_r. reflexivity.
  - flatten_trace. reflexivity.
Qed.

Lemma after_loadRecords_exec : forall k s l t,
  exec (after_loadRecords k Normal) (mkWorld s l t)
  = mkWorld s l (t ++ after_effects k s).
Proof.
  intros k s l t. destruct k; cbn [after_loadRecords after_effects].
  - unfold exec, ret. cbn. rewrite app_nil_r. reflexivity.
  - unfold exec, bind, updateDashboardStats, get, emit, createDashboardCharts.
    cbn. unfold dashboard_charts. destruct (data s); cbn; flatten_trace; reflexivity.
  - unfold exec, bind, updateDashboardStats, get, emit, showLoading, createDashboardCharts.
    cbn. unfold dashboard_charts. destruct (data s); cbn; flatten_trace; reflexivity.
  - unfold exec, ret. cbn. rewrite app_nil_r. reflexivity.
Qed.

(** A successful reply to a pending [loadRecords]: the reply is stored, the
    table and the pagination line are redrawn, the caller goes on. *)
Lemma records_reply_stored : forall w n endpoint k r,
  nth_error (inflight w) n = Some (PRecords endpoint k) ->
  step w (Resolve n (RecordsReply (inr r)))
  = Some (mkWorld (store_result r (app w))
                  (remove_nth n (inflight w))
                  (trace w
                   ++ [DataTable (table_rows (result_data r));
                       pagination_info (store_result r (app w))]
                   ++ after_effects k (store_result r (app w)))).
Proof.
  intros [s l t] n endpoint k r Hnth. cbn [step inflight app trace] in *.
  rewrite Hnth. cbn [resume]. f_equal.
  run_monad. unfold store_result, dashboard_charts.
  destruct k; run_monad; destruct (result_data r);
    cbn [data set_total set_data set_pagination]; run_monad;
    flatten_trace; reflexivity.
Qed.

(** A failed reply: the state is kept, the failure is logged by [apiFetch]
    and by [loadRecords], a toast is shown, the caller goes on. *)
Lemma records_reply_failed : forall w n endpoint k error,
  nth_error (inflight w) n = Some (PRecords endpoint k) ->
  step w (Resolve n (RecordsReply (inl error)))
  = Some (mkWorld (app w)
                  (remove_nth n (inflight w))
                  (trace w
                   ++ [ConsoleError ("API Error [" ++ endpoint ++ "]:") error;
                       ConsoleError "Error loading records:" error;
                       Toast "Erreur lors du chargement des enregistrements"
                             "error"]
                   ++ after_effects k (app w))).
Proof.
  intros [s l t] n endpoint k error Hnth. cbn [step inflight app trace] in *.
  rewrite Hnth. cbn [resume]. f_equal.
  run_monad. unfold dashboard_charts.
  destruct k; run_monad; destruct (data s); run_monad;
    flatten_trace; reflexivity.
Qed.

Lemma last_table_after_effects : forall k s,
  last_table (after_effects k s) = None.
Proof.
  intros k s. destruct k; cbn; unfold dashboard_charts;
    destruct (data s); reflexivity.
Qed.

Lemma last_table_stored : forall t rows e rest,
  is_table e = false -> last_table rest = None ->
  last_table (t ++ [DataTable rows; e] ++ rest) = Some rows.
Proof.
  intros t rows e rest He Hrest. rewrite last_table_app. cbn.
  rewrite Hrest. destruct e; try discriminate He; reflexivity.
Qed.

Lemma step_filter_change : forall s l t field value,
  step (mkWorld s l t) (FilterChange field value)
  = Some (mkWorld (filter_assignments field value s)
            (l ++ [PRecords (Api.getRecords_endpoint
                               (records_params (filter_assignments field value s)))
                            (filter_cont field)])
            (t ++ [Fetch (Api.getRecords_endpoint
                            (records_params (filter_assignments field value s)))
                         Api.no_options])).
Proof.
  intros. cbn [step]. rewrite filter_handler_exec. reflexivity.
Qed.

(** C1 does not hold: when the reply to the first of two filter changes
    arrives last, the page shown is the one of the first, older request,
    while the filter is the one of the second. *)
Lemma stale_reply_counterexample :
  let final := run initial_world (startup ++ race) in
  option_map (fun w => region (filters (app w))) final = Some "Bretagne"
  /\ option_map (fun w => data (app w)) final = Some (result_data reply_idf)
  /\ rendered_page final = Some [DataRow paris]
  /\ rendered_page final <> Some (table_rows (result_data reply_bretagne))
  /\ option_map inflight final = Some [].
Proof.
  cbv zeta. repeat split. vm_compute. discriminate.
Qed.

(** C1, as the code has it.  After two filter changes, whichever reply
    arrives last is the one stored and shown: the first request's reply when
    the replies arrive out of order, the second's when they arrive in order.
    No reply is discarded. *)
Theorem last_resolved_reply_wins :
  forall (w : World) (f1 f2 : FilterField) (v1 v2 : string)
         (r1 r2 : RecordsResult),
    let n := List.length (inflight w) in
    (exists w',
        run w [FilterChange f1 v1; FilterChange f2 v2;
               Resolve (S n) (RecordsReply (inr r2));
               Resolve n (RecordsReply (inr r1))] = Some w'
        /\ data (app w') = result_data r1
        /\ total (pagination (app w')) = result_total r1
        /\ last_table (trace w') = Some (table_rows (result_data r1))
        /\ filters (app w') = filters (filter_assignments f2 v2
                                         (filter_assignments f1 v1 (app w)))
        /\ inflight w' = inflight w)
    /\ (exists w',
        run w [FilterChange f1 v1; FilterChange f2 v2;
               Resolve n (RecordsReply (inr r1));
               Resolve n (RecordsReply (inr r2))] = Some w'
        /\ data (app w') = result_data r2
        /\ total (pagination (app w')) = result_total r2
        /\ last_table (trace w') = Some (table_rows (result_data r2))
        /\ inflight w' = inflight w).
Proof.
  intros [s l t] f1 f2 v1 v2 r1 r2 n. subst n. cbn [inflight].
  split.
  - cbn [run]. rewrite !step_filter_change.
    match goal with
    | |- context [step ?w1 (Resolve (S (List.length l)) ?reply)] =>
        assert (H2 : nth_error (inflight w1) (S (List.length l))
                     = Some (PRecords
                               (Api.getRecords_endpoint
                                  (records_params
                                     (filter_assignments f2 v2
                                        (filter_assignments f1 v1 s))))
                               (filter_cont f2)))
    end.
    { cbn [inflight].
      replace (S (List.length l))
        with (List.length (l ++ [PRecords
                (Api.getRecords_endpoint
                   (records_params (filter_assignments f1 v1 s)))
                (filter_cont f1)]))
        by (rewrite length_app; cbn; lia).
      apply nth_error_snoc. }
    rewrite (records_reply_stored _ _ _ _ r2 H2). cbn [inflight app trace].
    replace (S (List.length l))
      with (List.length (l ++ [PRecords
              (Api.getRecords_endpoint
                 (records_params (filter_assignments f1 v1 s)))
              (filter_cont f1)]))
      by (rewrite length_app; cbn; lia).
    rewrite remove_nth_snoc.
    match goal with
    | |- context [step ?w1 (Resolve (List.length l) ?reply)] =>
        assert (H1 : nth_error (inflight w1) (List.length l)
                     = Some (PRecords
                               (Api.getRecords_endpoint
                                  (records_params (filter_assignments f1 v1 s)))
                               (filter_cont f1)))
          by apply nth_error_snoc
    end.
    rewrite (records_reply_stored _ _ _ _ r1 H1). cbn [inflight app trace].
    rewrite remove_nth_snoc.
    eexists. split; [reflexivity|]. cbn [app trace inflight].
    repeat split;
      try (apply last_table_stored;
           [reflexivity | apply last_table_after_effects]).
  - cbn [run]. rewrite !step_filter_change.
    match goal with
    | |- context [step ?w1 (Resolve (List.length l) ?reply)] =>
        assert (H1 : nth_error (inflight w1) (List.length l)
                     = Some (PRecords
                               (Api.getRecords_endpoint
                                  (records_params (filter_assignments f1 v1 s)))
                               (filter_cont f1)))
          by apply nth_error_before_last
    end.
    rewrite (records_reply_stored _ _ _ _ r1 H1). cbn [inflight app trace].
    rewrite remove_nth_before_last.
    match goal with
    | |- context [step ?w1 (Resolve (List.length l) ?reply)] =>
        assert (H2 : nth_error (inflight w1) (List.length l)
                     = Some (PRecords
                               (Api.getRecords_endpoint
                                  (records_params
                                     (filter_assignments f2 v2
                                        (filter_assignments f1 v1 s))))
                               (filter_cont f2)))
          by apply nth_error_snoc
    end.
    rewrite (records_reply_stored _ _ _ _ r2 H2). cbn [inflight app trace].
    rewrite remove_nth_snoc.
    eexists. split; [reflexivity|]. cbn [app trace inflight].
    repeat split;
      try (apply last_table_stored;
           [reflexivity | apply last_table_after_effects]).
Qed.

Lemma loadRecords_completes_normally : forall reply w,
  fst (loadRecords_resumed reply w) = Normal.
Proof. intros [error | result] [s l t]; reflexivity. Qed.

(** C4. When the call awaited by [loadRecords] fails, the whole
    application state, and so the Record Page and the total, stays as it
    was; the failure is logged and the error toast is shown; [loadRecords]
    completes normally, so that its caller goes on; nothing is sent again. *)
Theorem failed_fetch_keeps_page :
  forall (w : World) (n : nat) (endpoint : string) (k : Cont) (error : exn),
    nth_error (inflight w) n = Some (PRecords endpoint k) ->
    exists w',
      step w (Resolve n (RecordsReply (inl error))) = Some w'
      /\ app w' = app w
      /\ data (app w') = data (app w)
      /\ total (pagination (app w')) = total (pagination (app w))
      /\ In (Toast "Erreur lors du chargement des enregistrements" "error")
            (new_effects w w')
      /\ In (ConsoleError "Error loading records:" error) (new_effects w w')
      /\ existsb is_table (new_effects w w') = false
      /\ (forall w0, fst (loadRecords_resumed (inl error) w0) = Normal)
      /\ new_effects w w'
         = ([ConsoleError ("API Error [" ++ endpoint ++ "]:") error;
             ConsoleError "Error loading records:" error;
             Toast "Erreur lors du chargement des enregistrements" "error"]
            ++ after_effects k (app w))%list
      /\ inflight w' = remove_nth n (inflight w).
Proof.
  intros w n endpoint k error Hnth.
  eexists. split; [apply (records_reply_failed w n endpoint k error Hnth)|].
  unfold new_effects. cbn [app trace inflight]. rewrite skipn_length_app.
  repeat split;
    try (cbn; now auto);
    try (intros w0; apply loadRecords_completes_normally);
    destruct k; cbn; unfold dashboard_charts; destruct (data (app w)); reflexivity.
Qed.

Lemma failed_fetch_keeps_page_witness :
  let w := mkWorld (set_data [paris] initial_state)
                   [PRecords "/records?page=1&page_size=20" KDashboardFilter] [] in
  exists w',
    step w (Resolve 0 (RecordsReply (inl (Error "HTTP error! status: 500"))))
    = Some w'
    /\ data (app w') = [paris]
    /\ In (Toast "Erreur lors du chargement des enregistrements" "error")
          (new_effects w w').
Proof.
  intros w.
  destruct (failed_fetch_keeps_page w 0 "/records?page=1&page_size=20"
              KDashboardFilter (Error "HTTP error! status: 500") eq_refl)
    as (w' & Hstep & _ & Hdata & _ & Htoast & _).
  exists w'. split; [exact Hstep|]. split; [exact Hdata | exact Htoast].
Defined.

(** C5 does not hold: with the map open, the commune search redraws the
    table and the pagination line only, and the dashboard region filter
    redraws the table, the stat cards and the charts, but neither redraws
    the map markers, which still show the records of the page before. *)
Lemma filter_renders_counterexample :
  option_map (List.map is_table) (effects_of (startup ++ open_map) search_rennes)
  = Some [false; true; false]
  /\ option_map (existsb is_stats) (effects_of (startup ++ open_map) search_rennes)
     = Some false
  /\ option_map (existsb is_chart) (effects_of (startup ++ open_map) search_rennes)
     = Some false
  /\ option_map (existsb is_markers) (effects_of (startup ++ open_map) search_rennes)
     = Some false
  /\ option_map (existsb is_stats) (effects_of (startup ++ open_map) select_bretagne)
     = Some true
  /\ option_map (existsb is_markers) (effects_of (startup ++ open_map) select_bretagne)
     = Some false
  /\ option_map (fun w => leaflet_map (app w))
                (run initial_world ((startup ++ open_map) ++ search_rennes))
     = Some true
  /\ option_map (fun w => List.map marker_record (mapMarkers (app w)))
                (run initial_world ((startup ++ open_map) ++ search_rennes))
     = Some [paris; rennes]
  /\ option_map (fun w => data (app w))
                (run initial_world ((startup ++ open_map) ++ search_rennes))
     = Some [rennes].
Proof. repeat split; vm_compute; reflexivity. Qed.

(** C5, as the code has it.  When the reply to the request of a filter
    listener arrives, the table and the pagination line are redrawn from the
    new page; the listeners of the dashboard region and year filters then
    redraw the stat cards and, if the page is not empty, the charts; the
    listeners of the data page redraw nothing more; no listener redraws the
    map markers or fills the filter selections again. *)
Theorem filter_change_renders :
  forall (w : World) (field : FilterField) (value : string) (r : RecordsResult),
    exists w1 w2,
      step w (FilterChange field value) = Some w1
      /\ step w1 (Resolve (List.length (inflight w)) (RecordsReply (inr r)))
         = Some w2
      /\ data (app w2) = result_data r
      /\ new_effects w1 w2
         = ([DataTable (table_rows (result_data r)); pagination_info (app w2)]
            ++ after_effects (filter_cont field) (app w2))%list
      /\ existsb is_table (new_effects w1 w2) = true
      /\ existsb is_pagination_info (new_effects w1 w2) = true
      /\ existsb is_stats (new_effects w1 w2) = is_dashboard_filter field
      /\ existsb is_chart (new_effects w1 w2)
         = match result_data r with
           | [] => false
           | _ :: _ => is_dashboard_filter field
           end
      /\ existsb is_markers (new_effects w1 w2) = false
      /\ existsb is_filter_options (new_effects w1 w2) = false
      /\ mapMarkers (app w2) = mapMarkers (app w)
      /\ regions (app w2) = regions (app w)
      /\ years (app w2) = years (app w)
      /\ summary (app w2) = summary (app w).
Proof.
  intros [s l t] field value r. cbn [inflight].
  eexists. eexists.
  split; [apply step_filter_change|].
  split.
  { apply records_reply_stored with
      (endpoint := Api.getRecords_endpoint
                     (records_params (filter_assignments field value s)))
      (k := filter_cont field).
    cbn [inflight]. apply nth_error_snoc. }
  unfold new_effects. cbn [app trace inflight]. rewrite skipn_length_app.
  split; [reflexivity|]. split; [reflexivity|].
  destruct field; cbn [filter_cont after_effects is_dashboard_filter];
    unfold dashboard_charts, store_result;
    cbn [data set_total set_data set_pagination];
    destruct (result_data r); repeat split.
Qed.

(** ** The pagination cursor on reachable worlds *)

Section Preservation.
Context {A B : Type}.

Lemma preserves_ret : forall a : A, preserves (ret a).
Proof. intros a w H. exact H. Qed.

Lemma preserves_bind : forall (m : M A) (f : A -> M B),
  preserves m -> (forall a, preserves (f a)) -> preserves (bind m f).
Proof.
  intros m f Hm Hf w H. unfold bind.
  specialize (Hm w H). destruct (m w) as [a w1]. apply Hf. exact Hm.
Qed.

Lemma preserves_get_bind : forall f : AppState -> M B,
  (forall s, cursor_ok s -> preserves (f s)) -> preserves (bind get f).
Proof. intros f Hf w H. unfold bind, get. apply Hf; exact H. Qed.
End Preservation.

Lemma preserves_emit : forall e, preserves (emit e).
Proof. intros e w H. exact H. Qed.

Lemma preserves_await : forall p, preserves (await p).
Proof. intros p w H. exact H. Qed.

Lemma preserves_modify : forall f : AppState -> AppState,
  (forall s, cursor_ok s -> cursor_ok (f s)) -> preserves (modify f).
Proof. intros f Hf w H. apply Hf. exact H. Qed.

Ltac cursor_arith :=
  unfold cursor_ok in *; cbn in *;
  repeat match goal with
         | H : (_ <? _) = true |- _ => apply Z.ltb_lt in H
         | H : (_ <? _) = false |- _ => apply Z.ltb_ge in H
         end;
  intuition lia.

Ltac preserve :=
  repeat first
    [ apply preserves_ret
    | apply preserves_emit
    | apply preserves_await
    | apply preserves_get_bind; intros ? ?
    | apply preserves_bind; [| intros ?]
    | apply preserves_modify; intros ? ?; cursor_arith
    | match goal with
      | |- preserves (if ?b then _ else _) => destruct b eqn:?
      | |- preserves (match ?x with _ => _ end) => destruct x eqn:?
      end
    | progress unfold loadRecords, loadRecords_resumed, loadRecords_try,
        after_loadRecords, apiFetch_log, showToast, showLoading,
        updateDataTable, updatePaginationInfo, updateDashboardStats,
        createDashboardCharts, populateFilters, updateMapMarkers,
        initializeMap, navigateTo, loadTrendData, loadTrendData_resumed,
        handleDeleteRecord, handleDeleteRecord_resumed,
        checkApiStatus_resumed, loadInitialData, loadInitialData_resumed,
        loadInitialData_failed, filter_handler, on_filter_region_change,
        on_filter_year_change, on_data_region_change,
        on_search_commune_input, on_btn_prev_click, on_btn_next_click ].

Lemma resume_preserves : forall p reply (m : M unit),
  resume p reply = Some m -> preserves m.
Proof.
  intros p reply m H.
  destruct p, reply; cbn in H; try discriminate H;
    injection H as <-; preserve.
Qed.

Lemma step_preserves : forall w e w',
  cursor_ok (app w) -> step w e = Some w' -> cursor_ok (app w').
Proof.
  intros w e w' Hok Hstep.
  destruct e; cbn [step] in Hstep;
    try (injection Hstep as <-; unfold exec;
         match goal with
         | |- cursor_ok (app (snd (?m w))) =>
             assert (Hm : preserves m) by preserve; exact (Hm w Hok)
         end).
  destruct (nth_error (inflight w) k) as [p|]; [|discriminate Hstep].
  destruct (resume p reply) as [m|] eqn:Hres; [|discriminate Hstep].
  injection Hstep as <-.
  apply (resume_preserves p reply m Hres). exact Hok.
Qed.

Lemma reachable_cursor_ok : forall w, reachable w -> cursor_ok (app w).
Proof.
  induction 1 as [|w e w' _ IH Hstep].
  - split; [cbn; lia | reflexivity].
  - exact (step_preserves w e w' IH Hstep).
Qed.

Lemma ceil_div_20 : forall a, 20 * (ceil_div a 20 - 1) < a <= 20 * ceil_div a 20.
Proof.
  intros a. unfold ceil_div.
  pose proof (Z.div_mod (- a) 20 ltac:(lia)).
  pose proof (Z.mod_pos_bound (- a) 20 ltac:(lia)).
  lia.
Qed.

(** C3. In every reachable world: the previous-page listener leaves the
    page at 1 or more and the next-page listener moves it to a page no
    greater than the last one, [ceil(total/pageSize)]; on page 1 the first,
    and on the last page or beyond the second, changes nothing and sends
    nothing; otherwise each moves the page by one and sends one request;
    a page within the bounds stays within them. *)
Theorem pagination_within_bounds :
  forall w : World,
    reachable w ->
    let p := page (pagination (app w)) in
    let last := maxPage (app w) in
    exists wp wn,
      step w BtnPrev = Some wp
      /\ step w BtnNext = Some wn
      /\ 1 <= page (pagination (app wp))
      /\ (wn = w \/ page (pagination (app wn)) <= last)
      /\ (p = 1 -> wp = w)
      /\ (last <= p -> wn = w)
      /\ (1 < p ->
          page (pagination (app wp)) = p - 1
          /\ List.length (inflight wp) = S (List.length (inflight w)))
      /\ (p < last ->
          page (pagination (app wn)) = p + 1
          /\ List.length (inflight wn) = S (List.length (inflight w)))
      /\ maxPage (app wp) = last
      /\ maxPage (app wn) = last
      /\ (p <= last ->
          1 <= page (pagination (app wp)) <= last
          /\ 1 <= page (pagination (app wn)) <= last)
      /\ 20 * (last - 1) < total (pagination (app w)) <= 20 * last.
Proof.
  intros w Hreach p last.
  pose proof (reachable_cursor_ok w Hreach) as [Hpage Hsize].
  destruct w as [s l t]. cbn [app] in *. subst p last.
  exists (exec on_btn_prev_click (mkWorld s l t)).
  exists (exec on_btn_next_click (mkWorld s l t)).
  split; [reflexivity|]. split; [reflexivity|].
  assert (Hceil : 20 * (maxPage s - 1) < total (pagination s) <= 20 * maxPage s).
  { unfold maxPage. rewrite Hsize. apply ceil_div_20. }
  unfold exec, on_btn_prev_click, on_btn_next_click, bind, get.
  cbn [app fst snd].
  destruct (1 <? page (pagination s)) eqn:Hprev;
    destruct (page (pagination s) <? maxPage s) eqn:Hnext;
    [apply Z.ltb_lt in Hprev | apply Z.ltb_lt in Hprev
     | apply Z.ltb_ge in Hprev | apply Z.ltb_ge in Hprev];
    [apply Z.ltb_lt in Hnext | apply Z.ltb_ge in Hnext
     | apply Z.ltb_lt in Hnext | apply Z.ltb_ge in Hnext];
    cbn; unfold maxPage in *; cbn;
    rewrite ?length_app; cbn;
    repeat split; intros; try lia; try reflexivity;
    try (right; lia); try (left; reflexivity);
    try exact (proj1 Hceil); exact (proj2 Hceil).
Qed.

Lemma pagination_within_bounds_witness :
  exists wp wn,
    step initial_world BtnPrev = Some wp
    /\ step initial_world BtnNext = Some wn
    /\ 1 <= page (pagination (app wp))
    /\ wp = initial_world
    /\ wn = initial_world.
Proof.
  destruct (pagination_within_bounds initial_world reachable_initial)
    as (wp & wn & Hp & Hn & Hge & _ & Hfirst & Hlast & _).
  exists wp, wn.
  split; [exact Hp|]. split; [exact Hn|]. split; [exact Hge|].
  split; [apply Hfirst; reflexivity | apply Hlast; cbn; lia].
Defined.

(* ================================================================== *)
(** * Further properties of the API client *)
(* ================================================================== *)

Ltac each_byte c := destruct c as [[] [] [] [] [] [] [] []].

Lemma unhex_hex_digits : forall c : ascii,
  Server.unhex (Url.hex_digit (N_of_ascii c / 16))
               (Url.hex_digit (N_of_ascii c mod 16)) = c.
Proof. intros c. each_byte c; reflexivity. Qed.

Lemma unreserved_is_plain : forall c : ascii,
  Url.uri_unreserved c = true ->
  Ascii.eqb c "%" = false /\ Ascii.eqb c "+" = false.
Proof. intros c. each_byte c; cbn; intros H; try discriminate H; split; reflexivity. Qed.

Lemma occurs_append : forall c a b,
  Server.occurs c (a ++ b) = Server.occurs c a || Server.occurs c b.
Proof.
  intros c a b. induction a as [|x a IH]; cbn; [reflexivity|].
  rewrite IH. apply orb_assoc.
Qed.

Lemma encoded_byte_no_delimiter : forall (c d : ascii),
  In d Server.delimiters ->
  Server.occurs d (if Url.uri_unreserved c then String c "" else Url.percent c)
  = false.
Proof.
  intros c d Hd. cbn in Hd.
  repeat (destruct Hd as [<- | Hd]; [each_byte c; reflexivity|]).
  contradiction.
Qed.

Lemma encode_bytes_no_delimiter : forall (s : string) (d : ascii),
  In d Server.delimiters -> Server.occurs d (Url.encode_bytes s) = false.
Proof.
  intros s d Hd. induction s as [|c s IH]; [reflexivity|].
  cbn [Url.encode_bytes]. rewrite occurs_append, IH.
  rewrite (encoded_byte_no_delimiter c d Hd). reflexivity.
Qed.

Lemma percent_decode_percent : forall (c : ascii) (rest : string),
  Server.percent_decode (Url.percent c ++ rest)
  = String c (Server.percent_decode rest).
Proof. intros c rest. each_byte c; reflexivity. Qed.

Lemma form_decode_percent : forall (c : ascii) (rest : string),
  Server.form_decode (Url.percent c ++ rest)
  = String c (Server.form_decode rest).
Proof. intros c rest. each_byte c; reflexivity. Qed.

Lemma percent_decode_encode : forall s : string,
  Server.percent_decode (Url.encode_bytes s) = s.
Proof.
  induction s as [|c s IH]; [reflexivity|].
  cbn [Url.encode_bytes].
  destruct (Url.uri_unreserved c) eqn:Hc.
  - destruct (unreserved_is_plain c Hc) as [Hp _].
    cbn. rewrite Hp, IH. reflexivity.
  - rewrite percent_decode_percent, IH. reflexivity.
Qed.

Lemma form_decode_encode_bytes : forall s : string,
  Server.form_decode (Url.encode_bytes s) = s.
Proof.
  induction s as [|c s IH]; [reflexivity|].
  cbn [Url.encode_bytes].
  destruct (Url.uri_unreserved c) eqn:Hc.
  - destruct (unreserved_is_plain c Hc) as [Hp Hplus].
    cbn. rewrite Hp, Hplus, IH. reflexivity.
  - rewrite form_decode_percent, IH. reflexivity.
Qed.

Lemma append_empty_r : forall s : string, s ++ "" = s.
Proof. induction s as [|c s IH]; cbn; [reflexivity | rewrite IH; reflexivity]. Qed.

Lemma append_assoc_string : forall a b c : string, (a ++ b) ++ c = a ++ (b ++ c).
Proof.
  induction a as [|x a IH]; intros b c; cbn; [reflexivity|].
  rewrite IH. reflexivity.
Qed.

Lemma delimiter_free_encode_bytes : forall s : string,
  Server.delimiter_free (Url.encode_bytes s) = true.
Proof.
  intros s. unfold Server.delimiter_free. apply forallb_forall.
  intros d Hd. rewrite (encode_bytes_no_delimiter s d Hd). reflexivity.
Qed.



(** ** The query string *)

Lemma form_byte_separators : forall c : ascii,
  Server.occurs "&" (Url.form_byte c) = false
  /\ Server.occurs "=" (Url.form_byte c) = false.
Proof. intros c. each_byte c; split; reflexivity. Qed.

Lemma form_encode_separators : forall s : string,
  Server.occurs "&" (Url.form_encode s) = false
  /\ Server.occurs "=" (Url.form_encode s) = false.
Proof.
  induction s as [|c s [IH1 IH2]]; [split; reflexivity|].
  cbn [Url.form_encode]. rewrite !occurs_append, IH1, IH2.
  destruct (form_byte_separators c) as [H1 H2]. rewrite H1, H2.
  split; reflexivity.
Qed.

Lemma form_decode_byte : forall (c : ascii) (rest : string),
  Server.form_decode (Url.form_byte c ++ rest)
  = String c (Server.form_decode rest).
Proof. intros c rest. each_byte c; reflexivity. Qed.

Lemma form_decode_encode : forall s : string,
  Server.form_decode (Url.form_encode s) = s.
Proof.
  induction s as [|c s IH]; [reflexivity|].
  cbn [Url.form_encode]. rewrite form_decode_byte, IH. reflexivity.
Qed.

Lemma cut_at_first : forall (sep : ascii) (a b : string),
  Server.occurs sep a = false ->
  Server.cut_at sep (a ++ String sep b) = (a, b).
Proof.
  intros sep a b. induction a as [|c a IH]; cbn; intros H.
  - rewrite Ascii.eqb_refl. reflexivity.
  - apply orb_false_iff in H. destruct H as [Hc Ha].
    rewrite Hc, (IH Ha). reflexivity.
Qed.

Lemma split_on_single : forall (sep : ascii) (a : string),
  Server.occurs sep a = false -> Server.split_on sep a = [a].
Proof.
  intros sep a. induction a as [|c a IH]; cbn; intros H; [reflexivity|].
  apply orb_false_iff in H. destruct H as [Hc Ha].
  rewrite Hc, (IH Ha). reflexivity.
Qed.

Lemma split_on_first : forall (sep : ascii) (a b : string),
  Server.occurs sep a = false ->
  Server.split_on sep (a ++ String sep b) = a :: Server.split_on sep b.
Proof.
  intros sep a b. induction a as [|c a IH]; cbn; intros H.
  - rewrite Ascii.eqb_refl. reflexivity.
  - apply orb_false_iff in H. destruct H as [Hc Ha].
    rewrite Hc, (IH Ha). reflexivity.
Qed.

(** One serialized pair, [name=value]. *)
Lemma parse_pair_serialized : forall name value : string,
  Server.parse_pair (Url.form_encode name ++ "=" ++ Url.form_encode value)
  = (name, value).
Proof.
  intros name value. unfold Server.parse_pair.
  change (Url.form_encode name ++ "=" ++ Url.form_encode value)
    with (Url.form_encode name ++ String "=" (Url.form_encode value)).
  rewrite cut_at_first by apply form_encode_separators.
  rewrite !form_decode_encode. reflexivity.
Qed.

Lemma serialized_pair_shape : forall name value : string,
  Server.occurs "&" (Url.form_encode name ++ "=" ++ Url.form_encode value) = false
  /\ (Url.form_encode name ++ "=" ++ Url.form_encode value =? "")%string = false.
Proof.
  intros name value. split.
  - rewrite !occurs_append.
    destruct (form_encode_separators name) as [-> _].
    destruct (form_encode_separators value) as [-> _]. reflexivity.
  - destruct (Url.form_encode name); reflexivity.
Qed.

Lemma toString_single : forall name value : string,
  Url.toString [(name, value)]
  = Url.form_encode name ++ "=" ++ Url.form_encode value.
Proof. reflexivity. Qed.

Lemma toString_cons : forall (name value : string) p q,
  Url.toString ((name, value) :: p :: q)
  = (Url.form_encode name ++ "=" ++ Url.form_encode value)
    ++ String "&" (Url.toString (p :: q)).
Proof. reflexivity. Qed.

(** Parsing what [URLSearchParams.toString] has written gives the pairs
    back. *)
Lemma parse_query_toString : forall q : Url.URLSearchParams,
  Server.parse_query (Url.toString q) = q.
Proof.
  induction q as [|[name value] q IH]; [reflexivity|].
  destruct (serialized_pair_shape name value) as [Hamp Hne].
  destruct q as [|p q].
  - rewrite toString_single. unfold Server.parse_query.
    rewrite (split_on_single _ _ Hamp). cbn [List.filter]. rewrite Hne.
    cbn [negb List.map]. rewrite parse_pair_serialized. reflexivity.
  - rewrite toString_cons. unfold Server.parse_query in *.
    rewrite (split_on_first _ _ _ Hamp). cbn [List.filter]. rewrite Hne.
    cbn [negb List.map]. rewrite parse_pair_serialized, IH. reflexivity.
Qed.

Lemma getRecords_queryParams_closed_form : forall params : obj,
  Api.getRecords_queryParams params
  = Server.truthy_fields params Api.getRecords_fields.
Proof.
  intros params. unfold Api.getRecords_queryParams, Server.truthy_fields, Url.append.
  cbn [flat_map Api.getRecords_fields].
  destruct (truthy (lookup params "commune"));
    destruct (truthy (lookup params "region"));
    destruct (truthy (lookup params "annee"));
    destruct (truthy (lookup params "page"));
    destruct (truthy (lookup params "page_size")); reflexivity.
Qed.

Lemma truthy_fields_in : forall (params : obj) (fields : list string) name v,
  In (name, v) (Server.truthy_fields params fields)
  <-> In name fields /\ truthy (lookup params name) = true
      /\ v = ToString (lookup params name).
Proof.
  intros params fields name v. unfold Server.truthy_fields.
  rewrite in_flat_map. split.
  - intros (x & Hx & Hin).
    destruct (truthy (lookup params x)) eqn:Ht; [|contradiction].
    destruct Hin as [Heq | []]. injection Heq as <- <-. auto.
  - intros (Hin & Ht & ->). exists name. rewrite Ht. split; [exact Hin | now left].
Qed.

Lemma toString_empty : forall q : Url.URLSearchParams,
  Url.toString q = "" -> q = [].
Proof.
  intros q H. rewrite <- (parse_query_toString q), H. reflexivity.
Qed.

Lemma apiFetch_result : forall hostname fetch endpoint options,
  snd (Api.apiFetch hostname fetch endpoint options)
  = Api.apiFetch_try (fetch (Api.API_BASE_URL hostname ++ endpoint)
                            (Api.finalOptions options)).
Proof.
  intros. unfold Api.apiFetch.
  destruct (Api.apiFetch_try _); reflexivity.
Qed.

(** C10. The request of [getRecords] goes to [/records] followed, when it is
    not empty, by [?] and a query string.  Read as form data, that query
    string holds a parameter for a field exactly when the field's value is
    truthy, with the string of that value and nothing else; an absent
    field, an empty string and the number 0 give no parameter; and when no
    field is truthy the query string is empty and the request goes to the
    bare [/records]. *)
Theorem getRecords_query_iff_truthy :
  forall (hostname : string) (params : obj),
    exists query : string,
      let url := Api.API_BASE_URL hostname ++ "/records"
                 ++ (if (query =? "")%string then "" else "?" ++ query) in
      (forall fetch,
          snd (Api.getRecords hostname fetch params)
          = Api.apiFetch_try (fetch url (Api.finalOptions Api.no_options)))
      /\ (forall name, In name Api.getRecords_fields ->
            ((exists v, In (name, v) (Server.parse_query query))
             <-> truthy (lookup params name) = true))
      /\ (forall name v, In (name, v) (Server.parse_query query) ->
            In name Api.getRecords_fields /\ v = ToString (lookup params name))
      /\ (forall name, In name Api.getRecords_fields ->
            lookup params name = VUndefined \/ lookup params name = VStr ""
            \/ lookup params name = VNum 0 ->
            ~ In name (List.map fst (Server.parse_query query)))
      /\ (query = "" <->
          forall name, In name Api.getRecords_fields ->
                       truthy (lookup params name) = false)
      /\ ((forall name, In name Api.getRecords_fields ->
                        truthy (lookup params name) = false) ->
          url = Api.API_BASE_URL hostname ++ "/records").
Proof.
  intros hostname params.
  exists (Url.toString (Api.getRecords_queryParams params)).
  set (query := Url.toString (Api.getRecords_queryParams params)).
  assert (Hparsed : Server.parse_query query
                    = Server.truthy_fields params Api.getRecords_fields).
  { unfold query. rewrite parse_query_toString.
    apply getRecords_queryParams_closed_form. }
  assert (Hempty : query = "" <->
                   forall name, In name Api.getRecords_fields ->
                                truthy (lookup params name) = false).
  { split.
    - intros Hq name Hin.
      destruct (truthy (lookup params name)) eqn:Ht; [|reflexivity].
      exfalso.
      assert (Hnil : Server.parse_query query = []) by (rewrite Hq; reflexivity).
      assert (Hmem : In (name, ToString (lookup params name))
                        (Server.parse_query query)).
      { rewrite Hparsed. apply truthy_fields_in. auto. }
      rewrite Hnil in Hmem. exact Hmem.
    - intros Hall. unfold query, Api.getRecords_queryParams.
      rewrite (Hall "commune"), (Hall "region"), (Hall "annee"), (Hall "page"),
        (Hall "page_size") by (cbn; auto 10).
      reflexivity. }
  cbv zeta.
  split.
  { intros fetch. unfold Api.getRecords. rewrite apiFetch_result.
    unfold Api.getRecords_endpoint, Api.with_query. fold query. cbn [truthy].
    destruct (query =? "")%string; reflexivity. }
  split.
  { intros name Hin. rewrite Hparsed. split.
    - intros (v & Hv). apply truthy_fields_in in Hv. tauto.
    - intros Ht. exists (ToString (lookup params name)).
      apply truthy_fields_in. auto. }
  split.
  { intros name v Hv. rewrite Hparsed in Hv. apply truthy_fields_in in Hv. tauto. }
  split.
  { intros name Hin Hv Hq. rewrite Hparsed in Hq.
    apply in_map_iff in Hq. destruct Hq as ([n v] & Hn & Hmem).
    cbn in Hn. subst n. apply truthy_fields_in in Hmem.
    destruct Hmem as (_ & Ht & _).
    destruct Hv as [Hv | [Hv | Hv]]; rewrite Hv in Ht; discriminate. }
  split; [exact Hempty|].
  intros Hall. apply Hempty in Hall. rewrite Hall. reflexivity.
Qed.

Lemma getRecords_query_iff_truthy_witness :
  let params := [("region", VStr "Bretagne"); ("annee", VStr ""); ("page", VNum 0)] in
  exists query : string,
    (exists v, In ("region", v) (Server.parse_query query))
    /\ ~ In "page" (List.map fst (Server.parse_query query))
    /\ ~ In "annee" (List.map fst (Server.parse_query query)).
Proof.
  intros params.
  destruct (getRecords_query_iff_truthy "localhost" params)
    as (query & _ & Hiff & _ & Hnone & _).
  exists query.
  split; [apply Hiff; [simpl; auto | reflexivity]|].
  split; apply Hnone; simpl; auto.
Defined.

(** X3. What the server parses from the query string of [getRecords] is, for
    the fields commune, region, annee, page and page_size in this order,
    the name of each truthy field with the string of its value, once:
    whatever a filter value holds, it arrives unchanged and adds or splits
    no parameter. *)
Theorem getRecords_query_round_trip :
  forall params : obj,
    let query := Url.toString (Api.getRecords_queryParams params) in
    Server.parse_query query = Server.truthy_fields params Api.getRecords_fields
    /\ Api.getRecords_endpoint params
       = "/records" ++ (if (query =? "")%string then "" else "?" ++ query)
    /\ NoDup (List.map fst (Server.parse_query query)).
Proof.
  intros params query. subst query.
  rewrite parse_query_toString.
  split; [apply getRecords_queryParams_closed_form|].
  split.
  - unfold Api.getRecords_endpoint, Api.with_query. cbn [truthy].
    destruct (Url.toString (Api.getRecords_queryParams params) =? "")%string;
      reflexivity.
  - rewrite getRecords_queryParams_closed_form.
    unfold Server.truthy_fields. cbn [flat_map Api.getRecords_fields].
    destruct (truthy (lookup params "commune"));
      destruct (truthy (lookup params "region"));
      destruct (truthy (lookup params "annee"));
      destruct (truthy (lookup params "page"));
      destruct (truthy (lookup params "page_size"));
      cbn [List.map List.app fst];
      repeat (constructor; [cbn; intuition discriminate|]); constructor.
Qed.


Lemma parse_single_encoded : forall (name value : string),
  Server.occurs "&" name = false -> Server.occurs "=" name = false ->
  (name =? "")%string = false ->
  Server.form_decode name = name ->
  Server.parse_query (name ++ "=" ++ Url.encode_bytes value) = [(name, value)].
Proof.
  intros name value Hamp Heq Hne Hdec. unfold Server.parse_query.
  assert (Hno : Server.occurs "&" (name ++ "=" ++ Url.encode_bytes value) = false).
  { rewrite !occurs_append, Hamp.
    rewrite (encode_bytes_no_delimiter value "&") by (cbn; auto). reflexivity. }
  rewrite (split_on_single _ _ Hno). cbn [List.filter].
  assert (Hne' : (name ++ "=" ++ Url.encode_bytes value =? "")%string = false).
  { destruct name; [discriminate Hne | reflexivity]. }
  rewrite Hne'. cbn [negb List.map]. unfold Server.parse_pair.
  change (name ++ "=" ++ Url.encode_bytes value)
    with (name ++ String "=" (Url.encode_bytes value)).
  rewrite (cut_at_first _ _ _ Heq), Hdec, form_decode_encode_bytes. reflexivity.
Qed.


Lemma ToString_array_of_strings : forall l : list string,
  ToString (VArr (List.map VStr l)) = join "," l.
Proof.
  intros l. cbn [ToString]. f_equal.
  induction l as [|s l IH]; [reflexivity|].
  cbn [List.map]. rewrite IH. reflexivity.
Qed.


(** X7. [apiFetch] returns a value only for a response whose status is a
    success, 200 to 299: [null] for 204 and otherwise what the body parses
    to; and then it has logged nothing. *)
Theorem apiFetch_value_only_on_success :
  forall hostname fetch endpoint options (v : value),
    snd (Api.apiFetch hostname fetch endpoint options) = inr v ->
    exists r : Api.Response,
      fetch (Api.API_BASE_URL hostname ++ endpoint) (Api.finalOptions options)
      = Api.Resolved r
      /\ 200 <= Api.status r <= 299
      /\ (if Api.status r =? 204 then v = VNull else Api.json r = inr v)
      /\ fst (Api.apiFetch hostname fetch endpoint options) = [].
Proof.
  intros hostname fetch endpoint options v. unfold Api.apiFetch.
  destruct (fetch (Api.API_BASE_URL hostname ++ endpoint)
                  (Api.finalOptions options)) as [e | r] eqn:Hout;
    cbn [Api.apiFetch_try]; [discriminate|].
  destruct (Api.ok r) eqn:Hok; cbn [negb].
  - intros H. exists r. split; [reflexivity|].
    split.
    { unfold Api.ok in Hok. apply andb_true_iff in Hok. lia. }
    destruct (Api.status r =? 204) eqn:H204.
    + cbn in H. split; [congruence | reflexivity].
    + destruct (Api.json r) as [e | body]; cbn in H; [discriminate H|].
      split; [congruence | reflexivity].
  - destruct (get_prop _ "detail"); cbn; discriminate.
Qed.

Lemma apiFetch_value_only_on_success_witness :
  let r := Api.mkResponse 200 (inr (VObj [("total", VNum 0)])) in
  exists r' : Api.Response,
    Api.respond_with r ("http://localhost:8000/api/v1" ++ "/summary")
                     (Api.finalOptions Api.no_options)
    = Api.Resolved r'
    /\ 200 <= Api.status r' <= 299.
Proof.
  intros r.
  destruct (apiFetch_value_only_on_success "localhost" (Api.respond_with r)
              "/summary" Api.no_options (VObj [("total", VNum 0)]) eq_refl)
    as (r' & Hout & Hok & _).
  exists r'. split; [exact Hout | exact Hok].
Defined.

(* ================================================================== *)
(** * Further properties of the application controller *)
(* ================================================================== *)

(** Run any handler on an explicit world. *)
Ltac run_app :=
  cbv beta iota zeta
      delta [exec bind ret get modify emit await fst snd
             App.app inflight trace
             apiFetch_log loadRecords loadRecords_resumed loadRecords_try
             after_loadRecords after_effects
             updateDataTable updatePaginationInfo updateDashboardStats
             createDashboardCharts showToast showLoading populateFilters
             updateMapMarkers initializeMap navigateTo
             loadTrendData loadTrendData_resumed
             handleDeleteRecord handleDeleteRecord_resumed
             checkApiStatus_resumed loadInitialData loadInitialData_resumed
             loadInitialData_failed filter_handler on_filter_region_change
             on_filter_year_change on_data_region_change
             on_search_commune_input on_btn_prev_click on_btn_next_click
             negb].

Lemma new_effects_app : forall s l t s' l' x,
  new_effects (mkWorld s l t) (mkWorld s' l' (t ++ x)) = x.
Proof. intros. unfold new_effects. cbn [trace]. apply skipn_length_app. Qed.

(** Deleting asks first.  When the user declines, nothing at all happens;
    when the user confirms, one DELETE request for [/records/id] goes out
    and the state, the row included, stays as it is until the reply. *)
Theorem delete_needs_confirmation :
  forall (w : World) (id : Z),
    step w (DeleteClick id false) = Some w
    /\ exists w',
         step w (DeleteClick id true) = Some w'
         /\ app w' = app w
         /\ inflight w'
            = (inflight w ++ [PDelete ("/records/" ++ string_of_Z id)])%list
         /\ trace w'
            = (trace w ++ [Fetch ("/records/" ++ string_of_Z id)
                                 (Api.mkOptions (Some "DELETE") None None)])%list.
Proof.
  intros [s l t] id. split.
  - reflexivity.
  - eexists. split; [reflexivity|]. repeat split.
Qed.

(** X8. The reply to a delete.  On a failure the state is kept, with the row,
    an error toast is shown and nothing is sent.  On a success the row is
    not taken out locally: a success toast is shown and the current page is
    requested again, so that the page and the total shown next are the
    ones of the backend's reply. *)
Theorem delete_reply_refetches :
  forall (w : World) (n : nat) (endpoint : string),
    nth_error (inflight w) n = Some (PDelete endpoint) ->
    (forall error : exn,
        exists w',
          step w (Resolve n (DeleteReply (inl error))) = Some w'
          /\ app w' = app w
          /\ inflight w' = remove_nth n (inflight w)
          /\ new_effects w w'
             = [ConsoleError ("API Error [" ++ endpoint ++ "]:") error;
                ConsoleError "Error deleting record:" error;
                Toast "Erreur lors de la suppression" "error"])
    /\ (exists w',
          step w (Resolve n (DeleteReply (inr tt))) = Some w'
          /\ app w' = app w
          /\ inflight w'
             = (remove_nth n (inflight w)
                ++ [PRecords (Api.getRecords_endpoint (records_params (app w)))
                             KDelete])%list
          /\ new_effects w w'
             = [Toast "Enregistrement supprimé" "success";
                Fetch (Api.getRecords_endpoint (records_params (app w)))
                      Api.no_options]
          /\ forall r : RecordsResult,
               exists w'',
                 step w' (Resolve (List.length (remove_nth n (inflight w)))
                                  (RecordsReply (inr r))) = Some w''
                 /\ data (app w'') = result_data r
                 /\ total (pagination (app w'')) = result_total r
                 /\ inflight w'' = remove_nth n (inflight w)).
Proof.
  intros [s l t] n endpoint Hnth. cbn [inflight app] in *. split.
  - intros error. eexists.
    split; [cbn [step inflight]; rewrite Hnth; cbn [resume]; reflexivity|].
    run_app. cbn [App.app inflight trace]. repeat split.
    flatten_trace. apply new_effects_app.
  - eexists.
    split; [cbn [step inflight]; rewrite Hnth; cbn [resume]; reflexivity|].
    run_app. cbn [App.app inflight trace].
    split; [reflexivity|]. split; [reflexivity|].
    split; [flatten_trace; apply new_effects_app|].
    intros r. eexists.
    split.
    { apply records_reply_stored with
        (endpoint := Api.getRecords_endpoint (records_params s)) (k := KDelete).
      cbn [inflight]. apply nth_error_snoc. }
    cbn [App.app inflight]. rewrite remove_nth_snoc. repeat split.
Qed.

Lemma delete_reply_refetches_witness :
  let w := mkWorld (set_data [paris; rennes] initial_state)
                   [PDelete "/records/1"] [] in
  exists w',
    step w (Resolve 0 (DeleteReply (inr tt))) = Some w'
    /\ data (app w') = [paris; rennes]
    /\ inflight w' = [PRecords "/records?page=1&page_size=20" KDelete].
Proof.
  intros w.
  destruct (delete_reply_refetches w 0 "/records/1" eq_refl)
    as (_ & w' & Hstep & Happ & Hin & _).
  exists w'. split; [exact Hstep|].
  split; [rewrite Happ; reflexivity | exact Hin].
Defined.

(** X9. The health check never stops the start-up: healthy or not, the state
    is untouched and the three metadata requests go out; an unhealthy API
    only adds an error toast. *)
Theorem health_check_never_blocks :
  forall (w : World) (n : nat) (isHealthy : bool),
    nth_error (inflight w) n = Some PHealth ->
    exists w',
      step w (Resolve n (HealthReply isHealthy)) = Some w'
      /\ app w' = app w
      /\ inflight w' = (remove_nth n (inflight w) ++ [PMetadata])%list
      /\ new_effects w w'
         = ((if isHealthy
             then [ApiStatus "status-dot connected" "API connectée"]
             else [ApiStatus "status-dot error" "API déconnectée";
                   Toast "Impossible de se connecter à l'API" "error"])
            ++ [ConsoleLog "Loading...";
                Fetch "/regions" Api.no_options;
                Fetch "/years" Api.no_options;
                Fetch "/summary" Api.no_options])%list.
Proof.
  intros [s l t] n isHealthy Hnth. cbn [inflight app] in *.
  eexists.
  split; [cbn [step inflight]; rewrite Hnth; cbn [resume]; reflexivity|].
  destruct isHealthy; run_app; cbn [App.app inflight trace];
    repeat split; flatten_trace; apply new_effects_app.
Qed.

Lemma health_check_never_blocks_witness :
  exists w',
    step initial_world (Resolve 0 (HealthReply false)) = Some w'
    /\ app w' = initial_state
    /\ inflight w' = [PMetadata].
Proof.
  destruct (health_check_never_blocks initial_world 0 false eq_refl)
    as (w' & Hstep & Happ & Hin & _).
  exists w'. split; [exact Hstep|]. split; [exact Happ | exact Hin].
Defined.

(** X10. The metadata is taken all or nothing.  When the three replies are
    successes, regions, years and summary are stored together, the filter
    selections are filled and the first page is requested.  When any of
    them is a failure, the whole state is as before, no page is requested,
    the selections are not filled and an error toast is shown. *)
Theorem initial_data_all_or_nothing :
  forall (w : World) (n : nat)
         (regionsData : exn + list string) (yearsData : exn + list Z)
         (summaryData : exn + Summary),
    nth_error (inflight w) n = Some PMetadata ->
    exists w',
      step w (Resolve n (MetadataReply regionsData yearsData summaryData))
      = Some w'
      /\ data (app w') = data (app w)
      /\ pagination (app w') = pagination (app w)
      /\ filters (app w') = filters (app w)
      /\ match regionsData, yearsData, summaryData with
         | inr r, inr y, inr sm =>
             regions (app w') = r /\ years (app w') = y
             /\ summary (app w') = Some sm
             /\ inflight w'
                = (remove_nth n (inflight w)
                   ++ [PRecords (Api.getRecords_endpoint (records_params (app w)))
                                KInitialData])%list
             /\ new_effects w w'
                = [FilterOptions r y;
                   Fetch (Api.getRecords_endpoint (records_params (app w)))
                         Api.no_options]
         | _, _, _ =>
             app w' = app w
             /\ inflight w' = remove_nth n (inflight w)
             /\ In (Toast "Erreur lors du chargement des données" "error")
                   (new_effects w w')
             /\ existsb is_filter_options (new_effects w w') = false
             /\ List.last (new_effects w w') (ConsoleLog "")
                = ConsoleLog "✅ Dashboard initialized"
         end.
Proof.
  intros [s l t] n regionsData yearsData summaryData Hnth.
  cbn [inflight app] in *. eexists.
  split; [cbn [step inflight]; rewrite Hnth; cbn [resume]; reflexivity|].
  destruct regionsData as [e1 | r], yearsData as [e2 | y],
           summaryData as [e3 | sm];
    run_app; cbn [App.app inflight trace];
    (split; [reflexivity|]); (split; [reflexivity|]); (split; [reflexivity|]);
    flatten_trace; rewrite new_effects_app;
    repeat split; cbn; auto 10.
Qed.

Lemma initial_data_all_or_nothing_witness :
  let w := mkWorld initial_state [PMetadata] [] in
  exists w',
    step w (Resolve 0 (MetadataReply (inr ["Bretagne"])
                                     (inl (TypeError "Failed to fetch"))
                                     (inr (mkSummary 2 2 1)))) = Some w'
    /\ app w' = initial_state
    /\ inflight w' = [].
Proof.
  intros w.
  destruct (initial_data_all_or_nothing w 0 (inr ["Bretagne"])
              (inl (TypeError "Failed to fetch")) (inr (mkSummary 2 2 1)) eq_refl)
    as (w' & Hstep & _ & _ & _ & Happ & Hin & _).
  exists w'. split; [exact Hstep|]. split; [exact Happ | exact Hin].
Defined.

(** ** What an event can change *)

Ltac branches :=
  repeat match goal with
         | |- context [if ?b then _ else _] => destruct b eqn:?
         | |- context [match ?x with _ => _ end] =>
             match type of x with
             | list AirRecord => destruct x eqn:?
             | option Z => destruct x eqn:?
             | sum _ _ => destruct x eqn:?
             end
         end.

Ltac close_eq := first [reflexivity | assumption | symmetry; assumption].

Ltac frame_done :=
  cbn; repeat split;
  try close_eq;
  try (left; repeat split; close_eq);
  try (right; repeat esplit; close_eq).

Lemma resume_frame : forall p reply (m : M unit) s l t,
  resume p reply = Some m ->
  let s' := app (exec m (mkWorld s l t)) in
  filters s' = filters s
  /\ page (pagination s') = page (pagination s)
  /\ pageSize (pagination s') = pageSize (pagination s)
  /\ currentPage s' = currentPage s
  /\ leaflet_map s' = leaflet_map s
  /\ mapMarkers s' = mapMarkers s
  /\ ((data s' = data s /\ total (pagination s') = total (pagination s))
      \/ exists r, reply = RecordsReply (inr r)
                   /\ data s' = result_data r
                   /\ total (pagination s') = result_total r)
  /\ ((regions s' = regions s /\ years s' = years s /\ summary s' = summary s)
      \/ exists r y sm, reply = MetadataReply (inr r) (inr y) (inr sm)
                        /\ regions s' = r /\ years s' = y /\ summary s' = Some sm).
Proof.
  intros p reply m s l t H.
  destruct p as [| |endpoint k|endpoint|endpoint pollutant];
    destruct reply as [healthy|rd yd sd|r|r|r]; cbn [resume] in H;
    try discriminate H; injection H as <-.
  - destruct healthy; run_app; frame_done.
  - destruct rd as [?|r0], yd as [?|y0], sd as [?|sm0]; run_app; frame_done.
  - destruct r as [e|r]; destruct k; run_app; cbn; branches; frame_done.
  - destruct r as [e|[]]; run_app; frame_done.
  - destruct r as [e|d]; run_app; frame_done.
Qed.

(** X11. Each part of the state has its own writers.  In one turn of the event
    loop: the filters change only on a filter event; the page only on a
    filter event or a click on previous or next; the record page and the
    total only on a successful reply to a records request, which replaces
    them by the reply; regions, years and summary only on a complete
    metadata reply; the current page only on a navigation; and the page
    size never. *)
Theorem state_parts_have_single_writers :
  forall (w w' : World) (e : Event),
    step w e = Some w' ->
    pageSize (pagination (app w')) = pageSize (pagination (app w))
    /\ (filters (app w') = filters (app w)
        \/ exists field value, e = FilterChange field value)
    /\ (page (pagination (app w')) = page (pagination (app w))
        \/ (exists field value, e = FilterChange field value)
        \/ e = BtnPrev \/ e = BtnNext)
    /\ ((data (app w') = data (app w)
         /\ total (pagination (app w')) = total (pagination (app w)))
        \/ exists k r, e = Resolve k (RecordsReply (inr r))
                       /\ data (app w') = result_data r
                       /\ total (pagination (app w')) = result_total r)
    /\ ((regions (app w') = regions (app w) /\ years (app w') = years (app w)
         /\ summary (app w') = summary (app w))
        \/ exists k r y sm, e = Resolve k (MetadataReply (inr r) (inr y) (inr sm)))
    /\ (currentPage (app w') = currentPage (app w)
        \/ exists page m t, e = Navigate page m t).
Proof.
  intros [s l t] w' e Hstep.
  destruct e as [field value| | | |pg m tr|m|tr|id confirmed|k reply];
    cbn [step] in Hstep.
  - injection Hstep as <-. rewrite filter_handler_exec. cbn [App.app].
    destruct field; cbn; repeat split; eauto 10.
  - injection Hstep as <-. run_app. cbn. repeat split; auto.
  - injection Hstep as <-. run_app. cbn [App.app]. branches; cbn;
      repeat split; auto.
  - injection Hstep as <-. run_app. cbn [App.app]. branches; cbn;
      repeat split; auto.
  - injection Hstep as <-. run_app. cbn [App.app].
    destruct (pg =? "map")%string; [|destruct (pg =? "trends")%string];
      run_app; cbn; branches; cbn; repeat split; eauto 10.
  - injection Hstep as <-. run_app. cbn [App.app]. branches; cbn;
      repeat split; auto.
  - injection Hstep as <-. run_app. cbn. repeat split; auto.
  - injection Hstep as <-. destruct confirmed; run_app; cbn; repeat split; auto.
  - cbn [inflight App.app trace] in Hstep.
    destruct (nth_error l k) as [p|]; [|discriminate Hstep].
    destruct (resume p reply) as [m|] eqn:Hres; [|discriminate Hstep].
    injection Hstep as <-.
    destruct (resume_frame p reply m s (remove_nth k l) t Hres)
      as (Hf & Hp & Hps & Hc & _ & _ & Hd & Hr).
    cbn [App.app].
    split; [exact Hps|]. split; [left; exact Hf|]. split; [left; exact Hp|].
    split.
    { destruct Hd as [Hd | (r & -> & Hd1 & Hd2)]; [left; exact Hd|].
      right. exists k, r. repeat split; assumption. }
    split.
    { destruct Hr as [Hr | (r & y & sm & -> & _)]; [left; exact Hr|].
      right. exists k, r, y, sm. reflexivity. }
    left; exact Hc.
Qed.

Lemma state_parts_have_single_writers_witness :
  let w := mkWorld initial_state [] [] in
  exists w',
    step w (FilterChange FilterYear "2021") = Some w'
    /\ data (app w') = data (app w)
    /\ pageSize (pagination (app w')) = 20.
Proof.
  intros w. exists (exec (filter_handler FilterYear "2021") w).
  split; [reflexivity|].
  destruct (state_parts_have_single_writers w
              (exec (filter_handler FilterYear "2021") w)
              (FilterChange FilterYear "2021") eq_refl)
    as (Hsize & _ & _ & [[Hdata _] | (k & r & Habs & _)] & _).
  - split; [exact Hdata | exact Hsize].
  - discriminate Habs.
Defined.

(** X12. The pagination line disables a button exactly when a click on it
    would do nothing: in every reachable world, the flags that
    [updatePaginationInfo] computes from the state agree with the guards of
    the two listeners, also when there is no result at all. *)
Theorem pagination_buttons_match_listeners :
  forall w : World,
    reachable w ->
    exists (text : string) (prev_disabled next_disabled : bool),
      pagination_info (app w) = PaginationInfo text prev_disabled next_disabled
      /\ (prev_disabled = true <-> step w BtnPrev = Some w)
      /\ (next_disabled = true <-> step w BtnNext = Some w).
Proof.
  intros w Hreach.
  pose proof (reachable_cursor_ok w Hreach) as [Hpage _].
  destruct w as [s l t]. cbn [App.app] in *.
  unfold pagination_info. do 3 eexists. split; [reflexivity|].
  cbn [step]. unfold exec, on_btn_prev_click, on_btn_next_click, bind, get.
  cbn [App.app fst snd]. split.
  - destruct (1 <? page (pagination s)) eqn:Hlt.
    + apply Z.ltb_lt in Hlt. split.
      * intros H. apply Z.leb_le in H. lia.
      * intros H. exfalso.
        change (Some (exec (loadRecords KNone)
                        (mkWorld (set_page (page (pagination s) - 1) s) l t))
                = Some (mkWorld s l t)) in H.
        rewrite loadRecords_exec in H. injection H as _ Hl _.
        apply (f_equal (@List.length Pending)) in Hl.
        rewrite length_app in Hl. cbn [List.length] in Hl. lia.
    + apply Z.ltb_ge in Hlt. split; [reflexivity|].
      intros _. apply Z.leb_le. exact Hlt.
  - destruct (page (pagination s) <? maxPage s) eqn:Hlt.
    + apply Z.ltb_lt in Hlt. split.
      * intros H. apply Z.leb_le in H.
        destruct (maxPage s =? 0) eqn:Hz; [apply Z.eqb_eq in Hz|]; lia.
      * intros H. exfalso.
        change (Some (exec (loadRecords KNone)
                        (mkWorld (set_page (page (pagination s) + 1) s) l t))
                = Some (mkWorld s l t)) in H.
        rewrite loadRecords_exec in H. injection H as _ Hl _.
        apply (f_equal (@List.length Pending)) in Hl.
        rewrite length_app in Hl. cbn [List.length] in Hl. lia.
    + apply Z.ltb_ge in Hlt. split; [reflexivity|].
      intros _. apply Z.leb_le.
      destruct (maxPage s =? 0) eqn:Hz; [apply Z.eqb_eq in Hz|]; lia.
Qed.

Lemma pagination_buttons_match_listeners_witness :
  exists (text : string) (prev_disabled next_disabled : bool),
    pagination_info (app initial_world)
    = PaginationInfo text prev_disabled next_disabled
    /\ (next_disabled = true <-> step initial_world BtnNext = Some initial_world).
Proof.
  destruct (pagination_buttons_match_listeners initial_world reachable_initial)
    as (text & p & n & Hinfo & _ & Hnext).
  exists text, p, n. split; [exact Hinfo | exact Hnext].
Defined.

(** ** The data table *)

(** X13. The table body is never empty: it has one row per record of the page,
    in the order of the page, and the single placeholder row exactly when
    the page is empty. *)
Theorem table_has_a_row_per_record :
  forall d : list AirRecord,
    List.length (table_rows d) = Nat.max 1 (List.length d)
    /\ (d = [] <-> table_rows d = [NoDataRow])
    /\ (forall (i : nat) (record : AirRecord),
          nth_error d i = Some record ->
          nth_error (table_rows d) i = Some (DataRow record))
    /\ (forall w, exists w',
          exec updateDataTable w = w'
          /\ app w' = app w
          /\ trace w' = (trace w ++ [DataTable (table_rows (data (app w)))])%list).
Proof.
  intros d. split; [|split; [|split]].
  - destruct d as [|r d]; cbn; [reflexivity|]. rewrite length_map. reflexivity.
  - split; [intros ->; reflexivity|]. destruct d; cbn; [reflexivity | discriminate].
  - intros i record H. destruct d as [|r d]; [destruct i; discriminate H|].
    unfold table_rows. rewrite nth_error_map, H. reflexivity.
  - intros [s l t]. eexists. split; [reflexivity|]. split; reflexivity.
Qed.

Lemma table_has_a_row_per_record_witness :
  nth_error (table_rows [paris; rennes]) 1 = Some (DataRow rennes).
Proof.
  destruct (table_has_a_row_per_record [paris; rennes]) as (_ & _ & Hnth & _).
  apply (Hnth 1%nat rennes). reflexivity.
Defined.

(** ** The map *)

Lemma nonzero_iff : forall q : Q, nonzero q = true <-> ~ (q == 0)%Q.
Proof.
  intros q. unfold nonzero. rewrite negb_true_iff. split.
  - intros H Heq. apply Qeq_bool_iff in Heq. congruence.
  - intros H. destruct (Qeq_bool q 0) eqn:Hq; [|reflexivity].
    exfalso. apply H. apply Qeq_bool_iff. exact Hq.
Qed.

Lemma getColorForField_number : forall (q : Q) (pollutant : string),
  getColorForField (FNumber q) pollutant = getColorForValue q pollutant.
Proof. reflexivity. Qed.

(** The markers of a list of records, by their records: the records that
    have both coordinates and a truthy value, in their order. *)
Lemma marker_records : forall pollutant d,
  List.map marker_record (flat_map (marker_for pollutant) d)
  = List.filter
      (fun record =>
         match rec_latitude record with Some q => nonzero q | None => false end
         && match rec_longitude record with Some q => nonzero q | None => false end
         && field_truthy (record_get record pollutant)) d.
Proof.
  intros pollutant d. induction d as [|r d IH]; [reflexivity|].
  cbn [flat_map List.filter]. rewrite map_app, IH. unfold marker_for.
  destruct (rec_latitude r) as [lat|]; [|reflexivity].
  destruct (rec_longitude r) as [lng|]; [|rewrite andb_false_r; reflexivity].
  destruct (nonzero lat && nonzero lng && field_truthy (record_get r pollutant));
    reflexivity.
Qed.

Lemma marker_for_shape : forall pollutant record m,
  In m (marker_for pollutant record) ->
  marker_record m = record
  /\ rec_latitude record = Some (marker_latitude m)
  /\ rec_longitude record = Some (marker_longitude m)
  /\ marker_pollutant m = pollutant
  /\ fillColor m = getColorForField (record_get record pollutant) pollutant.
Proof.
  intros pollutant record m. unfold marker_for.
  destruct (rec_latitude record) as [lat|]; [|intros []].
  destruct (rec_longitude record) as [lng|]; [|intros []].
  destruct (nonzero lat && nonzero lng
            && field_truthy (record_get record pollutant)); [|intros []].
  intros [<- | []]. repeat split.
Qed.

Lemma filter_filter : forall (A : Type) (f g : A -> bool) (l : list A),
  List.filter g (List.filter f l) = List.filter (fun x => f x && g x) l.
Proof.
  intros A f g l. induction l as [|x l IH]; [reflexivity|].
  cbn [List.filter]. destruct (f x); cbn [List.filter andb];
    [destruct (g x); rewrite IH; reflexivity | exact IH].
Qed.

(** X14. Redrawing the markers, with the map open.  The markers kept afterwards
    are exactly the new ones, whatever the old ones were: one marker for
    each record of the page, in the order of the page, that is of the
    selected year if one is selected, has a latitude and a longitude that
    are not null and not 0, and for which [record[pollutant]] is truthy;
    [pollutant] is what is selected, and no2 when nothing is.  The marker
    stands at the coordinates of its record, in the colour that
    [getColorForValue] gives [record[pollutant]].  This holds for any name
    selected: for a column that holds a number the colour is the one of
    that number, by the thresholds of the name or the default ones; for a
    name of [Object.prototype] every record with coordinates gets a red
    marker; a name that is no column gives no marker.  The page itself is
    not touched and nothing is requested. *)
Theorem map_markers_reflect_page :
  forall (w : World) (sel : MapSelects),
    leaflet_map (app w) = true ->
    let pollutant :=
      if (map_pollutant sel =? "")%string then "no2" else map_pollutant sel in
    let present (x : option Q) :=
      match x with Some q => negb (Qeq_bool q 0) | None => false end in
    let drawn (record : AirRecord) :=
      match map_year sel with
      | Some yearFilter => rec_annee record =? yearFilter
      | None => true
      end
      && (present (rec_latitude record) && present (rec_longitude record)
          && field_truthy (record_get record pollutant)) in
    exists w',
      step w (MapFilterChange sel) = Some w'
      /\ data (app w') = data (app w)
      /\ inflight w' = inflight w
      /\ trace w' = (trace w ++ [MapMarkers (mapMarkers (app w'))])%list
      /\ List.map marker_record (mapMarkers (app w'))
         = List.filter drawn (data (app w))
      /\ (forall m : Marker,
            In m (mapMarkers (app w')) ->
            rec_latitude (marker_record m) = Some (marker_latitude m)
            /\ rec_longitude (marker_record m) = Some (marker_longitude m)
            /\ marker_pollutant m = pollutant
            /\ fillColor m
               = getColorForField (record_get (marker_record m) pollutant)
                                  pollutant
            /\ (forall value : Q,
                  record_get (marker_record m) pollutant = FNumber value ->
                  fillColor m = getColorForValue value pollutant)
            /\ (inherited pollutant = true -> fillColor m = red))
      /\ (inherited pollutant = true ->
          forall record, drawn record
                         = match map_year sel with
                           | Some yearFilter => rec_annee record =? yearFilter
                           | None => true
                           end
                           && (present (rec_latitude record)
                               && present (rec_longitude record)))
      /\ (forall record,
            record_get record pollutant = FUndefined
            \/ record_get record pollutant = FNull ->
            drawn record = false)
      /\ (forall old : list Marker,
            mapMarkers
              (app (exec (updateMapMarkers sel)
                         (mkWorld (set_mapMarkers old (app w))
                                  (inflight w) (trace w))))
            = mapMarkers (app w')).
Proof.
  intros [s l t] sel Hmap pollutant present drawn. cbn [App.app inflight trace] in *.
  eexists. split; [reflexivity|].
  unfold exec, updateMapMarkers, bind, get, modify, emit, ret.
  cbn [App.app fst snd]. rewrite Hmap. cbn [negb App.app inflight trace fst snd].
  fold pollutant.
  split; [reflexivity|]. split; [reflexivity|]. split; [reflexivity|].
  cbn [mapMarkers set_mapMarkers].
  assert (Hinh : inherited pollutant = true ->
                 forall record, record_get record pollutant = FMember).
  { intros Hi record. unfold record_get. rewrite Hi.
    unfold inherited in Hi. cbn [existsb object_prototype_keys] in Hi.
    repeat match goal with
           | |- context [(pollutant =? ?k)%string] =>
               destruct (String.eqb_spec pollutant k) as [E | _];
               [rewrite E in Hi; discriminate Hi|]
           end.
    reflexivity. }
  split; [|split; [|split; [|split]]].
  - rewrite marker_records. subst drawn present. cbv beta.
    destruct (map_year sel) as [y|].
    + rewrite filter_filter. reflexivity.
    + reflexivity.
  - intros m Hin. apply in_flat_map in Hin. destruct Hin as (record & _ & Hm).
    apply marker_for_shape in Hm.
    destruct Hm as (Hrec & Hlat & Hlng & Hpol & Hcol). subst record.
    repeat split; try assumption.
    + intros value Hv. rewrite Hcol, Hv. apply getColorForField_number.
    + intros Hi. rewrite Hcol. unfold getColorForField. rewrite Hi.
      unfold inherited in Hi. cbn [existsb object_prototype_keys] in Hi.
      unfold thresholds.
      repeat match goal with
             | |- context [(pollutant =? ?k)%string] =>
                 destruct (String.eqb_spec pollutant k) as [E | _];
                 [rewrite E in Hi; discriminate Hi|]
             end.
      reflexivity.
  - intros Hi record. subst drawn. cbv beta. rewrite (Hinh Hi record).
    cbn [field_truthy]. rewrite andb_true_r. reflexivity.
  - intros record Hv. subst drawn. cbv beta.
    destruct Hv as [-> | ->]; cbn [field_truthy];
      rewrite !andb_false_r; reflexivity.
  - intros old. cbn [leaflet_map set_mapMarkers]. rewrite Hmap. reflexivity.
Qed.

Lemma map_markers_reflect_page_witness :
  let w := mkWorld (set_map (set_data [paris; rennes] initial_state)) [] [] in
  exists w',
    step w (MapFilterChange (mkMapSelects "annee" (Some 2021))) = Some w'
    /\ List.map marker_record (mapMarkers (app w')) = [paris; rennes]
    /\ List.map fillColor (mapMarkers (app w')) = [red; red].
Proof.
  intros w.
  destruct (map_markers_reflect_page w (mkMapSelects "annee" (Some 2021)) eq_refl)
    as (w' & Hstep & _ & _ & _ & Hrecords & Hshape & _).
  exists w'. split; [exact Hstep|]. split; [exact Hrecords|].
  destruct (mapMarkers (app w')) as [|m1 [|m2 [|m3 ms]]]; try discriminate Hrecords.
  injection Hrecords as H1 H2.
  destruct (Hshape m1 (or_introl eq_refl)) as (_ & _ & _ & Hc1 & _).
  destruct (Hshape m2 (or_intror (or_introl eq_refl))) as (_ & _ & _ & Hc2 & _).
  cbn [List.map]. rewrite Hc1, Hc2, H1, H2. reflexivity.
Defined.

Lemma resume_keeps_map : forall p reply (m : M unit) s l t,
  resume p reply = Some m ->
  leaflet_map (app (exec m (mkWorld s l t))) = leaflet_map s
  /\ mapMarkers (app (exec m (mkWorld s l t))) = mapMarkers s.
Proof.
  intros p reply m s l t H.
  destruct (resume_frame p reply m s l t H) as (_ & _ & _ & _ & Hm & Hk & _).
  split; assumption.
Qed.

(** X15. The map is created once.  The first navigation to the map page creates
    it and draws the markers of the current page; a later one only sets the
    current page: nothing is created and the markers are not redrawn, even
    if the record page has changed since.  While the map does not exist a
    change of the map selections does nothing, and no other event creates
    or removes the map. *)
Theorem map_is_created_once :
  forall (w : World) (m : MapSelects) (t : TrendSelects),
    (leaflet_map (app w) = true ->
     step w (Navigate "map" m t)
     = Some (mkWorld (set_currentPage "map" (app w)) (inflight w) (trace w)))
    /\ (leaflet_map (app w) = false ->
        step w (MapFilterChange m) = Some w
        /\ exists w',
             step w (Navigate "map" m t) = Some w'
             /\ leaflet_map (app w') = true
             /\ currentPage (app w') = "map"
             /\ data (app w') = data (app w)
             /\ new_effects w w' = [MapCreated; MapMarkers (mapMarkers (app w'))])
    /\ (forall (e : Event) (w' : World),
          step w e = Some w' ->
          leaflet_map (app w') = leaflet_map (app w)
          \/ exists m' t', e = Navigate "map" m' t'
                           /\ leaflet_map (app w') = true).
Proof.
  intros [s l tr] m t. cbn [App.app inflight trace].
  split; [|split].
  - intros Hmap. cbn [step]. unfold exec, navigateTo, initializeMap, bind, get,
      modify, ret. cbn. rewrite Hmap. reflexivity.
  - intros Hmap. split.
    + cbn [step]. unfold exec, updateMapMarkers, bind, get, ret. cbn.
      rewrite Hmap. reflexivity.
    + eexists. split; [reflexivity|].
      unfold exec, navigateTo, initializeMap, updateMapMarkers, bind, get,
        modify, emit, ret. cbn. rewrite Hmap. cbn.
      repeat split. flatten_trace. apply skipn_length_app.
  - intros e w' Hstep.
    destruct e as [field value| | | |pg m' t'|m'|t'|id confirmed|k reply];
      cbn [step] in Hstep.
    + injection Hstep as <-. rewrite filter_handler_exec. cbn [App.app].
      left. destruct field; reflexivity.
    + injection Hstep as <-. left. reflexivity.
    + injection Hstep as <-. left. run_app. cbn [App.app]. branches; reflexivity.
    + injection Hstep as <-. left. run_app. cbn [App.app]. branches; reflexivity.
    + injection Hstep as <-.
      destruct (String.eqb_spec pg "map") as [-> | Hne].
      * destruct (leaflet_map s) eqn:Hmap.
        -- left. run_app. cbn. rewrite Hmap. cbn. exact Hmap.
        -- right. exists m', t'. split; [reflexivity|].
           run_app. cbn. rewrite Hmap. cbn. reflexivity.
      * left. unfold exec, navigateTo, bind, modify. cbn [fst snd App.app].
        apply String.eqb_neq in Hne. rewrite Hne.
        destruct (pg =? "trends")%string; reflexivity.
    + injection Hstep as <-. left. run_app. cbn [App.app]. branches; cbn; auto.
    + injection Hstep as <-. left. reflexivity.
    + injection Hstep as <-. left. destruct confirmed; reflexivity.
    + cbn [inflight App.app trace] in Hstep.
      destruct (nth_error l k) as [p|]; [|discriminate Hstep].
      destruct (resume p reply) as [c|] eqn:Hres; [|discriminate Hstep].
      injection Hstep as <-. left.
      apply (resume_keeps_map p reply c s (remove_nth k l) tr Hres).
Qed.

Lemma map_is_created_once_witness :
  let w := mkWorld (set_map (set_data [paris] initial_state)) [] [] in
  step w (Navigate "map" (mkMapSelects "no2" None) (mkTrendSelects "" ""))
  = Some (mkWorld (set_currentPage "map" (app w)) [] []).
Proof.
  intros w.
  destruct (map_is_created_once w (mkMapSelects "no2" None) (mkTrendSelects "" ""))
    as (Honce & _).
  apply Honce. reflexivity.
Defined.

Lemma color_for_monotone : forall (v1 v2 : Q) (t : Thresholds),
  (v1 <= v2)%Q ->
  (color_for v2 t = green -> color_for v1 t = green)
  /\ (color_for v1 t = red -> color_for v2 t = red).
Proof.
  intros v1 v2 t Hle. unfold color_for.
  destruct (Qle_bool v1 (inject_Z (low t))) eqn:H1l;
    destruct (Qle_bool v2 (inject_Z (low t))) eqn:H2l;
    destruct (Qle_bool v1 (inject_Z (high t))) eqn:H1h;
    destruct (Qle_bool v2 (inject_Z (high t))) eqn:H2h;
    split; intros H; try discriminate H; try reflexivity; exfalso.
  all: repeat match goal with
              | H : Qle_bool _ _ = true |- _ => apply Qle_bool_iff in H
              | H : Qle_bool ?a ?b = false |- _ =>
                  assert (~ (a <= b)%Q)
                    by (let K := fresh in intros K; apply Qle_bool_iff in K;
                        congruence);
                  clear H
              end.
  all: match goal with
       | N : ~ (?a <= ?b)%Q, P : (?c <= ?b)%Q, L : (?a <= ?c)%Q |- _ =>
           apply N; apply Qle_trans with c; assumption
       end.
Qed.

(** X16. The colour of a reading.  For every pollutant name the colour is one
    of green, yellow and red, and it never improves as the reading grows:
    below a green reading all is green, above a red one all is red.  A name
    that the thresholds table lacks is judged by the thresholds of no2,
    20 and 40, unless every object has a member of that name (as
    [constructor]), in which case every reading is red. *)
Theorem color_scale_is_monotone :
  forall (v1 v2 : Q) (pollutant : string),
    (v1 <= v2)%Q ->
    (getColorForValue v1 pollutant = green
     \/ getColorForValue v1 pollutant = yellow
     \/ getColorForValue v1 pollutant = red)
    /\ (getColorForValue v2 pollutant = green ->
        getColorForValue v1 pollutant = green)
    /\ (getColorForValue v1 pollutant = red ->
        getColorForValue v2 pollutant = red)
    /\ (thresholds pollutant = None -> inherited pollutant = false ->
        getColorForValue v1 pollutant = getColorForValue v1 "no2")
    /\ (inherited pollutant = true -> getColorForValue v1 pollutant = red).
Proof.
  intros v1 v2 pollutant Hle.
  assert (Hthree : forall v t, color_for v t = green \/ color_for v t = yellow
                               \/ color_for v t = red).
  { intros v t. unfold color_for.
    destruct (Qle_bool v (inject_Z (low t))); [auto|].
    destruct (Qle_bool v (inject_Z (high t))); auto. }
  assert (Hinh : inherited pollutant = true -> thresholds pollutant = None).
  { unfold inherited, thresholds. cbn [existsb object_prototype_keys].
    repeat match goal with
           | |- context [(pollutant =? ?k)%string] =>
               destruct (String.eqb_spec pollutant k); [subst; cbn; congruence|]
           end.
    reflexivity. }
  unfold getColorForValue.
  destruct (thresholds pollutant) as [t|] eqn:Ht.
  - destruct (color_for_monotone v1 v2 t Hle) as [Hg Hr].
    repeat split; auto.
    + discriminate.
    + intros Hi. apply Hinh in Hi. congruence.
  - destruct (inherited pollutant) eqn:Hi.
    + repeat split; auto; try discriminate.
    + destruct (color_for_monotone v1 v2 (mkThresholds 20 40) Hle) as [Hg Hr].
      repeat split; auto. discriminate.
Qed.

Lemma color_scale_is_monotone_witness :
  getColorForValue 12 "so2" = getColorForValue 12 "no2"
  /\ (getColorForValue 12 "so2" = red -> getColorForValue 41 "so2" = red).
Proof.
  destruct (color_scale_is_monotone 12 41 "so2" ltac:(discriminate))
    as (_ & _ & Hr & Hdefault & _).
  split; [apply Hdefault; reflexivity | exact Hr].
Defined.

(** ** The trends page *)

Lemma trend_endpoint_bare : forall pollutant : string,
  Api.getPollutantTrend_endpoint (VStr pollutant) [("region", VStr "")]
  = "/trends/" ++ pollutant.
Proof.
  intros pollutant. unfold Api.getPollutantTrend_endpoint, Api.with_query.
  cbn. rewrite append_empty_r. reflexivity.
Qed.

(** X17. Loading a trend never touches the application state.  The request is
    for the selected pollutant, no2 when none is selected, and names no
    region when none is selected.  Its reply is drawn whenever it arrives,
    also after the user has left the trends page: a success draws the chart
    and the analysis of [analyzeTrend], a failure draws nothing and shows
    an error toast. *)
Theorem trend_reply_is_always_drawn :
  forall (w : World) (sel : TrendSelects) (pg : string)
         (m : MapSelects) (t : TrendSelects)
         (reply : exn + list Charts.TrendPoint),
    pg <> "map" -> pg <> "trends" ->
    let pollutant :=
      if (trend_pollutant sel =? "")%string then "no2" else trend_pollutant sel in
    let endpoint :=
      Api.getPollutantTrend_endpoint (VStr pollutant)
                                     [("region", VStr (trend_region sel))] in
    exists w1 w2 w3,
      step w (TrendFilterChange sel) = Some w1
      /\ app w1 = app w
      /\ inflight w1 = (inflight w ++ [PTrend endpoint pollutant])%list
      /\ (trend_region sel = "" -> endpoint = "/trends/" ++ pollutant)
      /\ step w1 (Navigate pg m t) = Some w2
      /\ currentPage (app w2) = pg
      /\ step w2 (Resolve (List.length (inflight w)) (TrendReply reply)) = Some w3
      /\ app w3 = app w2
      /\ inflight w3 = inflight w
      /\ new_effects w2 w3
         = match reply with
           | inr result_data =>
               [TrendChart "chart-trend" result_data pollutant;
                TrendAnalysis (Charts.analyzeTrend result_data pollutant)]
           | inl error =>
               [ConsoleError ("API Error [" ++ endpoint ++ "]:") error;
                ConsoleError "Error loading trend data:" error;
                Toast "Erreur lors du chargement des tendances" "error"]
           end.
Proof.
  intros [s l tr] sel pg m t reply Hmap Htrends pollutant endpoint.
  cbn [App.app inflight trace].
  apply String.eqb_neq in Hmap. apply String.eqb_neq in Htrends.
  do 3 eexists.
  split; [reflexivity|].
  unfold exec at 1 2 3. unfold loadTrendData, bind, emit, await.
  cbn [fst snd App.app inflight trace]. fold pollutant. fold endpoint.
  split; [reflexivity|]. split; [reflexivity|].
  split; [intros Hr; subst endpoint; rewrite Hr; apply trend_endpoint_bare|].
  split.
  { cbn [step]. unfold exec, navigateTo, bind, modify.
    cbn [fst snd App.app inflight trace]. rewrite Hmap, Htrends. reflexivity. }
  unfold ret. cbn [snd App.app]. split; [reflexivity|].
  split.
  { cbn [step inflight]. rewrite nth_error_snoc. cbn [resume]. reflexivity. }
  cbn [App.app trace inflight]. rewrite remove_nth_snoc.
  set (t2 := (tr ++ [Fetch endpoint Api.no_options])%list).
  destruct reply as [error | d]; run_app; cbn [App.app inflight trace];
    repeat split; flatten_trace; apply new_effects_app.
Qed.

Lemma trend_reply_is_always_drawn_witness :
  let w := mkWorld initial_state [] [] in
  exists w1 w2 w3,
    step w (TrendFilterChange (mkTrendSelects "" "")) = Some w1
    /\ step w1 (Navigate "data" (mkMapSelects "" None) (mkTrendSelects "" ""))
       = Some w2
    /\ step w2 (Resolve 0 (TrendReply (inr []))) = Some w3
    /\ new_effects w2 w3
       = [TrendChart "chart-trend" [] "no2";
          TrendAnalysis "Données insuffisantes pour l'analyse."].
Proof.
  intros w.
  destruct (trend_reply_is_always_drawn w (mkTrendSelects "" "") "data"
              (mkMapSelects "" None) (mkTrendSelects "" "") (inr [])
              ltac:(discriminate) ltac:(discriminate))
    as (w1 & w2 & w3 & H1 & _ & _ & _ & H2 & _ & H3 & _ & _ & Hfx).
  exists w1, w2, w3. repeat split; assumption.
Defined.

(** ** The requests in flight *)

Section Keeping.
Context {A B : Type}.

Lemma keeps_ret : forall a : A, Inv.keeps (ret a).
Proof. intros a w H. exact H. Qed.

Lemma keeps_bind : forall (m : M A) (f : A -> M B),
  Inv.keeps m -> (forall a, Inv.keeps (f a)) -> Inv.keeps (bind m f).
Proof.
  intros m f Hm Hf w H. unfold bind.
  specialize (Hm w H). destruct (m w) as [a w1]. apply Hf. exact Hm.
Qed.

Lemma keeps_get_bind : forall f : AppState -> M B,
  (forall s, cursor_ok s -> Inv.keeps (f s)) -> Inv.keeps (bind get f).
Proof. intros f Hf w H. unfold bind, get. apply Hf; [apply H | exact H]. Qed.
End Keeping.

Lemma keeps_emit : forall e, Inv.keeps (emit e).
Proof. intros e w H. exact H. Qed.

Lemma keeps_await : forall p, Inv.request_ok p -> Inv.keeps (await p).
Proof.
  intros p Hp w [Hc Hf]. split; [exact Hc|].
  cbn. apply Forall_app. split; [exact Hf | constructor; [exact Hp | constructor]].
Qed.

Lemma keeps_modify : forall f : AppState -> AppState,
  (forall s, cursor_ok s -> cursor_ok (f s)) -> Inv.keeps (modify f).
Proof. intros f Hf w [Hc Hl]. split; [apply Hf; exact Hc | exact Hl]. Qed.

Ltac keep :=
  repeat first
    [ apply keeps_ret
    | apply keeps_emit
    | apply keeps_await;
      first [ exact I | eexists; split; [eassumption | reflexivity] ]
    | apply keeps_get_bind; intros ? ?
    | apply keeps_bind; [| intros ?]
    | apply keeps_modify; intros ? ?; cursor_arith
    | match goal with
      | |- Inv.keeps (if ?b then _ else _) => destruct b eqn:?
      | |- Inv.keeps (match ?x with _ => _ end) => destruct x eqn:?
      end
    | progress unfold loadRecords, loadRecords_resumed, loadRecords_try,
        after_loadRecords, apiFetch_log, showToast, showLoading,
        updateDataTable, updatePaginationInfo, updateDashboardStats,
        createDashboardCharts, populateFilters, updateMapMarkers,
        initializeMap, navigateTo, loadTrendData, loadTrendData_resumed,
        handleDeleteRecord, handleDeleteRecord_resumed,
        checkApiStatus_resumed, loadInitialData, loadInitialData_resumed,
        loadInitialData_failed, filter_handler, on_filter_region_change,
        on_filter_year_change, on_data_region_change,
        on_search_commune_input, on_btn_prev_click, on_btn_next_click ].

Lemma resume_keeps : forall p reply (m : M unit),
  resume p reply = Some m -> Inv.keeps m.
Proof.
  intros p reply m H.
  destruct p, reply; cbn in H; try discriminate H;
    injection H as <-; keep.
Qed.

Lemma Forall_remove_nth : forall (P : Pending -> Prop) k l,
  Forall P l -> Forall P (remove_nth k l).
Proof.
  intros P k l H. unfold remove_nth. apply Forall_app. split.
  - rewrite <- (firstn_skipn k l) in H. apply Forall_app in H. apply H.
  - rewrite <- (firstn_skipn (S k) l) in H. apply Forall_app in H. apply H.
Qed.

Lemma step_keeps : forall w e w',
  Inv.world_ok w -> step w e = Some w' -> Inv.world_ok w'.
Proof.
  intros w e w' Hok Hstep.
  destruct e; cbn [step] in Hstep;
    try (injection Hstep as <-; unfold exec;
         match goal with
         | |- Inv.world_ok (snd (?m w)) =>
             assert (Hm : Inv.keeps m) by keep; exact (Hm w Hok)
         end).
  destruct (nth_error (inflight w) k) as [p|]; [|discriminate Hstep].
  destruct (resume p reply) as [m|] eqn:Hres; [|discriminate Hstep].
  injection Hstep as <-.
  apply (resume_keeps p reply m Hres).
  destruct Hok as [Hc Hl]. split; [exact Hc|].
  cbn [inflight]. apply Forall_remove_nth. exact Hl.
Qed.

Lemma reachable_world_ok : forall w, reachable w -> Inv.world_ok w.
Proof.
  induction 1 as [|w e w' _ IH Hstep].
  - split; [split; [cbn; lia | reflexivity]|].
    constructor; [exact I | constructor].
  - exact (step_keeps w e w' IH Hstep).
Qed.

Lemma records_query_of_ok_state : forall s : AppState,
  cursor_ok s ->
  exists query : string,
    Api.getRecords_endpoint (records_params s) = "/records?" ++ query
    /\ In ("page", string_of_Z (page (pagination s))) (Server.parse_query query)
    /\ In ("page_size", "20") (Server.parse_query query).
Proof.
  intros s [Hpage Hsize].
  exists (Url.toString (Api.getRecords_queryParams (records_params s))).
  rewrite parse_query_toString.
  assert (Hp : truthy (VNum (page (pagination s))) = true).
  { cbn. apply negb_true_iff. apply Z.eqb_neq. lia. }
  unfold Api.getRecords_endpoint, Api.getRecords_queryParams, Url.append.
  cbn [lookup records_params String.eqb Ascii.eqb Bool.eqb].
  rewrite Hp, Hsize.
  destruct (truthy (VStr (commune (filters s))));
    destruct (truthy (VStr (region (filters s))));
    destruct (truthy (VStr (year (filters s))));
    cbn; (split; [reflexivity | split; auto 10]).
Qed.

(** X18. In every reachable world the page size is 20 and the page is at least
    1, and every records request in flight was built from such a state: it
    has a query string, which asks for a page of at least 1 and for the
    page size 20. *)
Theorem records_requests_are_well_formed :
  forall w : World,
    reachable w ->
    pageSize (pagination (app w)) = 20
    /\ 1 <= page (pagination (app w))
    /\ forall (endpoint : string) (k : Cont),
         In (PRecords endpoint k) (inflight w) ->
         exists (query : string) (p : Z),
           1 <= p
           /\ endpoint = "/records?" ++ query
           /\ In ("page", string_of_Z p) (Server.parse_query query)
           /\ In ("page_size", "20") (Server.parse_query query).
Proof.
  intros w Hreach.
  destruct (reachable_world_ok w Hreach) as [[Hpage Hsize] Hall].
  split; [exact Hsize|]. split; [exact Hpage|].
  intros endpoint k Hin.
  rewrite Forall_forall in Hall. specialize (Hall _ Hin).
  destruct Hall as (s & Hs & ->).
  destruct (records_query_of_ok_state s Hs) as (query & Hq & Hp & Hps).
  exists query, (page (pagination s)).
  split; [apply Hs|]. split; [exact Hq|]. split; assumption.
Qed.

Lemma records_requests_are_well_formed_witness :
  pageSize (pagination (app initial_world)) = 20
  /\ 1 <= page (pagination (app initial_world)).
Proof.
  destruct (records_requests_are_well_formed initial_world reachable_initial)
    as (Hsize & Hpage & _).
  split; assumption.
Defined.

(* ================================================================== *)
(** * Properties of [debounce] *)
(* ================================================================== *)

Section DebounceFacts.
Context {Args : Type}.

Lemma executedFunction_single : forall (args : Args) st,
  Debounce.single_timer st ->
  Debounce.timers (Debounce.executedFunction args st)
  = [(Debounce.next_id st, args)]
  /\ Debounce.timeout (Debounce.executedFunction args st)
     = Some (Debounce.next_id st)
  /\ Debounce.calls (Debounce.executedFunction args st) = Debounce.calls st.
Proof.
  intros args st [Hnone | (id & a & Hone & Hid)];
    unfold Debounce.executedFunction; cbn.
  - rewrite Hnone. destruct (Debounce.timeout st); cbn; auto.
  - rewrite Hone, Hid. cbn. rewrite Nat.eqb_refl. cbn. auto.
Qed.

Lemma executedFunction_keeps_single : forall (args : Args) st,
  Debounce.single_timer st ->
  Debounce.single_timer (Debounce.executedFunction args st).
Proof.
  intros args st H. destruct (executedFunction_single args st H) as (Ht & Hid & _).
  right. exists (Debounce.next_id st), args. split; assumption.
Qed.

Lemma elapse_single : forall (id : nat) (st st' : Debounce.State Args),
  Debounce.single_timer st -> Debounce.elapse id st = Some st' ->
  exists args,
    Debounce.timers st = [(id, args)]
    /\ Debounce.timers st' = []
    /\ Debounce.calls st' = (Debounce.calls st ++ [args])%list.
Proof.
  intros id st st' [Hnone | (i & a & Hone & Hid)] H;
    unfold Debounce.elapse in H.
  - rewrite Hnone in H. discriminate H.
  - rewrite Hone in H. cbn in H.
    destruct (Nat.eqb_spec i id) as [-> | Hne]; [|discriminate H].
    injection H as <-. exists a. rewrite Hone. cbn. rewrite Hid. cbn. auto.
Qed.

Lemma reachable_single_timer : forall st : Debounce.State Args,
  Debounce.reachable st -> Debounce.single_timer st.
Proof.
  induction 1 as [|st e st' _ IH Hstep].
  - left. reflexivity.
  - destruct e as [args | id]; cbn in Hstep.
    + injection Hstep as <-. apply executedFunction_keeps_single. exact IH.
    + destruct (elapse_single id st st' IH Hstep) as (a & _ & Hnil & _).
      left. exact Hnil.
Qed.

Lemma burst_snoc : forall (st : Debounce.State Args) argss last,
  Debounce.burst st (argss ++ [last])
  = Debounce.executedFunction last (Debounce.burst st argss).
Proof. intros st argss last. unfold Debounce.burst. rewrite fold_left_app. reflexivity. Qed.

Lemma burst_keeps : forall argss (st : Debounce.State Args),
  Debounce.single_timer st ->
  Debounce.single_timer (Debounce.burst st argss)
  /\ Debounce.calls (Debounce.burst st argss) = Debounce.calls st.
Proof.
  induction argss as [|a argss IH]; intros st H; [split; [exact H | reflexivity]|].
  change (Debounce.burst st (a :: argss))
    with (Debounce.burst (Debounce.executedFunction a st) argss).
  destruct (IH (Debounce.executedFunction a st)
               (executedFunction_keeps_single a st H)) as [Hs Hc].
  split; [exact Hs|]. rewrite Hc.
  apply (executedFunction_single a st H).
Qed.

Lemma burst_then_elapse :
  forall (st : Debounce.State Args) (argss : list Args) (last : Args),
    Debounce.single_timer st ->
    let st1 := Debounce.burst st (argss ++ [last]) in
    Debounce.calls st1 = Debounce.calls st
    /\ exists id : nat,
         Debounce.timers st1 = [(id, last)]
         /\ (forall other, other <> id -> Debounce.elapse other st1 = None)
         /\ exists st2,
              Debounce.elapse id st1 = Some st2
              /\ Debounce.calls st2 = (Debounce.calls st ++ [last])%list
              /\ Debounce.timers st2 = []
              /\ (forall any, Debounce.elapse any st2 = None).
Proof.
  intros st argss last Hsingle st1. subst st1. rewrite burst_snoc.
  destruct (burst_keeps argss st Hsingle) as [Hs Hc].
  destruct (executedFunction_single last _ Hs) as (Ht & Hid & Hcalls).
  split; [rewrite Hcalls; exact Hc|].
  exists (Debounce.next_id (Debounce.burst st argss)).
  split; [exact Ht|]. split.
  - intros other Hne. unfold Debounce.elapse. rewrite Ht. cbn.
    destruct (Nat.eqb_spec (Debounce.next_id (Debounce.burst st argss)) other);
      [congruence | reflexivity].
  - unfold Debounce.elapse at 1. rewrite Ht. cbn. rewrite Nat.eqb_refl.
    eexists. split; [reflexivity|].
    cbn. rewrite Hc. repeat split.
Qed.

(** X19. Calls made in a burst are coalesced.  From any reachable state of a
    debounced function, however many calls are made before a timer elapses,
    the wrapped function is not called meanwhile; exactly one timer is then
    registered, the one of the last call; no other timer can elapse; and
    when it does, the wrapped function is called once, with the arguments
    of the last call, and no timer is left. *)
Theorem debounce_coalesces_a_burst :
  forall (st : Debounce.State Args) (argss : list Args) (last : Args),
    Debounce.reachable st ->
    let st1 := Debounce.burst st (argss ++ [last]) in
    Debounce.calls st1 = Debounce.calls st
    /\ exists id : nat,
         Debounce.timers st1 = [(id, last)]
         /\ (forall other, other <> id -> Debounce.elapse other st1 = None)
         /\ exists st2,
              Debounce.elapse id st1 = Some st2
              /\ Debounce.calls st2 = (Debounce.calls st ++ [last])%list
              /\ Debounce.timers st2 = []
              /\ (forall any, Debounce.elapse any st2 = None).
Proof.
  intros st argss last Hreach.
  apply burst_then_elapse. apply reachable_single_timer. exact Hreach.
Qed.
End DebounceFacts.

Lemma debounce_coalesces_a_burst_witness :
  Debounce.calls (Debounce.burst Debounce.initial ["R"; "Re"; "Ren"]) = []
  /\ exists id : nat,
       Debounce.timers (Debounce.burst Debounce.initial ["R"; "Re"; "Ren"])
       = [(id, "Ren")].
Proof.
  destruct (debounce_coalesces_a_burst Debounce.initial ["R"; "Re"] "Ren"
              (Debounce.reachable_initial string)) as (Hcalls & id & Htimers & _).
  split; [exact Hcalls|]. exists id. exact Htimers.
Defined.

(** X20. For the commune search this means one request per burst of keystrokes:
    after the keystrokes and the quiet period, the debounced listener has
    handed the application a single input event, with the last text, and
    that event sends one records request for page 1 with this text as the
    commune filter. *)
Theorem commune_search_sends_one_request :
  forall (keystrokes : list string) (last : string) (w : World),
    exists (id : nat) (st2 : Debounce.State string) (w' : World),
      Debounce.timers (Debounce.burst Debounce.initial (keystrokes ++ [last]))
      = [(id, last)]
      /\ Debounce.elapse id
           (Debounce.burst Debounce.initial (keystrokes ++ [last])) = Some st2
      /\ Debounce.commune_events st2 = [FilterChange SearchCommune last]
      /\ run w (Debounce.commune_events st2) = Some w'
      /\ commune (filters (app w')) = last
      /\ page (pagination (app w')) = 1
      /\ List.length (inflight w') = S (List.length (inflight w)).
Proof.
  intros keystrokes last [s l t].
  destruct (burst_then_elapse Debounce.initial keystrokes last
              (or_introl eq_refl))
    as (_ & id & Htimers & _ & st2 & Helapse & Hcalls & _).
  exists id, st2. eexists.
  split; [exact Htimers|]. split; [exact Helapse|].
  unfold Debounce.commune_events. rewrite Hcalls. cbn [Debounce.calls Debounce.initial List.app List.map].
  split; [reflexivity|].
  cbn [run]. rewrite step_filter_change.
  split; [reflexivity|]. cbn [App.app inflight].
  repeat split. rewrite length_app. cbn. lia.
Qed.

(* ================================================================== *)
(** * Further properties of the trend analysis *)
(* ================================================================== *)

Lemma non_null_values_length : forall d : list Charts.TrendPoint,
  (List.length (Charts.non_null_values d) <= List.length d)%nat.
Proof.
  induction d as [|p d IH]; [apply Nat.le_refl|].
  cbn. destruct (Charts.tp_value p); cbn; lia.
Qed.

Lemma analyzeTrend_by_values : forall d pollutant,
  Charts.analyzeTrend d pollutant
  = match Charts.non_null_values d with
    | firstValue :: (_ :: _) as rest =>
        Charts.analyzeTrend
          (List.map (fun v => Charts.mkPoint 0 (Some v)) (firstValue :: rest))
          pollutant
    | _ => Charts.insufficient
    end.
Proof.
  intros d pollutant. unfold Charts.analyzeTrend.
  pose proof (non_null_values_length d) as Hlen.
  assert (Hmap : forall vs, Charts.non_null_values
                              (List.map (fun v => Charts.mkPoint 0 (Some v)) vs) = vs).
  { induction vs as [|v vs IH]; [reflexivity|]. cbn. rewrite IH. reflexivity. }
  destruct (Charts.non_null_values d) as [|v1 [|v2 vs]] eqn:Hv.
  - destruct (Z.of_nat (List.length d) <? 2); reflexivity.
  - destruct (Z.of_nat (List.length d) <? 2); reflexivity.
  - assert (H2 : (Z.of_nat (List.length d) <? 2) = false).
    { apply Z.ltb_ge. cbn [List.length] in Hlen. lia. }
    rewrite H2, Hmap.
    assert (H2' : (Z.of_nat (List.length
                     (List.map (fun v => Charts.mkPoint 0 (Some v))
                               (v1 :: v2 :: vs))) <? 2) = false).
    { apply Z.ltb_ge. rewrite length_map. cbn [List.length]. lia. }
    rewrite H2'. reflexivity.
Qed.

(** X21. [analyzeTrend] answers that the data is insufficient exactly when the
    series has fewer than two values that are not null; and its answer
    depends on nothing but these values, in their order: the years and the
    points without a value play no part. *)
Theorem analyzeTrend_needs_two_values :
  forall (d d' : list Charts.TrendPoint) (pollutant : string),
    (Charts.analyzeTrend d pollutant = Charts.insufficient
     <-> (List.length (Charts.non_null_values d) < 2)%nat)
    /\ (Charts.non_null_values d = Charts.non_null_values d' ->
        Charts.analyzeTrend d pollutant = Charts.analyzeTrend d' pollutant)
    /\ Charts.analyzeTrend [] pollutant = Charts.insufficient.
Proof.
  intros d d' pollutant. split; [|split].
  - split.
    + intros H. rewrite analyzeTrend_by_values in H.
      destruct (Charts.non_null_values d) as [|v1 [|v2 vs]]; cbn; try lia.
      exfalso. revert H. unfold Charts.analyzeTrend.
      cbn [List.map List.length Charts.non_null_values Charts.tp_value].
      destruct (Z.of_nat (S (S (List.length
                 (List.map (fun v => Charts.mkPoint 0 (Some v)) vs)))) <? 2) eqn:Hl.
      * apply Z.ltb_lt in Hl. lia.
      * cbn. discriminate.
    + intros H. rewrite analyzeTrend_by_values.
      destruct (Charts.non_null_values d) as [|v1 [|v2 vs]];
        cbn in H; try reflexivity. lia.
  - intros H. rewrite (analyzeTrend_by_values d), (analyzeTrend_by_values d'), H.
    reflexivity.
  - reflexivity.
Qed.

Lemma analyzeTrend_needs_two_values_witness :
  Charts.analyzeTrend [Charts.mkPoint 2019 (Some 30%Q); Charts.mkPoint 2020 None]
                      "no2"
  = Charts.analyzeTrend [Charts.mkPoint 2021 (Some 30%Q)] "no2".
Proof.
  destruct (analyzeTrend_needs_two_values
              [Charts.mkPoint 2019 (Some 30%Q); Charts.mkPoint 2020 None]
              [Charts.mkPoint 2021 (Some 30%Q)] "no2") as (_ & Hsame & _).
  apply Hsame. reflexivity.
Defined.

Lemma floor_ge_iff : forall (x : Q) (k : Z),
  (k <= Qfloor x)%Z <-> (inject_Z k <= x)%Q.
Proof.
  intros x k. split.
  - intros H. apply Qle_trans with (inject_Z (Qfloor x)); [|apply Qfloor_le].
    rewrite <- Zle_Qle. exact H.
  - intros H. rewrite <- (Qfloor_Z k). apply Qfloor_resp_le. exact H.
Qed.

Lemma Qlt_bool_iff : forall a b : Q, Num.Qlt_bool a b = true <-> (a < b)%Q.
Proof.
  intros a b. unfold Num.Qlt_bool. rewrite negb_true_iff. split.
  - intros H. apply Qnot_le_lt. intros Hle. apply Qle_bool_iff in Hle. congruence.
  - intros H. destruct (Qle_bool b a) eqn:Hb; [|reflexivity].
    apply Qle_bool_iff in Hb. exfalso. apply (Qlt_not_le _ _ H). exact Hb.
Qed.

Lemma Qlt_bool_false_iff : forall a b : Q, Num.Qlt_bool a b = false <-> (b <= a)%Q.
Proof.
  intros a b. unfold Num.Qlt_bool. rewrite negb_false_iff. apply Qle_bool_iff.
Qed.

(** The branch taken for a count of tenths. *)
Lemma classify_digits : forall (negative : bool) (n : Z),
  0 <= n ->
  Charts.classify (Num.Digits negative n)
  = if negative
    then (if 100 <? n then Charts.SignificantDown
          else if 0 <? n then Charts.SlightDown else Charts.Stable)
    else (if 100 <? n then Charts.ConcerningUp
          else if 0 <? n then Charts.SlightUp else Charts.Stable).
Proof.
  intros negative n Hn.
  unfold Charts.classify, Num.gt, Num.lt, Num.fixed_number,
    Charts.minus_ten, Charts.ten, Charts.zero.
  destruct negative.
  - destruct (Z.ltb_spec 100 n) as [H100 | H100].
    + assert (H : Num.Qlt_bool (- (n # 10)) (-10) = true)
        by (apply Qlt_bool_iff; unfold Qlt; cbn; lia).
      rewrite H. reflexivity.
    + assert (H : Num.Qlt_bool (- (n # 10)) (-10) = false)
        by (apply Qlt_bool_false_iff; unfold Qle; cbn; lia).
      rewrite H.
      destruct (Z.ltb_spec 0 n) as [H0 | H0].
      * assert (H' : Num.Qlt_bool (- (n # 10)) 0 = true)
          by (apply Qlt_bool_iff; unfold Qlt; cbn; lia).
        rewrite H'. reflexivity.
      * assert (H' : Num.Qlt_bool (- (n # 10)) 0 = false)
          by (apply Qlt_bool_false_iff; unfold Qle; cbn; lia).
        rewrite H'.
        assert (H1 : Num.Qlt_bool 10 (- (n # 10)) = false)
          by (apply Qlt_bool_false_iff; unfold Qle; cbn; lia).
        assert (H2 : Num.Qlt_bool 0 (- (n # 10)) = false)
          by (apply Qlt_bool_false_iff; unfold Qle; cbn; lia).
        rewrite H1, H2. reflexivity.
  - assert (H : Num.Qlt_bool (n # 10) (-10) = false)
      by (apply Qlt_bool_false_iff; unfold Qle; cbn; lia).
    assert (H' : Num.Qlt_bool (n # 10) 0 = false)
      by (apply Qlt_bool_false_iff; unfold Qle; cbn; lia).
    rewrite H, H'.
    destruct (Z.ltb_spec 100 n) as [H100 | H100].
    + assert (H1 : Num.Qlt_bool 10 (n # 10) = true)
        by (apply Qlt_bool_iff; unfold Qlt; cbn; lia).
      rewrite H1. reflexivity.
    + assert (H1 : Num.Qlt_bool 10 (n # 10) = false)
        by (apply Qlt_bool_false_iff; unfold Qle; cbn; lia).
      rewrite H1.
      destruct (Z.ltb_spec 0 n) as [H0 | H0].
      * assert (H2 : Num.Qlt_bool 0 (n # 10) = true)
          by (apply Qlt_bool_iff; unfold Qlt; cbn; lia).
        rewrite H2. reflexivity.
      * assert (H2 : Num.Qlt_bool 0 (n # 10) = false)
          by (apply Qlt_bool_false_iff; unfold Qle; cbn; lia).
        rewrite H2. reflexivity.
Qed.

Ltac q_consts :=
  change (inject_Z (100 + 1)) with 101%Q in *;
  change (inject_Z (0 + 1)) with 1%Q in *;
  change (inject_Z 0) with 0%Q in *.

(** The branch taken for a finite change [c], by the value of [c]. *)
Lemma classify_finite : forall c : Q,
  ((c <= - (1005 # 100))%Q ->
   Charts.classify (Num.toFixed1 (Num.Finite c)) = Charts.SignificantDown)
  /\ ((- (1005 # 100) < c)%Q -> (c <= - (5 # 100))%Q ->
      Charts.classify (Num.toFixed1 (Num.Finite c)) = Charts.SlightDown)
  /\ ((- (5 # 100) < c)%Q -> (c < 5 # 100)%Q ->
      Charts.classify (Num.toFixed1 (Num.Finite c)) = Charts.Stable)
  /\ ((5 # 100 <= c)%Q -> (c < 1005 # 100)%Q ->
      Charts.classify (Num.toFixed1 (Num.Finite c)) = Charts.SlightUp)
  /\ ((1005 # 100 <= c)%Q ->
      Charts.classify (Num.toFixed1 (Num.Finite c)) = Charts.ConcerningUp).
Proof.
  intros c. unfold Num.toFixed1.
  destruct (Num.Qlt_bool c 0) eqn:Hneg.
  - apply Qlt_bool_iff in Hneg.
    assert (Hn : 0 <= Qfloor (- c * 10 + (1 # 2))%Q)
      by (apply floor_ge_iff; q_consts; lra).
    rewrite (classify_digits true _ Hn).
    assert (H100 : forall k : Z,
               (k <? Qfloor (- c * 10 + (1 # 2))%Q) = true
               <-> (inject_Z (k + 1) <= - c * 10 + (1 # 2))%Q).
    { intros k. rewrite Z.ltb_lt, <- floor_ge_iff. lia. }
    repeat split; intros.
    + assert (E : (100 <? Qfloor (- c * 10 + (1 # 2))%Q) = true)
        by (apply H100; q_consts; lra).
      rewrite E. reflexivity.
    + assert (E : (100 <? Qfloor (- c * 10 + (1 # 2))%Q) = false).
      { destruct (100 <? _) eqn:E'; [|reflexivity].
        apply H100 in E'. q_consts. lra. }
      assert (E0 : (0 <? Qfloor (- c * 10 + (1 # 2))%Q) = true)
        by (apply H100; q_consts; lra).
      rewrite E, E0. reflexivity.
    + assert (E : (100 <? Qfloor (- c * 10 + (1 # 2))%Q) = false).
      { destruct (100 <? _) eqn:E'; [|reflexivity].
        apply H100 in E'. q_consts. lra. }
      assert (E0 : (0 <? Qfloor (- c * 10 + (1 # 2))%Q) = false).
      { destruct (0 <? _) eqn:E'; [|reflexivity].
        apply H100 in E'. q_consts. lra. }
      rewrite E, E0. reflexivity.
    + lra.
    + lra.
  - apply Qlt_bool_false_iff in Hneg.
    assert (Hn : 0 <= Qfloor (c * 10 + (1 # 2))%Q)
      by (apply floor_ge_iff; q_consts; lra).
    rewrite (classify_digits false _ Hn).
    assert (H100 : forall k : Z,
               (k <? Qfloor (c * 10 + (1 # 2))%Q) = true
               <-> (inject_Z (k + 1) <= c * 10 + (1 # 2))%Q).
    { intros k. rewrite Z.ltb_lt, <- floor_ge_iff. lia. }
    repeat split; intros.
    + lra.
    + lra.
    + assert (E : (100 <? Qfloor (c * 10 + (1 # 2))%Q) = false).
      { destruct (100 <? _) eqn:E'; [|reflexivity].
        apply H100 in E'. q_consts. lra. }
      assert (E0 : (0 <? Qfloor (c * 10 + (1 # 2))%Q) = false).
      { destruct (0 <? _) eqn:E'; [|reflexivity].
        apply H100 in E'. q_consts. lra. }
      rewrite E, E0. reflexivity.
    + assert (E : (100 <? Qfloor (c * 10 + (1 # 2))%Q) = false).
      { destruct (100 <? _) eqn:E'; [|reflexivity].
        apply H100 in E'. q_consts. lra. }
      assert (E0 : (0 <? Qfloor (c * 10 + (1 # 2))%Q) = true)
        by (apply H100; q_consts; lra).
      rewrite E, E0. reflexivity.
    + assert (E : (100 <? Qfloor (c * 10 + (1 # 2))%Q) = true)
        by (apply H100; q_consts; lra).
      rewrite E. reflexivity.
Qed.




(* ================================================================== *)
(** * Properties of the data of the dashboard charts *)
(* ================================================================== *)

Lemma has_key_In : forall key m,
  ChartData.has_key key m = true <-> In key (ChartData.keys m).
Proof.
  intros key m. unfold ChartData.has_key, ChartData.keys.
  rewrite existsb_exists, in_map_iff. split.
  - intros ([k g] & Hin & Heq). apply String.eqb_eq in Heq. cbn in Heq. subst.
    exists (key, g). split; [reflexivity | exact Hin].
  - intros ([k g] & Heq & Hin). cbn in Heq. subst.
    exists (key, g). split; [exact Hin | apply String.eqb_refl].
Qed.

Lemma keys_update : forall key f m,
  ChartData.keys (ChartData.update key f m) = ChartData.keys m.
Proof.
  intros key f m. induction m as [|[k g] m IH]; [reflexivity|].
  cbn. destruct (k =? key)%string; cbn; [reflexivity|].
  unfold ChartData.keys in IH. rewrite IH. reflexivity.
Qed.

Lemma get_absent : forall key m,
  ChartData.has_key key m = false -> ChartData.get key m = ChartData.empty_group.
Proof.
  intros key m. induction m as [|[k g] m IH]; [reflexivity|].
  cbn. destruct (k =? key)%string; cbn; [discriminate | exact IH].
Qed.

Lemma get_update : forall y key f m,
  ChartData.has_key key m = true ->
  ChartData.get y (ChartData.update key f m)
  = if (key =? y)%string then f (ChartData.get y m) else ChartData.get y m.
Proof.
  intros y key f m. induction m as [|[k g] m IH]; [discriminate|].
  cbn. destruct (String.eqb_spec k key) as [-> | Hk]; cbn.
  - intros _. destruct (key =? y)%string; reflexivity.
  - intros H. destruct (String.eqb_spec k y) as [-> | Hy].
    + destruct (String.eqb_spec key y); [congruence | reflexivity].
    + apply IH. exact H.
Qed.

Lemma get_snoc : forall y key g m,
  ChartData.has_key key m = false ->
  ChartData.get y (m ++ [(key, g)])%list
  = if (key =? y)%string then g else ChartData.get y m.
Proof.
  intros y key g m. induction m as [|[k g0] m IH]; cbn.
  - intros _. destruct (key =? y)%string; reflexivity.
  - destruct (String.eqb_spec k key) as [-> | Hk]; cbn; [discriminate|].
    intros H. destruct (String.eqb_spec k y) as [-> | Hy].
    + destruct (String.eqb_spec key y); [congruence | reflexivity].
    + apply IH. exact H.
Qed.

Lemma has_key_snoc : forall key g m,
  ChartData.has_key key (m ++ [(key, g)])%list = true.
Proof.
  intros key g m. unfold ChartData.has_key. rewrite existsb_app. cbn.
  rewrite String.eqb_refl. apply orb_true_iff. right. reflexivity.
Qed.

Lemma keys_add_record : forall m record,
  ChartData.keys (ChartData.add_record m record)
  = if ChartData.has_key (ChartData.year_key record) m
    then ChartData.keys m
    else (ChartData.keys m ++ [ChartData.year_key record])%list.
Proof.
  intros m record. unfold ChartData.add_record. rewrite keys_update.
  destruct (ChartData.has_key (ChartData.year_key record) m); [reflexivity|].
  unfold ChartData.keys. rewrite map_app. reflexivity.
Qed.

Lemma get_add_record : forall y m record,
  ChartData.get y (ChartData.add_record m record)
  = if (ChartData.year_key record =? y)%string
    then ChartData.push_record record (ChartData.get y m)
    else ChartData.get y m.
Proof.
  intros y m record. unfold ChartData.add_record.
  destruct (ChartData.has_key (ChartData.year_key record) m) eqn:Hk.
  - apply get_update. exact Hk.
  - rewrite get_update by apply has_key_snoc.
    rewrite (get_snoc y _ _ m Hk).
    destruct (String.eqb_spec (ChartData.year_key record) y) as [<- | Hy];
      [|reflexivity].
    rewrite (get_absent _ m Hk). reflexivity.
Qed.

Lemma push_app : forall reading arr,
  ChartData.push reading arr = (arr ++ ChartData.push reading [])%list.
Proof.
  intros [v|] arr; cbn; [|rewrite app_nil_r; reflexivity].
  destruct (nonzero v); [reflexivity | rewrite app_nil_r; reflexivity].
Qed.

Section Groups.
Variable project : ChartData.Group -> list Q.
Variable field : AirRecord -> option Q.
Hypothesis project_push : forall record g,
  project (ChartData.push_record record g)
  = ChartData.push (field record) (project g).

Lemma fold_get : forall records m y,
  project (ChartData.get y (List.fold_left ChartData.add_record records m))
  = (project (ChartData.get y m) ++ ChartData.readings_of field y records)%list.
Proof.
  induction records as [|record records IH]; intros m y; cbn [List.fold_left].
  - cbn. rewrite app_nil_r. reflexivity.
  - rewrite IH, get_add_record. unfold ChartData.readings_of. cbn [flat_map].
    destruct (ChartData.year_key record =? y)%string.
    + rewrite project_push, push_app, <- app_assoc. reflexivity.
    + reflexivity.
Qed.
End Groups.

Lemma fold_keys : forall records m y,
  In y (ChartData.keys (List.fold_left ChartData.add_record records m))
  <-> In y (ChartData.keys m)
      \/ exists record, In record records /\ ChartData.year_key record = y.
Proof.
  induction records as [|record records IH]; intros m y; cbn [List.fold_left].
  - split; [auto | intros [H | (r & [] & _)]; exact H].
  - rewrite IH, keys_add_record. split.
    + intros [H | (r & Hr & Hy)].
      * destruct (ChartData.has_key (ChartData.year_key record) m); [auto|].
        apply in_app_or in H. destruct H as [H | [<- | []]]; [auto|].
        right. exists record. split; [left; reflexivity | reflexivity].
      * right. exists r. split; [right; exact Hr | exact Hy].
    + intros [H | (r & [<- | Hr] & Hy)].
      * left. destruct (ChartData.has_key (ChartData.year_key record) m);
          [exact H | apply in_or_app; auto].
      * left. subst y.
        destruct (ChartData.has_key (ChartData.year_key record) m) eqn:Hk.
        -- apply has_key_In. exact Hk.
        -- apply in_or_app. right. left. reflexivity.
      * right. exists r. split; assumption.
Qed.

Lemma fold_keys_NoDup : forall records m,
  NoDup (ChartData.keys m) ->
  NoDup (ChartData.keys (List.fold_left ChartData.add_record records m)).
Proof.
  induction records as [|record records IH]; intros m H; cbn [List.fold_left];
    [exact H|].
  apply IH. rewrite keys_add_record.
  destruct (ChartData.has_key (ChartData.year_key record) m) eqn:Hk; [exact H|].
  apply NoDup_app; [exact H | repeat constructor; intros [] |].
  intros x Hx [<- | []]. apply has_key_In in Hx. congruence.
Qed.

Lemma insert_In : forall x y l,
  In y (ChartData.insert x l) <-> y = x \/ In y l.
Proof.
  intros x y l. induction l as [|z l IH]; cbn.
  - intuition.
  - destruct (String.leb x z); cbn; [intuition|]. rewrite IH. intuition.
Qed.

Lemma sort_In : forall y l, In y (ChartData.sort l) <-> In y l.
Proof.
  intros y l. induction l as [|x l IH]; cbn; [reflexivity|].
  rewrite insert_In, IH. intuition.
Qed.

Lemma insert_NoDup : forall x l,
  ~ In x l -> NoDup l -> NoDup (ChartData.insert x l).
Proof.
  intros x l. induction l as [|z l IH]; cbn; intros Hx Hl.
  - repeat constructor. intros [].
  - destruct (String.leb x z).
    + constructor; [exact Hx | exact Hl].
    + inversion Hl as [|? ? Hz Hl']; subst. constructor.
      * rewrite insert_In. intros [-> | H]; [apply Hx; left; reflexivity|].
        contradiction.
      * apply IH; [intros H; apply Hx; right; exact H | exact Hl'].
Qed.

Lemma sort_NoDup : forall l, NoDup l -> NoDup (ChartData.sort l).
Proof.
  induction l as [|x l IH]; intros H; cbn; [constructor|].
  inversion H as [|? ? Hx Hl]; subst.
  apply insert_NoDup; [rewrite sort_In; exact Hx | apply IH; exact Hl].
Qed.

Lemma insert_ascending : forall x l,
  ChartData.ascending l -> ChartData.ascending (ChartData.insert x l).
Proof.
  intros x l. unfold ChartData.ascending.
  induction l as [|z l IH]; cbn; intros H.
  - repeat constructor.
  - destruct (String.leb x z) eqn:Hxz.
    + constructor; [exact H | constructor; exact Hxz].
    + inversion H as [|? ? Hl Hhd]; subst. constructor; [apply IH; exact Hl|].
      assert (Hzx : String.leb z x = true)
        by (destruct (String.leb_total x z); congruence).
      destruct l as [|u l]; cbn.
      * constructor. exact Hzx.
      * destruct (String.leb x u); constructor; [exact Hzx|].
        inversion Hhd; assumption.
Qed.

Lemma sort_ascending : forall l, ChartData.ascending (ChartData.sort l).
Proof.
  induction l as [|x l IH]; cbn; [constructor | apply insert_ascending; exact IH].
Qed.

Lemma toFixed1_Qeq : forall a b : Q,
  (a == b)%Q -> Num.toFixed1 (Num.Finite a) = Num.toFixed1 (Num.Finite b).
Proof.
  intros a b Hab. unfold Num.toFixed1, Num.Qlt_bool.
  assert (Hneg : Qle_bool 0 a = Qle_bool 0 b).
  { destruct (Qle_bool 0 a) eqn:Ea, (Qle_bool 0 b) eqn:Eb; try reflexivity.
    - apply Qle_bool_iff in Ea. rewrite Hab in Ea. apply Qle_bool_iff in Ea.
      congruence.
    - apply Qle_bool_iff in Eb. rewrite <- Hab in Eb. apply Qle_bool_iff in Eb.
      congruence. }
  rewrite Hneg. destruct (negb (Qle_bool 0 b)); f_equal; apply Qfloor_comp;
    rewrite Hab; reflexivity.
Qed.

Lemma calcAvg_single : forall q : Q,
  ChartData.calcAvg [q]
  = Some (Num.fixed_string (Num.toFixed1 (Num.Finite q))).
Proof.
  intros q. unfold ChartData.calcAvg. do 2 f_equal.
  change (Num.average [q]) with (Num.Finite ((q + 0) / inject_Z 1)).
  apply toFixed1_Qeq. field.
Qed.

Lemma readings_of_kept : forall (field : AirRecord -> option Q) y records,
  ChartData.readings_of field y records
  = flat_map (fun record =>
                match field record with
                | Some v =>
                    if (JS.string_of_Z (rec_annee record) =? y)%string
                       && negb (Qeq_bool v 0)
                    then [v] else []
                | None => []
                end) records.
Proof.
  intros field y records. unfold ChartData.readings_of.
  induction records as [|record records IH]; [reflexivity|].
  cbn [flat_map]. rewrite IH. f_equal.
  unfold ChartData.year_key, ChartData.push, nonzero.
  destruct (field record) as [v|];
    destruct (JS.string_of_Z (rec_annee record) =? y)%string;
    reflexivity.
Qed.



Lemma string_of_Z_not_empty : forall z : Z, string_of_Z z <> "".
Proof.
  intros z. unfold string_of_Z.
  destruct (Z.to_int z) as [d | d]; cbn; destruct d; discriminate.
Qed.

Lemma fixed_string_length : forall f : Num.fixed,
  (3 <= String.length (Num.fixed_string f))%nat.
Proof.
  assert (Hlen : forall a b, String.length (a ++ b)
                             = (String.length a + String.length b)%nat).
  { induction a as [|c a IH]; intros b; cbn; [reflexivity | rewrite IH; reflexivity]. }
  assert (Hpos : forall z, (1 <= String.length (string_of_Z z))%nat).
  { intros z. pose proof (string_of_Z_not_empty z).
    destruct (string_of_Z z); cbn; [congruence | lia]. }
  intros [negative n | [q | | |]]; cbn; try lia.
  rewrite !Hlen. cbn.
  pose proof (Hpos (n / 10)). pose proof (Hpos (n mod 10)). lia.
Qed.



(* ================================================================== *)
(** * Properties of the chart instances *)
(* ================================================================== *)

Lemma own_In : forall chartId chart m,
  ChartInstances.own chartId m = Some chart -> In (chartId, chart) m.
Proof.
  intros chartId chart m. induction m as [|[k c] m IH]; cbn; [discriminate|].
  destruct (String.eqb_spec k chartId) as [-> | Hk].
  - intros H. injection H as <-. left. reflexivity.
  - intros H. right. apply IH. exact H.
Qed.

Lemma In_own : forall chartId chart m,
  NoDup (List.map fst m) -> In (chartId, chart) m ->
  ChartInstances.own chartId m = Some chart.
Proof.
  intros chartId chart m. induction m as [|[k c] m IH]; cbn; [intros _ []|].
  intros Hnd Hin. inversion Hnd as [|? ? Hk Hnd']; subst.
  destruct (String.eqb_spec k chartId) as [-> | Hne].
  - destruct Hin as [Heq | Hin]; [congruence|].
    exfalso. apply Hk. apply in_map_iff. exists (chartId, chart).
    split; [reflexivity | exact Hin].
  - destruct Hin as [Heq | Hin]; [congruence|]. apply IH; assumption.
Qed.

Lemma own_absent : forall chartId m,
  ~ In chartId (List.map fst m) -> ChartInstances.own chartId m = None.
Proof.
  intros chartId m H.
  destruct (ChartInstances.own chartId m) as [c|] eqn:E; [|reflexivity].
  exfalso. apply H. apply own_In in E. apply in_map_iff.
  exists (chartId, c). split; [reflexivity | exact E].
Qed.

Lemma delete_In : forall chartId p m,
  In p (ChartInstances.delete chartId m) <-> In p m /\ fst p <> chartId.
Proof.
  intros chartId p m. unfold ChartInstances.delete. rewrite filter_In.
  rewrite negb_true_iff, String.eqb_neq. reflexivity.
Qed.

Lemma NoDup_map_filter : forall (A B : Type) (f : A -> B) (keep : A -> bool) l,
  NoDup (List.map f l) -> NoDup (List.map f (List.filter keep l)).
Proof.
  intros A B f keep l. induction l as [|a l IH]; cbn; [auto|].
  intros H. inversion H as [|? ? Ha Hl]; subst.
  destruct (keep a); cbn; [|apply IH; exact Hl].
  constructor; [|apply IH; exact Hl].
  intros Hin. apply Ha. apply in_map_iff in Hin.
  destruct Hin as (x & Hx & Hin). apply filter_In in Hin.
  apply in_map_iff. exists x. split; [exact Hx | apply Hin].
Qed.

(** A chart is registered under one canvas only. *)
Lemma registered_once : forall (m : list (string * nat)) k k' chart,
  NoDup (List.map snd m) -> In (k, chart) m -> In (k', chart) m -> k = k'.
Proof.
  intros m k k' chart. induction m as [|[k0 c0] m IH]; [intros _ []|].
  cbn. intros Hnd Hp Hin. inversion Hnd as [|? ? Hn Hnd']; subst.
  destruct Hp as [Hp | Hp], Hin as [Hin | Hin].
  - congruence.
  - injection Hp as -> ->. exfalso. apply Hn.
    apply in_map_iff. exists (k', chart). split; [reflexivity | exact Hin].
  - injection Hin as -> ->. exfalso. apply Hn.
    apply in_map_iff. exists (k, chart). split; [reflexivity | exact Hp].
  - apply IH; assumption.
Qed.

(** The three cases of [destroyChart], on a sound state. *)
Lemma destroyChart_cases : forall chartId st,
  ChartInstances.well_kept st ->
  (App.inherited chartId = true ->
   ChartInstances.lookup chartId (ChartInstances.chartInstances st)
   = ChartInstances.Member
   /\ exists message,
        ChartInstances.destroyChart chartId st = inl (TypeError message))
  /\ (App.inherited chartId = false ->
      exists st', ChartInstances.destroyChart chartId st = inr st').
Proof.
  intros chartId st (Hc & _ & _ & _ & _ & Hown).
  unfold ChartInstances.destroyChart, ChartInstances.lookup. split; intros Hi.
  - rewrite own_absent.
    + rewrite Hi. split; [reflexivity | eexists; reflexivity].
    + intros Hin. apply Hown in Hin. congruence.
  - rewrite Hi. destruct (ChartInstances.own chartId _); eexists; reflexivity.
Qed.

Lemma destroyChart_well_kept : forall chartId st st',
  ChartInstances.well_kept st ->
  ChartInstances.destroyChart chartId st = inr st' ->
  ChartInstances.well_kept st'
  /\ ~ In chartId (ChartInstances.canvases st')
  /\ ChartInstances.constructed st' = ChartInstances.constructed st.
Proof.
  intros chartId st st' (Hc & Hr & Hreg & Hd & Hseq & Hown).
  unfold ChartInstances.destroyChart, ChartInstances.lookup.
  destruct (ChartInstances.own chartId (ChartInstances.chartInstances st))
    as [chart|] eqn:Hl.
  - intros Heq. injection Heq as <-.
    pose proof (own_In _ _ _ Hl) as Hin.
    assert (Hchart : In chart (ChartInstances.registered st)).
    { apply in_map_iff. exists (chartId, chart). split; [reflexivity | exact Hin]. }
    split; [|split; [|reflexivity]].
    + unfold ChartInstances.well_kept, ChartInstances.canvases,
        ChartInstances.registered. cbn.
      split; [apply NoDup_map_filter; exact Hc|].
      split; [apply NoDup_map_filter; exact Hr|].
      split; [|split; [|split; [exact Hseq|]]].
      * intros c. rewrite in_map_iff. split.
        -- intros ([k c'] & Heq & Hp). cbn in Heq. subst c'.
           apply delete_In in Hp. destruct Hp as [Hp Hk]. cbn in Hk.
           assert (Hcin : In c (ChartInstances.registered st)).
           { apply in_map_iff. exists (k, c). split; [reflexivity | exact Hp]. }
           apply Hreg in Hcin. destruct Hcin as [Hlt Hnd].
           split; [exact Hlt|]. intros Hd'. apply in_app_or in Hd'.
           destruct Hd' as [Hd' | [<- | []]]; [contradiction|].
           apply Hk. apply (registered_once _ _ _ chart Hr Hp Hin).
        -- intros [Hlt Hnd].
           assert (Hcin : In c (ChartInstances.registered st)).
           { apply Hreg. split; [exact Hlt|].
             intros H. apply Hnd. apply in_or_app. left. exact H. }
           apply in_map_iff in Hcin. destruct Hcin as ([k c'] & Heq & Hp).
           cbn in Heq. subst c'. exists (k, c). split; [reflexivity|].
           apply delete_In. split; [exact Hp|]. cbn. intros ->.
           apply (In_own _ _ _ Hc) in Hp. rewrite Hl in Hp.
           injection Hp as ->. apply Hnd. apply in_or_app. right. left. reflexivity.
      * intros c Hin'. apply in_app_or in Hin'.
        destruct Hin' as [Hin' | [<- | []]]; [apply Hd; exact Hin'|].
        apply Hreg. exact Hchart.
      * intros k Hk. apply Hown. apply in_map_iff in Hk.
        destruct Hk as (x & Hx & Hk). apply delete_In in Hk.
        apply in_map_iff. exists x. split; [exact Hx | apply Hk].
    + unfold ChartInstances.canvases. cbn. rewrite in_map_iff.
      intros ([k c] & Heq & Hp). cbn in Heq. subst k.
      apply delete_In in Hp. destruct Hp as [_ Hk]. apply Hk. reflexivity.
  - destruct (App.inherited chartId); [discriminate|].
    intros Heq. injection Heq as <-.
    split; [exact (conj Hc (conj Hr (conj Hreg (conj Hd (conj Hseq Hown)))))|].
    split; [|reflexivity].
    unfold ChartInstances.canvases. rewrite in_map_iff.
    intros ([k c] & Heq & Hp). cbn in Heq. subst k.
    apply (In_own _ _ _ Hc) in Hp. congruence.
Qed.

Lemma delete_absent : forall chartId m,
  ~ In chartId (List.map fst m) -> ChartInstances.delete chartId m = m.
Proof.
  intros chartId m. unfold ChartInstances.delete.
  induction m as [|[k c] m IH]; cbn; [reflexivity|].
  intros H. destruct (String.eqb_spec k chartId) as [-> | Hk]; cbn.
  - exfalso. apply H. left. reflexivity.
  - rewrite IH; [reflexivity|]. intros Hin. apply H. right. exact Hin.
Qed.

(** The state after the chart is stored, from a sound state that holds no
    chart for the canvas. *)
Lemma assign_well_kept : forall canvasId st1,
  ChartInstances.well_kept st1 ->
  ~ In canvasId (ChartInstances.canvases st1) ->
  App.inherited canvasId = false ->
  ChartInstances.well_kept
    (ChartInstances.mkState
       (ChartInstances.assign canvasId
          (List.length (ChartInstances.constructed st1))
          (ChartInstances.chartInstances st1))
       (ChartInstances.constructed st1
        ++ [List.length (ChartInstances.constructed st1)])%list
       (ChartInstances.destroyed st1)).
Proof.
  intros canvasId st1 (Hc & Hr & Hreg & Hd & Hseq & Hown) Habsent Hi.
  unfold ChartInstances.well_kept, ChartInstances.canvases,
    ChartInstances.registered, ChartInstances.assign. cbn.
  rewrite (delete_absent canvasId _ Habsent).
  rewrite !map_app, !length_app. cbn.
  assert (Hfresh : ~ In (List.length (ChartInstances.constructed st1))
                        (ChartInstances.registered st1)).
  { intros H. apply Hreg in H. lia. }
  split.
  { apply NoDup_app; [exact Hc | repeat constructor; intros [] |].
    intros x Hx [<- | []]. contradiction. }
  split.
  { apply NoDup_app; [exact Hr | repeat constructor; intros [] |].
    intros x Hx [<- | []]. contradiction. }
  split.
  { intros c. rewrite in_app_iff. split.
    - intros [H | [<- | []]].
      + apply Hreg in H. split; [lia | apply H].
      + split; [lia|]. intros H. apply Hd in H. lia.
    - intros [Hlt Hnd].
      destruct (Nat.eq_dec c (List.length (ChartInstances.constructed st1)))
        as [-> | Hne]; [right; left; reflexivity|].
      left. apply Hreg. split; [lia | exact Hnd]. }
  split.
  { intros c H. apply Hd in H. lia. }
  split.
  { rewrite Nat.add_1_r, seq_S, <- Hseq. reflexivity. }
  intros k Hk. apply in_app_or in Hk.
  destruct Hk as [Hk | [<- | []]]; [apply Hown; exact Hk | exact Hi].
Qed.

Lemma createChart_well_kept : forall canvasId canvas_found st,
  ChartInstances.well_kept st ->
  ChartInstances.well_kept
    (fst (ChartInstances.createChart canvasId canvas_found st)).
Proof.
  intros canvasId canvas_found st Hst.
  unfold ChartInstances.createChart.
  destruct (ChartInstances.destroyChart canvasId st) as [e | st1] eqn:Hdes;
    [exact Hst|].
  destruct (destroyChart_well_kept canvasId st st1 Hst Hdes) as (Hst1 & Habsent & _).
  destruct canvas_found; cbn [negb fst]; [|exact Hst1].
  apply assign_well_kept; [exact Hst1 | exact Habsent|].
  destruct (App.inherited canvasId) eqn:Hi; [|reflexivity].
  destruct (destroyChart_cases canvasId st Hst) as [Hthrow _].
  destruct (Hthrow Hi) as (_ & message & Hm). congruence.
Qed.

Lemma reachable_well_kept : forall st,
  ChartInstances.reachable st -> ChartInstances.well_kept st.
Proof.
  induction 1 as [|st canvasId found _ IH|st chartId st' _ IH Hdes].
  - repeat split; try constructor; cbn; try tauto; try lia.
    destruct H.
  - apply createChart_well_kept. exact IH.
  - apply (destroyChart_well_kept chartId st st' IH Hdes).
Qed.

Lemma live_iff : forall st c,
  ChartInstances.well_kept st ->
  (In c (ChartInstances.live st) <-> In c (ChartInstances.registered st)).
Proof.
  intros st c (_ & _ & Hreg & _ & Hseq & _).
  unfold ChartInstances.live. rewrite filter_In, Hreg.
  rewrite negb_true_iff.
  assert (Hex : existsb (Nat.eqb c) (ChartInstances.destroyed st) = false
                <-> ~ In c (ChartInstances.destroyed st)).
  { split.
    - intros H Hin.
      assert (existsb (Nat.eqb c) (ChartInstances.destroyed st) = true)
        by (apply existsb_exists; exists c; split;
            [exact Hin | apply Nat.eqb_refl]).
      congruence.
    - intros H. destruct (existsb _ _) eqn:E; [|reflexivity].
      apply existsb_exists in E. destruct E as (x & Hx & Heq).
      apply Nat.eqb_eq in Heq. subst x. contradiction. }
  rewrite Hex.
  assert (Hin : In c (ChartInstances.constructed st)
                <-> (c < List.length (ChartInstances.constructed st))%nat).
  { rewrite Hseq at 1. rewrite in_seq. lia. }
  rewrite Hin. reflexivity.
Qed.

(** X26. No chart is leaked.  Whatever charts have been created and destroyed,
    each canvas holds at most one chart, no chart is held by two canvases,
    and the charts that are drawn (constructed and not destroyed) are
    exactly the ones held.  Creating a chart on a canvas whose id is not a
    name of [Object.prototype] destroys the chart that the canvas held; the
    new chart is then the one held by the canvas, unless the canvas element
    is missing, in which case the function returns null and the canvas
    holds none.  For an id that is a name of [Object.prototype] (as
    [constructor]) the lookup finds the inherited member: the function
    throws a TypeError, and no chart is constructed, destroyed or stored. *)
Theorem chart_instances_do_not_leak :
  forall (st : ChartInstances.State) (canvasId : string) (canvas_found : bool),
    ChartInstances.reachable st ->
    let st' := fst (ChartInstances.createChart canvasId canvas_found st) in
    let result := snd (ChartInstances.createChart canvasId canvas_found st) in
    NoDup (ChartInstances.canvases st)
    /\ NoDup (ChartInstances.registered st)
    /\ (forall c, In c (ChartInstances.live st)
                  <-> In c (ChartInstances.registered st))
    /\ (App.inherited canvasId = true ->
        ChartInstances.lookup canvasId (ChartInstances.chartInstances st)
        = ChartInstances.Member
        /\ (exists message, result = inl (TypeError message))
        /\ st' = st)
    /\ (App.inherited canvasId = false ->
        (forall old,
            ChartInstances.lookup canvasId (ChartInstances.chartInstances st)
            = ChartInstances.Held old ->
            In old (ChartInstances.destroyed st')
            /\ ~ In old (ChartInstances.live st'))
        /\ (canvas_found = false ->
            result = inr None
            /\ ChartInstances.lookup canvasId (ChartInstances.chartInstances st')
               = ChartInstances.Nothing)
        /\ (canvas_found = true ->
            exists chart,
              result = inr (Some chart)
              /\ ChartInstances.lookup canvasId
                   (ChartInstances.chartInstances st')
                 = ChartInstances.Held chart
              /\ In chart (ChartInstances.live st')
              /\ ~ In chart (ChartInstances.constructed st))).
Proof.
  intros st canvasId canvas_found Hreach st' result.
  pose proof (reachable_well_kept st Hreach) as Hst.
  pose proof (createChart_well_kept canvasId canvas_found st Hst) as Hst'.
  fold st' in Hst'.
  destruct (destroyChart_cases canvasId st Hst) as [Hthrow Hplain].
  split; [apply Hst|]. split; [apply Hst|].
  split; [intros c; apply live_iff; exact Hst|].
  split.
  { intros Hi. destruct (Hthrow Hi) as (Hmember & message & Hm).
    split; [exact Hmember|].
    subst st' result. unfold ChartInstances.createChart. rewrite Hm. cbn.
    split; [exists message; reflexivity | reflexivity]. }
  intros Hi. destruct (Hplain Hi) as (st1 & Hdes).
  destruct (destroyChart_well_kept canvasId st st1 Hst Hdes)
    as (Hst1 & Habsent & Hcons).
  assert (Hown1 : ChartInstances.own canvasId (ChartInstances.chartInstances st1)
                  = None) by (apply own_absent; exact Habsent).
  split; [|split].
  - intros old Hold.
    assert (Hin : In old (ChartInstances.destroyed st')).
    { subst st'. unfold ChartInstances.createChart. rewrite Hdes.
      revert Hdes. unfold ChartInstances.destroyChart. rewrite Hold.
      intros Heq. injection Heq as <-.
      destruct canvas_found; cbn; apply in_or_app; right; left; reflexivity. }
    split; [exact Hin|].
    rewrite (live_iff _ old Hst'). destruct Hst' as (_ & _ & Hreg' & _).
    rewrite Hreg'. intros [_ H]. contradiction.
  - intros ->. subst st' result. unfold ChartInstances.createChart.
    rewrite Hdes. cbn. split; [reflexivity|].
    unfold ChartInstances.lookup. rewrite Hown1, Hi. reflexivity.
  - intros ->. subst result. unfold st' in *. clear st'.
    unfold ChartInstances.createChart in *. rewrite Hdes in *.
    cbn [negb fst snd] in *.
    exists (List.length (ChartInstances.constructed st1)).
    split; [reflexivity|]. split; [|split].
    + unfold ChartInstances.lookup. cbn [ChartInstances.chartInstances].
      rewrite (In_own canvasId (List.length (ChartInstances.constructed st1)));
        [reflexivity | apply Hst' |].
      unfold ChartInstances.assign. apply in_or_app. right. left. reflexivity.
    + apply (live_iff _ _ Hst').
      unfold ChartInstances.registered, ChartInstances.assign. cbn.
      rewrite map_app. apply in_or_app. right. left. reflexivity.
    + destruct Hst as (_ & _ & _ & _ & Hseq & _).
      rewrite Hcons, Hseq, in_seq, length_seq. lia.
Qed.

Lemma chart_instances_do_not_leak_witness :
  let st := fst (ChartInstances.createChart "chart-trend" true
                   ChartInstances.initial) in
  In 0%nat (ChartInstances.destroyed
              (fst (ChartInstances.createChart "chart-trend" true st)))
  /\ fst (ChartInstances.createChart "constructor" true st) = st.
Proof.
  intros st.
  split.
  - destruct (chart_instances_do_not_leak st "chart-trend" true
                (ChartInstances.reachable_create _ "chart-trend" true
                   ChartInstances.reachable_initial))
      as (_ & _ & _ & _ & Hplain).
    destruct (Hplain eq_refl) as (Hold & _).
    apply (Hold 0%nat). reflexivity.
  - destruct (chart_instances_do_not_leak st "constructor" true
                (ChartInstances.reachable_create _ "chart-trend" true
                   ChartInstances.reachable_initial))
      as (_ & _ & _ & Hthrow & _).
    destruct (Hthrow eq_refl) as (_ & _ & Hsame). exact Hsame.
Defined.
